(** * Embedding pipeline and hybrid search of the image gallery backend

    A shallow embedding of
      - [src/services/embeddingProcessor.js] (the background embedding
        pipeline: [processImageEmbedding], [processPendingEmbeddings],
        [getEmbeddingStats]),
      - [src/controllers/imageController.js] ([uploadMultipleImages],
        [uploadImage], [deleteImage], [searchImages]),
      - [src/config/qdrant.js] and [src/services/aiService.js] (the
        gateways the two use),
    followed by the properties of the specification that concern them.

    The JavaScript is asynchronous: every [await] on a service (MongoDB,
    Qdrant, the CLIP model, blob storage) is a point where the call may
    reject and where other tasks may run.  Programs are therefore written
    as trees over the service calls ([Prog]), with [try]/[catch]/[finally]
    as combinators on those trees, and are given meaning by an interpreter
    over an explicit [World]. *)

From Stdlib Require Import ZArith String Ascii Bool Arith Lia List.
From Stdlib Require Import Permutation Sorted DecimalString.
From Stdlib Require SpecFloat.
Import ListNotations.
Local Open Scope string_scope.
Local Open Scope list_scope.

Set Implicit Arguments.

(* ================================================================== *)
(** * 1. Data model                                                    *)
(* ================================================================== *)

(** MongoDB object ids; [toString()] of an id is the id itself here. *)
Definition ObjectId := nat.

(** Qdrant point ids are the strings produced by [uuidv4()]. *)
Definition Uuid := string.

(** An embedding.  The components are floating-point numbers in the
    source; only the length of a vector and its passage from the model to
    the index matter to the code modelled here. *)
Definition Vector := list Z.

(** Timestamps are milliseconds since the epoch, as [Date.now()]. *)
Definition Millis := Z.

(** [embeddingStatus] of the Image schema:
    [enum: ['pending', 'processing', 'completed', 'failed']]. *)
Inductive EmbeddingStatus : Type :=
| pending
| processing
| completed
| failed.

Definition EmbeddingStatus_eqb (a b : EmbeddingStatus) : bool :=
  match a, b with
  | pending, pending => true
  | processing, processing => true
  | completed, completed => true
  | failed, failed => true
  | _, _ => false
  end.

(** A JavaScript [Error] as far as the code inspects it: [error.message]
    and [error.status]. *)
Record JsError : Type := mkJsError {
  message : string;
  status : option Z
}.

Definition new_Error (msg : string) : JsError :=
  {| message := msg; status := None |}.

(** ** Strings

    A JavaScript string is held as its UTF-8 encoding.  [s.trim()] strips
    white space and line terminators from both ends: TAB, LF, VT, FF, CR,
    SP, U+00A0, U+1680, U+2000 to U+200A, U+2028, U+2029, U+202F, U+205F,
    U+3000 and U+FEFF. *)
Definition utf8 (bytes : list nat) : list ascii := map ascii_of_nat bytes.

Definition WhiteSpace : list (list ascii) :=
  map utf8
    [[9]; [10]; [11]; [12]; [13]; [32]; [194; 160]; [225; 154; 128];
     [226; 128; 128]; [226; 128; 129]; [226; 128; 130]; [226; 128; 131];
     [226; 128; 132]; [226; 128; 133]; [226; 128; 134]; [226; 128; 135];
     [226; 128; 136]; [226; 128; 137]; [226; 128; 138];
     [226; 128; 168]; [226; 128; 169]; [226; 128; 175]; [226; 129; 159];
     [227; 128; 128]; [239; 187; 191]].

(** What follows the prefix [p] in [l]. *)
Fixpoint strip_prefix (p l : list ascii) : option (list ascii) :=
  match p, l with
  | [], _ => Some l
  | c :: p', d :: l' => if Ascii.eqb c d then strip_prefix p' l' else None
  | _ :: _, [] => None
  end.

(** What follows the first of [ps] that [l] starts with. *)
Fixpoint strip_any (ps : list (list ascii)) (l : list ascii)
  : option (list ascii) :=
  match ps with
  | [] => None
  | p :: ps' =>
      match strip_prefix p l with
      | Some r => Some r
      | None => strip_any ps' l
      end
  end.

Fixpoint strip_all (fuel : nat) (ps : list (list ascii)) (l : list ascii)
  : list ascii :=
  match fuel with
  | 0 => l
  | S n =>
      match strip_any ps l with
      | Some r => strip_all n ps r
      | None => l
      end
  end.

Definition trim_start (s : string) : string :=
  let l := list_ascii_of_string s in
  string_of_list_ascii (strip_all (length l) WhiteSpace l).

Definition trim_end (s : string) : string :=
  let l := rev (list_ascii_of_string s) in
  string_of_list_ascii
    (rev (strip_all (length l) (map (@rev ascii) WhiteSpace) l)).

(** [s.trim()]. *)
Definition trim (s : string) : string := trim_end (trim_start s).

(** The fields of the Image schema (models/Image.js) that the pipeline and
    the controller read or write.  [fileSize], [mimeType], [width],
    [height], [description], [tags], [collections] and [location] are
    stored and returned but never inspected by the code below. *)
Record Image : Type := mkImage {
  _id : ObjectId;
  filename : string;
  originalName : string;
  filePath : string;
  title : string;
  qdrantId : Uuid;
  isEmbedded : bool;
  embeddingStatus : EmbeddingStatus;
  embeddingError : option string;
  embeddingAttempts : nat;
  lastEmbeddingAttempt : option Millis;
  user : ObjectId;
  isPublic : bool;
  uploadDate : Millis;
  createdAt : Millis
}.

(** The document handed to [Image.create]: the status fields are optional,
    the schema supplies their defaults. *)
Record ImageDoc : Type := mkImageDoc {
  doc_filename : string;
  doc_originalName : string;
  doc_filePath : string;
  doc_title : string;
  doc_qdrantId : Uuid;
  doc_user : ObjectId;
  doc_isPublic : bool;
  doc_isEmbedded : option bool;
  doc_embeddingStatus : option EmbeddingStatus;
  doc_embeddingAttempts : option nat
}.

Definition or_default {A : Type} (o : option A) (d : A) : A :=
  match o with
  | Some a => a
  | None => d
  end.

(** Schema defaults: [isEmbedded: false], [embeddingStatus: 'pending'],
    [embeddingAttempts: 0], no [lastEmbeddingAttempt], no
    [embeddingError], [uploadDate: Date.now], [timestamps: true]; the
    schema trims the title ([trim: true]). *)
Definition new_image (id : ObjectId) (t : Millis) (d : ImageDoc) : Image :=
  {| _id := id;
     filename := doc_filename d;
     originalName := doc_originalName d;
     filePath := doc_filePath d;
     title := trim (doc_title d);
     qdrantId := doc_qdrantId d;
     isEmbedded := or_default (doc_isEmbedded d) false;
     embeddingStatus := or_default (doc_embeddingStatus d) pending;
     embeddingError := None;
     embeddingAttempts := or_default (doc_embeddingAttempts d) 0;
     lastEmbeddingAttempt := None;
     user := doc_user d;
     isPublic := doc_isPublic d;
     uploadDate := t;
     createdAt := t |}.

(** The three partial updates the pipeline sends through
    [Image.findByIdAndUpdate]. *)
Inductive ImageUpdate : Type :=
| SetProcessing (t : Millis)
    (* { embeddingStatus: 'processing', lastEmbeddingAttempt: new Date(),
         $inc: { embeddingAttempts: 1 } } *)
| SetCompleted
    (* { isEmbedded: true, embeddingStatus: 'completed',
         embeddingError: null } *)
| SetFailed (msg : string).
    (* { embeddingStatus: 'failed', embeddingError: error.message } *)

Definition apply_update (u : ImageUpdate) (r : Image) : Image :=
  match u with
  | SetProcessing t =>
      mkImage (_id r) (filename r) (originalName r) (filePath r) (title r)
        (qdrantId r) (isEmbedded r) processing (embeddingError r)
        (S (embeddingAttempts r)) (Some t) (user r) (isPublic r)
        (uploadDate r) (createdAt r)
  | SetCompleted =>
      mkImage (_id r) (filename r) (originalName r) (filePath r) (title r)
        (qdrantId r) true completed None
        (embeddingAttempts r) (lastEmbeddingAttempt r) (user r) (isPublic r)
        (uploadDate r) (createdAt r)
  | SetFailed msg =>
      mkImage (_id r) (filename r) (originalName r) (filePath r) (title r)
        (qdrantId r) (isEmbedded r) failed (Some msg)
        (embeddingAttempts r) (lastEmbeddingAttempt r) (user r) (isPublic r)
        (uploadDate r) (createdAt r)
  end.

(** [findByIdAndUpdate]: the first (and, ids being unique, only) document
    with that id is updated; an unknown id changes nothing. *)
Fixpoint update_by_id (id : ObjectId) (u : ImageUpdate) (l : list Image)
  : list Image :=
  match l with
  | [] => []
  | r :: rest =>
      if Nat.eqb (_id r) id then apply_update u r :: rest
      else r :: update_by_id id u rest
  end.

Fixpoint find_by_id (id : ObjectId) (l : list Image) : option Image :=
  match l with
  | [] => None
  | r :: rest => if Nat.eqb (_id r) id then Some r else find_by_id id rest
  end.

Definition delete_by_id (id : ObjectId) (l : list Image) : list Image :=
  filter (fun r => negb (Nat.eqb (_id r) id)) l.

(** ** Mongo query documents

    The filters that the code builds, as a small syntax with its matching
    function.  A comparison on an absent field does not match, so
    [lastEmbeddingAttempt: { $lt: d }] fails on a record that was never
    attempted. *)
Inductive Filter : Type :=
| FAll                                   (* {} *)
| FAnd (a b : Filter)                    (* fields side by side *)
| FOr (a b : Filter)                     (* $or: [a, b] *)
| FStatus (s : EmbeddingStatus)          (* embeddingStatus: s *)
| FStatusIn (l : list EmbeddingStatus)   (* embeddingStatus: { $in: l } *)
| FAttemptsLt (n : nat)                  (* embeddingAttempts: { $lt: n } *)
| FLastAttemptExists (b : bool)          (* lastEmbeddingAttempt: { $exists: b } *)
| FLastAttemptLt (t : Millis)            (* lastEmbeddingAttempt: { $lt: t } *)
| FIsEmbedded (b : bool)                 (* isEmbedded: b *)
| FUser (u : ObjectId)                   (* user: u *)
| FIdIn (ids : list ObjectId)            (* _id: { $in: ids } *)
| FUploadDateGte (t : Millis)            (* uploadDate: { $gte: t } *)
| FUploadDateLte (t : Millis)            (* uploadDate: { $lte: t } *)
| FTitleRegex (pat : string)             (* title: { $regex, $options: 'i' } *)
| FOriginalNameRegex (pat : string).     (* originalName: { $regex, ... } *)

Section Matching.

(** The regular-expression engine of the database (case-insensitive
    search of a pattern in a subject) is not part of the repository. *)
Variable regex_i : string -> string -> bool.

Fixpoint matches (f : Filter) (r : Image) : bool :=
  match f with
  | FAll => true
  | FAnd a b => matches a r && matches b r
  | FOr a b => matches a r || matches b r
  | FStatus s => EmbeddingStatus_eqb (embeddingStatus r) s
  | FStatusIn l => existsb (EmbeddingStatus_eqb (embeddingStatus r)) l
  | FAttemptsLt n => Nat.ltb (embeddingAttempts r) n
  | FLastAttemptExists b =>
      match lastEmbeddingAttempt r with
      | Some _ => b
      | None => negb b
      end
  | FLastAttemptLt t =>
      match lastEmbeddingAttempt r with
      | Some t' => Z.ltb t' t
      | None => false
      end
  | FIsEmbedded b => Bool.eqb (isEmbedded r) b
  | FUser u => Nat.eqb (user r) u
  | FIdIn ids => existsb (Nat.eqb (_id r)) ids
  | FUploadDateGte t => Z.leb t (uploadDate r)
  | FUploadDateLte t => Z.leb (uploadDate r) t
  | FTitleRegex pat => regex_i pat (title r)
  | FOriginalNameRegex pat => regex_i pat (originalName r)
  end.

End Matching.

(** ** Stable sort, descending on an integer key

    [Array.prototype.sort] is stable; with the comparator
    [(a, b) => key(b) - key(a)] it is this insertion sort: an element moves
    behind exactly those with a strictly larger key. *)
Section SortDesc.

Variable A : Type.
Variable key : A -> Z.

Fixpoint insert_desc (x : A) (l : list A) : list A :=
  match l with
  | [] => [x]
  | y :: rest =>
      if Z.ltb (key x) (key y) then y :: insert_desc x rest
      else x :: l
  end.

Definition sort_desc (l : list A) : list A :=
  fold_right insert_desc [] l.

End SortDesc.

(* ================================================================== *)
(** * 2. The services and the world                                    *)
(* ================================================================== *)

(** ** Qdrant *)

(** [payload: { imageId, userId, filename }]; [imageId] is [null] until
    the Mongo document exists. *)
Record Payload : Type := mkPayload {
  imageId : option ObjectId;
  userId : ObjectId;
  payload_filename : string
}.

Record Point : Type := mkPoint {
  point_id : Uuid;
  vector : Vector;
  payload : Payload
}.

(** One entry of a search result: [{ score, payload }]. *)
Record Neighbor : Type := mkNeighbor {
  hit_payload : Payload;
  score : Z
}.

(** [upsert]: the point replaces the one stored under the same id, or is
    added. *)
Fixpoint upsert_point (p : Point) (l : list Point) : list Point :=
  match l with
  | [] => [p]
  | q :: rest =>
      if String.eqb (point_id q) (point_id p) then p :: rest
      else q :: upsert_point p rest
  end.

(** [setPayload] with [payload: { imageId }] merges that key into the
    payload of the point. *)
Definition set_payload_imageId (id : Uuid) (img : ObjectId) (l : list Point)
  : list Point :=
  map (fun q =>
         if String.eqb (point_id q) id
         then mkPoint (point_id q) (vector q)
                (mkPayload (Some img) (userId (payload q))
                   (payload_filename (payload q)))
         else q) l.

Definition delete_point (id : Uuid) (l : list Point) : list Point :=
  filter (fun q => negb (String.eqb (point_id q) id)) l.

(** ** Collections (models/Collection.js), as far as [deleteImage] goes *)
Record Collection : Type := mkCollection {
  coll_id : ObjectId;
  coll_images : list ObjectId
}.

(** [Collection.updateMany({ images: id }, { $pull: { images: id } })]. *)
Definition pull_image (id : ObjectId) (l : list Collection) : list Collection :=
  map (fun c =>
         mkCollection (coll_id c)
           (filter (fun i => negb (Nat.eqb i id)) (coll_images c))) l.

(** ** Module-level variables and synchronous runtime state *)

(** Library functions the controller calls synchronously: the uuid source
    ([uuidv4_nth n] is the [n]-th uuid it hands out) and Node's [path]. *)
Record Lib : Type := mkLib {
  uuidv4_nth : nat -> Uuid;
  path_extname : string -> string;
  path_basename : string -> string -> string
}.

Record Globals : Type := mkGlobals {
  isProcessing : bool;        (* embeddingProcessor.js: let isProcessing *)
  qdrantClient : bool;        (* qdrant.js: qdrantClient is not null *)
  isQdrantAvailable : bool;   (* qdrant.js *)
  reconnectTimeout : bool;    (* qdrant.js: a reconnect timer is armed *)
  isAIModelAvailable : bool;  (* aiService.js *)
  visionModel : bool;         (* aiService.js: loaded, i.e. not null *)
  textModel : bool;
  processor : bool;
  tokenizer : bool;
  isMongoConnected : bool;    (* database.js, with readyState === 1 *)
  clock : Millis;             (* Date.now() *)
  uuidCount : nat;            (* uuids drawn so far *)
  pendingTriggers : nat;      (* setImmediate callbacks not yet run *)
  settles_first : nat -> nat; (* the event loop: of [k] promises that
                                 reject, the one that does so first *)
  lib : Lib
}.

Definition set_isProcessing (b : bool) (g : Globals) : Globals :=
  mkGlobals b (qdrantClient g) (isQdrantAvailable g) (reconnectTimeout g)
    (isAIModelAvailable g) (visionModel g) (textModel g) (processor g)
    (tokenizer g) (isMongoConnected g) (clock g) (uuidCount g)
    (pendingTriggers g) (settles_first g) (lib g).

Definition set_isQdrantAvailable (b : bool) (g : Globals) : Globals :=
  mkGlobals (isProcessing g) (qdrantClient g) b (reconnectTimeout g)
    (isAIModelAvailable g) (visionModel g) (textModel g) (processor g)
    (tokenizer g) (isMongoConnected g) (clock g) (uuidCount g)
    (pendingTriggers g) (settles_first g) (lib g).

(** [reconnectTimeout = setTimeout(...)], after [clearTimeout] of the timer
    that was armed before: one reconnect timer is armed. *)
Definition arm_reconnect (g : Globals) : Globals :=
  mkGlobals (isProcessing g) (qdrantClient g) (isQdrantAvailable g) true
    (isAIModelAvailable g) (visionModel g) (textModel g) (processor g)
    (tokenizer g) (isMongoConnected g) (clock g) (uuidCount g)
    (pendingTriggers g) (settles_first g) (lib g).

Definition bump_uuidCount (g : Globals) : Globals :=
  mkGlobals (isProcessing g) (qdrantClient g) (isQdrantAvailable g)
    (reconnectTimeout g) (isAIModelAvailable g) (visionModel g) (textModel g)
    (processor g) (tokenizer g) (isMongoConnected g) (clock g)
    (S (uuidCount g)) (pendingTriggers g) (settles_first g) (lib g).

Definition bump_pendingTriggers (g : Globals) : Globals :=
  mkGlobals (isProcessing g) (qdrantClient g) (isQdrantAvailable g)
    (reconnectTimeout g) (isAIModelAvailable g) (visionModel g) (textModel g)
    (processor g) (tokenizer g) (isMongoConnected g) (clock g) (uuidCount g)
    (S (pendingTriggers g)) (settles_first g) (lib g).

(** ** What lies outside the repository *)
Inductive Service : Type :=
| Mongo
| Qdrant
| Model
| Storage.

Definition Service_eqb (a b : Service) : bool :=
  match a, b with
  | Mongo, Mongo => true
  | Qdrant, Qdrant => true
  | Model, Model => true
  | Storage, Storage => true
  | _, _ => false
  end.

Record Env : Type := mkEnv {
  (** [faults s n = Some e]: the [n]-th call made to service [s] (counting
      from 0) rejects with [e]. *)
  faults : Service -> nat -> option JsError;
  image_embedding : string -> Vector;
  text_embedding : string -> Vector;
  similarity : Vector -> Vector -> Z;
  regex_i : string -> string -> bool;
  blob_url : string -> string
}.

Inductive SortSpec : Type :=
| NoSort
| CreatedAtDesc.  (* .sort({ createdAt: -1 }) *)

(** ** Awaited calls, indexed by the type of their result *)
Inductive Call : Type -> Type :=
| ImageFindByIdAndUpdate (id : ObjectId) (u : ImageUpdate) : Call unit
| ImageFind (f : Filter) (s : SortSpec) (lim : option nat) : Call (list Image)
| ImageCountDocuments (f : Filter) : Call nat
| ImageCreate (d : ImageDoc) : Call Image
| ImageFindById (id : ObjectId) : Call (option Image)
| ImageDeleteOne (id : ObjectId) : Call unit
| CollectionUpdateManyPull (id : ObjectId) : Call unit
| QdrantGetCollections : Call unit
| QdrantGetCollection : Call nat          (* its points_count *)
| QdrantUpsert (p : Point) : Call unit
| QdrantSetPayload (id : Uuid) (img : ObjectId) : Call unit
| QdrantDelete (id : Uuid) : Call unit
| QdrantSearch (v : Vector) (k : nat) : Call (list Neighbor)
| ClipImage (path : string) : Call Vector  (* RawImage.read, processor, visionModel *)
| ClipText (text : string) : Call Vector   (* tokenizer, textModel *)
| RawImageRead (path : string) : Call unit
| BlobPut (name : string) : Call string
| BlobDel (url : string) : Call unit.

Definition service_of (R : Type) (c : Call R) : Service :=
  match c with
  | ImageFindByIdAndUpdate _ _ | ImageFind _ _ _ | ImageCountDocuments _
  | ImageCreate _ | ImageFindById _ | ImageDeleteOne _
  | CollectionUpdateManyPull _ => Mongo
  | QdrantGetCollections | QdrantGetCollection | QdrantUpsert _
  | QdrantSetPayload _ _ | QdrantDelete _ | QdrantSearch _ _ => Qdrant
  | ClipImage _ | ClipText _ => Model
  | RawImageRead _ | BlobPut _ | BlobDel _ => Storage
  end.

Inductive Event : Type :=
| Called (R : Type) (c : Call R).

Record World : Type := mkWorld {
  globals : Globals;
  env : Env;
  images : list Image;            (* the Image collection, natural order *)
  collections : list Collection;
  points : list Point;            (* the Qdrant collection *)
  nextObjectId : ObjectId;
  calls : Service -> nat;         (* calls made so far, per service *)
  trace : list Event              (* all of them, oldest first *)
}.

Definition set_globals (g : Globals) (w : World) : World :=
  mkWorld g (env w) (images w) (collections w) (points w)
    (nextObjectId w) (calls w) (trace w).

Definition set_images (l : list Image) (w : World) : World :=
  mkWorld (globals w) (env w) l (collections w) (points w)
    (nextObjectId w) (calls w) (trace w).

Definition set_collections (l : list Collection) (w : World) : World :=
  mkWorld (globals w) (env w) (images w) l (points w)
    (nextObjectId w) (calls w) (trace w).

Definition set_points (l : list Point) (w : World) : World :=
  mkWorld (globals w) (env w) (images w) (collections w) l
    (nextObjectId w) (calls w) (trace w).

Definition count_call (s : Service) (n : Service -> nat) : Service -> nat :=
  fun s' => if Service_eqb s s' then S (n s') else n s'.

Definition record_call (R : Type) (c : Call R) (w : World) : World :=
  mkWorld (globals w) (env w) (images w) (collections w) (points w)
    (nextObjectId w) (count_call (service_of c) (calls w))
    (trace w ++ [Called c]).

Definition apply_sort (s : SortSpec) (l : list Image) : list Image :=
  match s with
  | NoSort => l
  | CreatedAtDesc => sort_desc createdAt l
  end.

(** [.limit(n)]: the first [n] documents; a limit of 0 is no limit. *)
Definition apply_limit (A : Type) (lim : option nat) (l : list A) : list A :=
  match lim with
  | Some 0 => l
  | Some n => firstn n l
  | None => l
  end.

(** The index as a similarity search: the [k] best points by score. *)
Definition nearest (e : Env) (v : Vector) (k : nat) (l : list Point)
  : list Neighbor :=
  firstn k
    (sort_desc score
       (map (fun p => mkNeighbor (payload p) (similarity e v (vector p))) l)).

(** What a call does when the service answers. *)
Definition effect (R : Type) (c : Call R) (w : World) : R * World :=
  match c in Call T return T * World with
  | ImageFindByIdAndUpdate id u =>
      (tt, set_images (update_by_id id u (images w)) w)
  | ImageFind f s lim =>
      (apply_limit lim
         (apply_sort s (filter (matches (regex_i (env w)) f) (images w))), w)
  | ImageCountDocuments f =>
      (length (filter (matches (regex_i (env w)) f) (images w)), w)
  | ImageCreate d =>
      let r := new_image (nextObjectId w) (clock (globals w)) d in
      (r, mkWorld (globals w) (env w) (images w ++ [r]) (collections w)
            (points w) (S (nextObjectId w)) (calls w) (trace w))
  | ImageFindById id => (find_by_id id (images w), w)
  | ImageDeleteOne id => (tt, set_images (delete_by_id id (images w)) w)
  | CollectionUpdateManyPull id =>
      (tt, set_collections (pull_image id (collections w)) w)
  | QdrantGetCollections => (tt, w)
  | QdrantGetCollection => (length (points w), w)
  | QdrantUpsert p => (tt, set_points (upsert_point p (points w)) w)
  | QdrantSetPayload id img =>
      (tt, set_points (set_payload_imageId id img (points w)) w)
  | QdrantDelete id => (tt, set_points (delete_point id (points w)) w)
  | QdrantSearch v k => (nearest (env w) v k (points w), w)
  | ClipImage path => (image_embedding (env w) path, w)
  | ClipText text => (text_embedding (env w) text, w)
  | RawImageRead _ => (tt, w)
  | BlobPut name => (blob_url (env w) name, w)
  | BlobDel _ => (tt, w)
  end.

(** A call is recorded, then either rejects (the fault oracle) or takes
    effect. *)
Definition perform (R : Type) (c : Call R) (w : World)
  : (JsError + R) * World :=
  let w1 := record_call c w in
  match faults (env w) (service_of c) (calls w (service_of c)) with
  | Some e => (inl e, w1)
  | None => let (r, w2) := effect c w1 in (inr r, w2)
  end.

(* ================================================================== *)
(** * 3. Asynchronous programs                                         *)
(* ================================================================== *)

Inductive Prog (A : Type) : Type :=
| Ret (a : A)                                       (* return a *)
| Throw (e : JsError)                               (* throw e *)
| Await (R : Type) (c : Call R) (k : JsError + R -> Prog A)
| GetG (k : Globals -> Prog A)                      (* read the variables *)
| ModG (f : Globals -> Globals) (k : Prog A).       (* assign to them *)

Arguments Ret {A} a.
Arguments Throw {A} e.
Arguments Await {A R} c k.
Arguments GetG {A} k.
Arguments ModG {A} f k.

Fixpoint bind (A B : Type) (p : Prog A) (f : A -> Prog B) : Prog B :=
  match p with
  | Ret a => f a
  | Throw e => Throw e
  | Await c k => Await c (fun r => bind (k r) f)
  | GetG k => GetG (fun g => bind (k g) f)
  | ModG m k => ModG m (bind k f)
  end.

Declare Scope prog_scope.
Delimit Scope prog_scope with prog.
Notation "x <- p ;; q" := (bind p (fun x => q))
  (at level 100, p at next level, right associativity) : prog_scope.
Notation "p ;; q" := (bind p (fun _ => q))
  (at level 100, right associativity) : prog_scope.
Local Open Scope prog_scope.

(** [await c]: a rejection becomes a [throw] at the await. *)
Definition await (R : Type) (c : Call R) : Prog R :=
  Await c (fun r => match r with
                    | inl e => Throw e
                    | inr v => Ret v
                    end).

Definition get : Prog Globals := GetG (fun g => Ret g).
Definition modify (f : Globals -> Globals) : Prog unit := ModG f (Ret tt).

(** [try { p } catch (error) { h error }]. *)
Fixpoint try_catch (A : Type) (p : Prog A) (h : JsError -> Prog A) : Prog A :=
  match p with
  | Ret a => Ret a
  | Throw e => h e
  | Await c k => Await c (fun r => try_catch (k r) h)
  | GetG k => GetG (fun g => try_catch (k g) h)
  | ModG m k => ModG m (try_catch k h)
  end.

(** [try { p } finally { f }]. *)
Definition try_finally (A : Type) (p : Prog A) (f : Prog unit) : Prog A :=
  r <- try_catch (a <- p ;; Ret (inr a)) (fun e => Ret (inl e)) ;;
  f ;;
  match r with
  | inl e => Throw e
  | inr a => Ret a
  end.

(** ** Execution

    While a call is awaited the event loop runs whatever else is ready;
    [others n] is what that does to the world while the [n]-th call of the
    trace is pending.  Between awaits a program runs without
    interruption. *)
Fixpoint run_among (others : nat -> World -> World) (A : Type) (p : Prog A)
  (w : World) : (JsError + A) * World :=
  match p with
  | Ret a => (inr a, w)
  | Throw e => (inl e, w)
  | Await c k =>
      let (r, w') := perform c w in
      run_among others (k r) (others (length (trace w)) w')
  | GetG k => run_among others (k (globals w)) w
  | ModG m k => run_among others k (set_globals (m (globals w)) w)
  end.

(** Nothing else is ready. *)
Definition idle : nat -> World -> World := fun _ w => w.

(** Sequential execution: the program alone. *)
Definition run (A : Type) (p : Prog A) (w : World) : (JsError + A) * World :=
  run_among idle p w.

(* ================================================================== *)
(** * 4. config/qdrant.js and services/aiService.js                    *)
(* ================================================================== *)

Definition getQdrantClient : Prog bool :=
  g <- get ;; Ret (qdrantClient g).

Definition isQdrantConnected : Prog bool :=
  g <- get ;; Ret (isQdrantAvailable g).

(** [scheduleReconnect]: the timer armed before is cleared and a new one
    is armed.  Its callback, [initQdrant], runs thirty seconds later,
    outside the programs modelled here. *)
Definition scheduleReconnect : Prog unit := modify arm_reconnect.

(** [checkQdrantHealth]: [false] without a client; otherwise one
    [getCollections] round trip.  When it is answered the index is flagged
    available; when it is rejected and the index was flagged available, the
    flag is cleared and a reconnect is scheduled. *)
Definition checkQdrantHealth : Prog bool :=
  g <- get ;;
  if negb (qdrantClient g) then Ret false
  else
    try_catch
      (await QdrantGetCollections ;;
       g' <- get ;;
       (if negb (isQdrantAvailable g')
        then modify (set_isQdrantAvailable true)
        else Ret tt) ;;
       Ret true)
      (fun _ =>
         g' <- get ;;
         (if isQdrantAvailable g' then
            modify (set_isQdrantAvailable false) ;;
            scheduleReconnect
          else Ret tt) ;;
         Ret false).

(** [isAIModelAvailable && visionModel && textModel && processor &&
    tokenizer]. *)
Definition model_ready (g : Globals) : bool :=
  isAIModelAvailable g && visionModel g && textModel g
  && processor g && tokenizer g.

Definition isAIModelReady : Prog bool :=
  g <- get ;; Ret (model_ready g).

Definition generateImageEmbedding (imagePath : string) : Prog Vector :=
  try_catch
    (g <- get ;;
     if negb (visionModel g) || negb (processor g)
     then Throw (new_Error "AI model not initialized")
     else await (ClipImage imagePath))
    (fun error => Throw error).

Definition generateTextEmbedding (text : string) : Prog Vector :=
  try_catch
    (g <- get ;;
     if negb (textModel g) || negb (tokenizer g)
     then Throw (new_Error "AI model not initialized")
     else await (ClipText text))
    (fun error => Throw error).

Definition getImageMetadata (imagePath : string) : Prog unit :=
  try_catch
    (await (RawImageRead imagePath))
    (fun error =>
       Throw (new_Error ("Failed to get image metadata: " ++ message error))).

(* ================================================================== *)
(** * 5. services/embeddingProcessor.js                                *)
(* ================================================================== *)

Definition MAX_EMBEDDING_ATTEMPTS : nat := 5.
Definition RETRY_DELAY : Z := 60000.

Definition now : Prog Millis :=
  g <- get ;; Ret (clock g).

(** Process a single image for embedding. *)
Definition processImageEmbedding (image : Image) : Prog bool :=
  try_catch
    (t <- now ;;
     await (ImageFindByIdAndUpdate (_id image) (SetProcessing t)) ;;
     embedding <- generateImageEmbedding (filePath image) ;;
     connected <- isQdrantConnected ;;
     (if connected then
        checkQdrantHealth ;;
        qdrant <- getQdrantClient ;;
        if qdrant then
          await (QdrantUpsert
                   (mkPoint (qdrantId image) embedding
                      (mkPayload (Some (_id image)) (user image)
                         (filename image))))
        else Ret tt
      else Ret tt) ;;
     await (ImageFindByIdAndUpdate (_id image) SetCompleted) ;;
     Ret true)
    (fun error =>
       await (ImageFindByIdAndUpdate (_id image)
                (SetFailed (message error))) ;;
       Ret false).

(** The query of [processPendingEmbeddings]: images that need embedding. *)
Definition needsEmbedding (t : Millis) : Filter :=
  FOr (FStatus pending)
      (FAnd (FStatus failed)
         (FAnd (FAttemptsLt MAX_EMBEDDING_ATTEMPTS)
            (FOr (FLastAttemptExists false)
                 (FLastAttemptLt (t - RETRY_DELAY)%Z)))).

(** The query behind the "still need embedding" log line. *)
Definition remaining : Filter :=
  FAnd (FStatusIn [pending; failed]) (FAttemptsLt MAX_EMBEDDING_ATTEMPTS).

(** [for (const image of imagesToProcess)], with its two counters. *)
Fixpoint processBatch (imagesToProcess : list Image)
  (successCount failCount : nat) : Prog (nat * nat) :=
  match imagesToProcess with
  | [] => Ret (successCount, failCount)
  | image :: rest =>
      success <- processImageEmbedding image ;;
      if success then processBatch rest (S successCount) failCount
      else processBatch rest successCount (S failCount)
  end.

(** The [try] block of [processPendingEmbeddings] with its [catch]: what
    a pass does between setting and clearing the guard. *)
Definition pass_body : Prog unit :=
  try_catch
    (t <- now ;;
     imagesToProcess <-
       await (ImageFind (needsEmbedding t) NoSort (Some 10)) ;;
     if Nat.eqb (length imagesToProcess) 0 then
       modify (set_isProcessing false) ;;
       Ret tt
     else
       processBatch imagesToProcess 0 0 ;;
       await (ImageCountDocuments remaining) ;;
       Ret tt)
    (fun _ => Ret tt).

(** Process all pending embeddings. *)
Definition processPendingEmbeddings : Prog unit :=
  g <- get ;;
  if isProcessing g then Ret tt
  else
    ready <- isAIModelReady ;;
    if negb ready then Ret tt
    else
      modify (set_isProcessing true) ;;
      try_finally pass_body (modify (set_isProcessing false)).

Record EmbeddingStats : Type := mkStats {
  stats_total : nat;
  stats_embedded : nat;
  stats_pending : nat;
  stats_processing : nat;
  stats_failed : nat;
  stats_percentage : nat
}.

(** ** Numbers

    A JavaScript number is an IEEE 754 double: 53 bits of precision,
    rounding to nearest, ties to even. *)
Definition double : Type := SpecFloat.spec_float.

Definition double_of_nat (n : nat) : double :=
  SpecFloat.binary_normalize 53 1024 (Z.of_nat n) 0 false.

Definition double_div : double -> double -> double := SpecFloat.SFdiv 53 1024.

Definition double_mul : double -> double -> double := SpecFloat.SFmul 53 1024.

(** [Math.round(x)] for a finite [x]: the integer nearest to [x], halves
    upwards. *)
Definition Math_round (x : double) : Z :=
  match x with
  | SpecFloat.S754_finite s m e =>
      let v := if s then Z.neg m else Z.pos m in
      if Z.leb 0 e then (v * 2 ^ e)%Z
      else Z.shiftr (2 * v + 2 ^ (- e)) (- e + 1)
  | _ => 0%Z
  end.

(** [total > 0 ? Math.round((embedded / total) * 100) : 0]. *)
Definition percentage (embedded total : nat) : nat :=
  if Nat.ltb 0 total then
    Z.to_nat
      (Math_round
         (double_mul (double_div (double_of_nat embedded)
                        (double_of_nat total))
            (double_of_nat 100)))
  else 0.

(** ** Promises *)

(** A call whose outcome is kept, answer or rejection. *)
Definition settle (R : Type) (c : Call R) : Prog (JsError + R) :=
  Await c (fun r => Ret r).

Fixpoint settle_all (R : Type) (cs : list (Call R))
  : Prog (list (JsError + R)) :=
  match cs with
  | [] => Ret []
  | c :: rest =>
      r <- settle c ;;
      rs <- settle_all rest ;;
      Ret (r :: rs)
  end.

Fixpoint rejections (R : Type) (rs : list (JsError + R)) : list JsError :=
  match rs with
  | [] => []
  | inl e :: rest => e :: rejections rest
  | inr _ :: rest => rejections rest
  end.

Fixpoint answers_of (R : Type) (rs : list (JsError + R)) : list R :=
  match rs with
  | [] => []
  | inl _ :: rest => answers_of rest
  | inr v :: rest => v :: answers_of rest
  end.

(** [await Promise.all(cs)]: every call of the array is made, in its
    order; the answers when all are answered, and otherwise the rejection
    that came first, which is for the event loop to say. *)
Definition Promise_all (R : Type) (cs : list (Call R)) : Prog (list R) :=
  rs <- settle_all cs ;;
  match rejections rs with
  | [] => Ret (answers_of rs)
  | e :: es =>
      g <- get ;;
      Throw (nth (settles_first g (S (length es)) mod S (length es))
               (e :: es) e)
  end.

(** Get embedding statistics.  [nth i counts 0] is the [i]-th variable of
    the destructuring [const [total, embedded, ...] = counts]. *)
Definition getEmbeddingStats (userId : option ObjectId)
  : Prog EmbeddingStats :=
  let query := match userId with
               | Some u => FUser u
               | None => FAll
               end in
  counts <-
    Promise_all
      [ImageCountDocuments query;
       ImageCountDocuments (FAnd query (FIsEmbedded true));
       ImageCountDocuments (FAnd query (FStatus pending));
       ImageCountDocuments (FAnd query (FStatus processing));
       ImageCountDocuments
         (FAnd query
            (FAnd (FStatus failed) (FAttemptsLt MAX_EMBEDDING_ATTEMPTS)))] ;;
  let total := nth 0 counts 0 in
  let embedded := nth 1 counts 0 in
  let pending_n := nth 2 counts 0 in
  let processing_n := nth 3 counts 0 in
  let failed_n := nth 4 counts 0 in
  Ret (mkStats total embedded pending_n processing_n failed_n
         (percentage embedded total)).

(* ================================================================== *)
(** * 6. controllers/imageController.js                                *)
(* ================================================================== *)

(** ** Requests and responses *)

(** A file as multer delivers it (the buffer itself is not inspected). *)
Record File : Type := mkFile {
  originalname : string
}.

(** The JSON bodies the handlers send. *)
Inductive Json : Type :=
| JFailure (msg : string) (error : option string) (searchType : option string)
    (* { success: false, message, error, searchType } *)
| JUploadedMany (imgs : list Image) (uploadedCount totalCount : nat)
    (errors : option (list (string * string)))
    (* { success: true, images, uploadedCount, totalCount, errors } *)
| JUploaded (img : Image)
    (* { success: true, image } *)
| JDeleted (msg : string)
    (* { success: true, message } *)
| JSearch (query : string) (imgs : list Image) (count : nat)
    (searchType : string) (unembeddedCount : option nat)
    (warning : option string).
    (* { success: true, query, images, count, searchType, ... } *)

Record Response : Type := mkResponse {
  code : nat;   (* res.status(..), 200 when the handler calls res.json alone *)
  body : Json
}.

Definition success (r : Response) : bool :=
  match body r with
  | JFailure _ _ _ => false
  | _ => true
  end.

Definition searchType_of (r : Response) : option string :=
  match body r with
  | JFailure _ _ st => st
  | JSearch _ _ _ st _ _ => Some st
  | _ => None
  end.

(** ** Small pieces of JavaScript *)

(** [haystack.includes(needle)]. *)
Fixpoint includes (haystack needle : string) : bool :=
  if String.prefix needle haystack then true
  else match haystack with
       | EmptyString => false
       | String _ rest => includes rest needle
       end.

(** Truthiness of a string that may be [undefined]. *)
Definition truthy (o : option string) : bool :=
  match o with
  | Some s => negb (String.eqb s EmptyString)
  | None => false
  end.

(** [!query || !query.trim()]. *)
Definition no_query (query : option string) : bool :=
  match query with
  | Some q => negb (truthy (Some q)) || negb (truthy (Some (trim q)))
  | None => true
  end.

Definition uuidv4 : Prog Uuid :=
  g <- get ;;
  modify bump_uuidCount ;;
  Ret (uuidv4_nth (lib g) (uuidCount g)).

Definition isMongoDBConnected : Prog bool :=
  g <- get ;; Ret (isMongoConnected g).

(** ** uploadMultipleImages *)

Record UploadManyRequest : Type := mkUploadMany {
  many_user : ObjectId;              (* req.user._id *)
  many_files : option (list File)    (* req.files *)
}.

(** The body of [for (const file of req.files) { try { ... } }]: store the
    file, try the embedding at once, create the document, complete the
    Qdrant payload. *)
Definition uploadFile (u : ObjectId) (aiModelAvailable : bool) (file : File)
  : Prog Image :=
  g <- get ;;
  let fileExt := path_extname (lib g) (originalname file) in
  name_uuid <- uuidv4 ;;
  let fname := (name_uuid ++ fileExt)%string in
  fpath <- await (BlobPut fname) ;;
  let fullPath := fpath in
  getImageMetadata fullPath ;;
  qid <- uuidv4 ;;
  connected <- isQdrantConnected ;;
  outcome <-
    (if aiModelAvailable && connected then
       try_catch
         (checkQdrantHealth ;;
          embedding <- generateImageEmbedding fullPath ;;
          qdrant <- getQdrantClient ;;
          if qdrant then
            await (QdrantUpsert
                     (mkPoint qid embedding (mkPayload None u fname))) ;;
            Ret (completed, true)
          else Ret (pending, false))
         (fun _ => Ret (pending, false))
     else Ret (pending, false)) ;;
  let embeddingStatus' := fst outcome in
  let isEmbedded' := snd outcome in
  let titleWithoutExt :=
    path_basename (lib g) (originalname file) fileExt in
  image <-
    await (ImageCreate
             (mkImageDoc fname (originalname file) fpath titleWithoutExt
                qid u false (Some isEmbedded') (Some embeddingStatus')
                (Some (if isEmbedded' then 1 else 0)))) ;;
  connected' <- isQdrantConnected ;;
  (if isEmbedded' && connected' then
     try_catch
       (qdrant <- getQdrantClient ;;
        if qdrant then await (QdrantSetPayload qid (_id image))
        else Ret tt)
       (fun _ => Ret tt)
   else Ret tt) ;;
  Ret image.

Fixpoint uploadFiles (u : ObjectId) (aiModelAvailable : bool)
  (files : list File) (uploadedImages : list Image)
  (errors : list (string * string))
  : Prog (list Image * list (string * string)) :=
  match files with
  | [] => Ret (uploadedImages, errors)
  | file :: rest =>
      r <- try_catch
             (image <- uploadFile u aiModelAvailable file ;;
              Ret (inr image))
             (fun error => Ret (inl (originalname file, message error))) ;;
      match r with
      | inr image =>
          uploadFiles u aiModelAvailable rest (uploadedImages ++ [image])
            errors
      | inl e =>
          uploadFiles u aiModelAvailable rest uploadedImages (errors ++ [e])
      end
  end.

Definition storage_or_500 (what : string) (error : JsError) : Response :=
  if includes (message error) "BLOB_READ_WRITE_TOKEN" then
    mkResponse 503
      (JFailure "Storage service unavailable"
         (Some "Vercel Blob Storage is not configured. Image uploads require cloud storage in production.")
         None)
  else
    mkResponse 500 (JFailure what (Some (message error)) None).

Definition uploadMultipleImages (req : UploadManyRequest) : Prog Response :=
  try_catch
    (mongo <- isMongoDBConnected ;;
     if negb mongo then
       Ret (mkResponse 503
              (JFailure
                 "Database is currently unavailable. Please try again later."
                 None None))
     else
       match many_files req with
       | None | Some [] =>
           Ret (mkResponse 400
                  (JFailure "Please upload at least one image" None None))
       | Some files =>
           aiModelAvailable <- isAIModelReady ;;
           r <- uploadFiles (many_user req) aiModelAvailable files [] [] ;;
           let uploadedImages := fst r in
           let errors := snd r in
           (* setImmediate(() => processPendingEmbeddings()) *)
           modify bump_pendingTriggers ;;
           Ret (mkResponse 201
                  (JUploadedMany uploadedImages (length uploadedImages)
                     (length files)
                     (if Nat.ltb 0 (length errors) then Some errors
                      else None)))
       end)
    (fun error => Ret (storage_or_500 "Error uploading images" error)).

(** ** uploadImage *)

Record UploadRequest : Type := mkUpload {
  up_user : ObjectId;            (* req.user._id *)
  up_file : option File;         (* req.file *)
  up_title : option string;      (* req.body.title *)
  up_isPublic : option string    (* req.body.isPublic *)
}.

Definition uploadImage (req : UploadRequest) : Prog Response :=
  try_catch
    (mongo <- isMongoDBConnected ;;
     if negb mongo then
       Ret (mkResponse 503
              (JFailure
                 "Database is currently unavailable. Please try again later."
                 None None))
     else
       ready <- isAIModelReady ;;
       if negb ready then
         Ret (mkResponse 503
                (JFailure
                   "AI model is currently unavailable. Image uploads are temporarily disabled."
                   None None))
       else
         match up_file req with
         | None =>
             Ret (mkResponse 400 (JFailure "Please upload an image" None None))
         | Some file =>
             g <- get ;;
             let fileExt := path_extname (lib g) (originalname file) in
             name_uuid <- uuidv4 ;;
             let fname := (name_uuid ++ fileExt)%string in
             fpath <- await (BlobPut fname) ;;
             let fullPath := fpath in
             getImageMetadata fullPath ;;
             qid <- uuidv4 ;;
             connected <- isQdrantConnected ;;
             (if connected then
                try_catch
                  (checkQdrantHealth ;;
                   embedding <- generateImageEmbedding fullPath ;;
                   qdrant <- getQdrantClient ;;
                   if qdrant then
                     await (QdrantUpsert
                              (mkPoint qid embedding
                                 (mkPayload None (up_user req) fname)))
                   else Ret tt)
                  (fun _ => Ret tt)
              else Ret tt) ;;
             image <-
               await (ImageCreate
                        (mkImageDoc fname (originalname file) fpath
                           (if truthy (up_title req)
                            then or_default (up_title req) EmptyString
                            else originalname file)
                           qid (up_user req)
                           (match up_isPublic req with
                            | Some s => String.eqb s "true"
                            | None => false
                            end)
                           None None None)) ;;
             connected' <- isQdrantConnected ;;
             (if connected' then
                try_catch
                  (qdrant <- getQdrantClient ;;
                   if qdrant then await (QdrantSetPayload qid (_id image))
                   else Ret tt)
                  (fun _ => Ret tt)
              else Ret tt) ;;
             Ret (mkResponse 201 (JUploaded image))
         end)
    (fun error => Ret (storage_or_500 "Error uploading image" error)).

(** ** deleteImage *)

Record DeleteRequest : Type := mkDelete {
  del_user : ObjectId;   (* req.user._id *)
  del_id : ObjectId      (* req.params.id *)
}.

Definition deleteImage (req : DeleteRequest) : Prog Response :=
  try_catch
    (found <- await (ImageFindById (del_id req)) ;;
     match found with
     | None => Ret (mkResponse 404 (JFailure "Image not found" None None))
     | Some image =>
         if negb (Nat.eqb (user image) (del_user req)) then
           Ret (mkResponse 403
                  (JFailure "Not authorized to delete this image" None None))
         else
           (* Delete from blob storage; continue even if that fails *)
           try_catch (await (BlobDel (filePath image))) (fun _ => Ret tt) ;;
           (* Delete from Qdrant (if available) *)
           connected <- isQdrantConnected ;;
           (if connected && truthy (Some (qdrantId image)) then
              try_catch
                (qdrant <- getQdrantClient ;;
                 if qdrant then await (QdrantDelete (qdrantId image))
                 else Ret tt)
                (fun _ => Ret tt)
            else Ret tt) ;;
           (* Remove from collections *)
           await (CollectionUpdateManyPull (_id image)) ;;
           (* Delete from MongoDB *)
           await (ImageDeleteOne (_id image)) ;;
           Ret (mkResponse 200 (JDeleted "Image deleted successfully"))
     end)
    (fun error =>
       Ret (mkResponse 500
              (JFailure "Error deleting image" (Some (message error)) None))).

(** ** searchImages *)

(** The body of a search request.  The limit is the natural number
    [parseInt(limit)] gives; a limit that parses to a negative number or to
    [NaN] is not a request of this model.  Dates are epoch milliseconds. *)
Record SearchRequest : Type := mkSearch {
  s_user : ObjectId;             (* req.user._id *)
  s_query : option string;       (* req.body.query *)
  s_limit : option nat;          (* parseInt of req.body.limit, if given *)
  s_startDate : option Millis;   (* new Date(startDate), if given *)
  s_endDate : option Millis;     (* new Date(endDate), if given *)
  s_name : option string         (* req.body.name *)
}.

(** [const { limit = 20 } = req.body]. *)
Definition limit_of (req : SearchRequest) : nat := or_default (s_limit req) 20.

(** [end.setHours(23, 59, 59, 999)], the server's time zone being UTC. *)
Definition end_of_day (t : Millis) : Millis :=
  (t - t mod 86400000 + 86399999)%Z.

Definition baseFilter (req : SearchRequest) : Filter :=
  FAnd (FUser (s_user req))
    (FAnd
       (match s_startDate req, s_endDate req with
        | None, None => FAll
        | sd, ed =>
            FAnd (match sd with
                  | Some t => FUploadDateGte t
                  | None => FAll
                  end)
                 (match ed with
                  | Some t => FUploadDateLte (end_of_day t)
                  | None => FAll
                  end)
        end)
       (if truthy (s_name req) then
          FOr (FTitleRegex (or_default (s_name req) EmptyString))
              (FOriginalNameRegex (or_default (s_name req) EmptyString))
        else FAll)).

(** [searchResults.map(result => result.payload.imageId).filter(id => id)]. *)
Fixpoint payload_imageIds (searchResults : list Neighbor) : list ObjectId :=
  match searchResults with
  | [] => []
  | r :: rest =>
      match imageId (hit_payload r) with
      | Some i => i :: payload_imageIds rest
      | None => payload_imageIds rest
      end
  end.

(** [searchResults.find(r => r.payload.imageId === a._id.toString())]. *)
Definition find_hit (searchResults : list Neighbor) (a : Image)
  : option Neighbor :=
  find (fun r => match imageId (hit_payload r) with
                 | Some i => Nat.eqb i (_id a)
                 | None => false
                 end) searchResults.

(** [hit?.score || 0]. *)
Definition score_or_0 (searchResults : list Neighbor) (a : Image) : Z :=
  match find_hit searchResults a with
  | Some r => if Z.eqb (score r) 0 then 0%Z else score r
  | None => 0%Z
  end.

Definition show_nat (n : nat) : string :=
  NilZero.string_of_uint (Nat.to_uint n).

Definition unavailable : Response :=
  mkResponse 503
    (JFailure "AI search is currently unavailable"
       (Some "AI model or vector database is not ready. Please use filters to browse images.")
       (Some "unavailable")).

Definition searchImages (req : SearchRequest) : Prog Response :=
  let limit := limit_of req in
  try_catch
    (if no_query (s_query req) then
       imgs <- await (ImageFind (baseFilter req) CreatedAtDesc (Some limit)) ;;
       Ret (mkResponse 200
              (JSearch "" imgs (length imgs) "all" None None))
     else
       let query := or_default (s_query req) EmptyString in
       (* Check how many images are not yet embedded *)
       unembeddedCount <-
         await (ImageCountDocuments
                  (FAnd (FUser (s_user req)) (FIsEmbedded false))) ;;
       (* isQdrantConnected() && await checkQdrantHealth() && isAIModelReady() *)
       connected <- isQdrantConnected ;;
       healthy <- (if connected then checkQdrantHealth else Ret false) ;;
       ready <- (if connected && healthy then isAIModelReady
                 else Ret false) ;;
       let useAISearch := connected && healthy && ready in
       if useAISearch then
         try_catch
           (embedding <- generateTextEmbedding query ;;
            if Nat.eqb (length embedding) 0 then
              Throw (new_Error "Invalid embedding generated")
            else
              qdrant <- getQdrantClient ;;
              if negb qdrant then
                Throw (new_Error "Cannot read properties of null")
              else
                points_count <- await QdrantGetCollection ;;
                if Nat.eqb points_count 0 then
                  Throw (new_Error
                           "No embedded images available for AI search")
                else
                  searchResults <-
                    await (QdrantSearch embedding (limit * 3)) ;;
                  let imageIds := payload_imageIds searchResults in
                  if Nat.eqb (length imageIds) 0 then
                    Throw (new_Error "No AI search results found")
                  else
                    imgs <-
                      await (ImageFind
                               (FAnd (FIdIn imageIds) (baseFilter req))
                               NoSort None) ;;
                    let sortedImages :=
                      firstn limit
                        (sort_desc (score_or_0 searchResults) imgs) in
                    Ret (mkResponse 200
                           (JSearch query sortedImages
                              (length sortedImages) "ai"
                              (Some unembeddedCount)
                              (if Nat.ltb 0 unembeddedCount then
                                 Some (show_nat unembeddedCount
                                       ++ " image(s) not yet indexed for AI search")%string
                               else None))))
           (fun error =>
              if includes (message error) "Bad Request"
                 || match status error with
                    | Some s => Z.eqb s 400
                    | None => false
                    end
              then
                Ret (mkResponse 400
                       (JFailure
                          "AI search failed. The search service may be experiencing issues."
                          (Some "Please try again later or contact support if the issue persists.")
                          (Some "ai")))
              else
                Ret (mkResponse 500
                       (JFailure
                          "AI search encountered an error. Please try again later."
                          (Some (message error))
                          (Some "ai"))))
       else Ret unavailable)
    (fun error =>
       Ret (mkResponse 500
              (JFailure "Error searching images" (Some (message error))
                 None))).

(* ================================================================== *)
(** * 7. Worlds and requests for the examples                          *)
(* ================================================================== *)

Definition no_faults : Service -> nat -> option JsError := fun _ _ => None.

(** Every call to service [s] is rejected with [e]. *)
Definition service_down (s : Service) (e : JsError)
  : Service -> nat -> option JsError :=
  fun s' _ => if Service_eqb s s' then Some e else None.

(** ** Node's [path], POSIX flavour

    [extname] and [basename] scan the path from its end, as the loops of
    the library do; the indices are those of the bytes. *)

(** [s.slice(from, to)] for indices within the string. *)
Definition slice (from to : nat) (l : list ascii) : string :=
  string_of_list_ascii (firstn (to - from) (skipn from l)).

(** The characters of a string with their indices, last first: the order
    in which the loops of [path] visit them. *)
Definition backwards (l : list ascii) : list (nat * ascii) :=
  rev (combine (seq 0 (length l)) l).

Definition is_slash (c : ascii) : bool := Ascii.eqb c "/"%char.
Definition is_dot (c : ascii) : bool := Ascii.eqb c "."%char.

Record ExtScan : Type := mkExtScan {
  startDot : option nat;
  startPart : nat;
  ext_end : option nat;
  ext_matchedSlash : bool;
  preDotState : Z;
  ext_break : bool
}.

Definition ext_step (st : ExtScan) (ic : nat * ascii) : ExtScan :=
  let (i, code) := ic in
  if ext_break st then st
  else if is_slash code then
    if negb (ext_matchedSlash st)
    then mkExtScan (startDot st) (i + 1) (ext_end st) (ext_matchedSlash st)
           (preDotState st) true
    else st
  else
    let st1 :=
      match ext_end st with
      | None => mkExtScan (startDot st) (startPart st) (Some (i + 1)) false
                  (preDotState st) false
      | Some _ => st
      end in
    if is_dot code then
      match startDot st1 with
      | None => mkExtScan (Some i) (startPart st1) (ext_end st1)
                  (ext_matchedSlash st1) (preDotState st1) false
      | Some _ => mkExtScan (startDot st1) (startPart st1) (ext_end st1)
                    (ext_matchedSlash st1) 1 false
      end
    else
      match startDot st1 with
      | Some _ => mkExtScan (startDot st1) (startPart st1) (ext_end st1)
                    (ext_matchedSlash st1) (-1) false
      | None => st1
      end.

(** [path.extname(p)] of Node, POSIX flavour. *)
Definition posix_extname (p : string) : string :=
  let l := list_ascii_of_string p in
  let st := fold_left ext_step (backwards l)
              (mkExtScan None 0 None true 0 false) in
  match startDot st, ext_end st with
  | Some sd, Some en =>
      if Z.eqb (preDotState st) 0
         || (Z.eqb (preDotState st) 1 && Nat.eqb sd (en - 1)
             && Nat.eqb sd (startPart st + 1))
      then EmptyString
      else slice sd en l
  | _, _ => EmptyString
  end.

Record BaseScan : Type := mkBaseScan {
  base_start : Z;
  base_end : Z;
  base_matchedSlash : bool;
  extIdx : Z;
  firstNonSlashEnd : Z;
  base_break : bool
}.

Definition code_at (l : list ascii) (i : Z) : ascii :=
  nth (Z.to_nat i) l zero.

Definition base_step (suffix : list ascii) (st : BaseScan) (ic : nat * ascii)
  : BaseScan :=
  let (i, code) := ic in
  if base_break st then st
  else if is_slash code then
    if negb (base_matchedSlash st)
    then mkBaseScan (Z.of_nat i + 1) (base_end st) (base_matchedSlash st)
           (extIdx st) (firstNonSlashEnd st) true
    else st
  else
    let st1 :=
      if Z.eqb (firstNonSlashEnd st) (-1)
      then mkBaseScan (base_start st) (base_end st) false (extIdx st)
             (Z.of_nat i + 1) false
      else st in
    if Z.leb 0 (extIdx st1) then
      if Ascii.eqb code (code_at suffix (extIdx st1)) then
        if Z.eqb (extIdx st1 - 1) (-1)
        then mkBaseScan (base_start st1) (Z.of_nat i) (base_matchedSlash st1)
               (-1) (firstNonSlashEnd st1) false
        else mkBaseScan (base_start st1) (base_end st1)
               (base_matchedSlash st1) (extIdx st1 - 1)
               (firstNonSlashEnd st1) false
      else mkBaseScan (base_start st1) (firstNonSlashEnd st1)
             (base_matchedSlash st1) (-1) (firstNonSlashEnd st1) false
    else st1.

Definition plain_step (st : BaseScan) (ic : nat * ascii) : BaseScan :=
  let (i, code) := ic in
  if base_break st then st
  else if is_slash code then
    if negb (base_matchedSlash st)
    then mkBaseScan (Z.of_nat i + 1) (base_end st) (base_matchedSlash st)
           (extIdx st) (firstNonSlashEnd st) true
    else st
  else if Z.eqb (base_end st) (-1)
  then mkBaseScan (base_start st) (Z.of_nat i + 1) false (extIdx st)
         (firstNonSlashEnd st) false
  else st.

(** [path.basename(p, suffix)] of Node, POSIX flavour. *)
Definition posix_basename (p suffix : string) : string :=
  let l := list_ascii_of_string p in
  let sfx := list_ascii_of_string suffix in
  if Nat.ltb 0 (length sfx) && Nat.leb (length sfx) (length l) then
    if String.eqb suffix p then EmptyString
    else
      let st := fold_left (base_step sfx) (backwards l)
                  (mkBaseScan 0 (-1) true (Z.of_nat (length sfx) - 1) (-1)
                     false) in
      let en :=
        if Z.eqb (base_start st) (base_end st) then firstNonSlashEnd st
        else if Z.eqb (base_end st) (-1) then Z.of_nat (length l)
        else base_end st in
      slice (Z.to_nat (base_start st)) (Z.to_nat en) l
  else
    let st := fold_left plain_step (backwards l)
                (mkBaseScan 0 (-1) true (-1) (-1) false) in
    if Z.eqb (base_end st) (-1) then EmptyString
    else slice (Z.to_nat (base_start st)) (Z.to_nat (base_end st)) l.

(** The uuid source counts; the path functions are Node's. *)
Definition demo_lib : Lib :=
  mkLib (fun n => ("uuid-" ++ show_nat n)%string)
        posix_extname
        posix_basename.

Definition demo_env (f : Service -> nat -> option JsError) : Env :=
  mkEnv f
    (fun _ => [1; 2; 3]%Z)
    (fun _ => [3; 2; 1]%Z)
    (fun _ v => hd 0%Z v)
    (fun _ _ => true)
    (fun name => ("https://blob/" ++ name)%string).

(** Client created, [isQdrantAvailable = qdrantUp], no reconnect armed, the
    model loaded or not, Mongo connected, the clock at [t]. *)
Definition demo_globals (qdrantUp modelUp : bool) (t : Millis) : Globals :=
  mkGlobals false true qdrantUp false modelUp modelUp modelUp modelUp modelUp
    true t 0 0 (fun _ => 0) demo_lib.

Definition demo_image (id : ObjectId) (st : EmbeddingStatus) (emb : bool)
  (attempts : nat) (last : option Millis) : Image :=
  mkImage id "f.jpg" "orig.jpg" "https://blob/f.jpg" "orig"
    ("q" ++ show_nat id)%string emb st None attempts last 7 false 0%Z 0%Z.

Definition demo_world (qdrantUp modelUp : bool)
  (f : Service -> nat -> option JsError) (l : list Image) (pts : list Point)
  : World :=
  mkWorld (demo_globals qdrantUp modelUp 1000000%Z) (demo_env f) l [] pts
    100 (fun _ => 0) [].

(** A failed record last attempted exactly [RETRY_DELAY] before the clock
    of [demo_world], alone in the store. *)
Definition boundary_record : Image :=
  demo_image 3 failed false 1 (Some (1000000 - RETRY_DELAY)%Z).

Definition boundary_world : World :=
  demo_world true true no_faults [boundary_record] [].

(** A pending record, a terminally failed one, and a failed one last
    attempted one millisecond more than [RETRY_DELAY] ago. *)
Definition pending_record : Image := demo_image 1 pending false 0 None.

Definition terminal_record : Image := demo_image 2 failed false 5 None.

Definition past_delay_record : Image :=
  demo_image 4 failed false 1 (Some (1000000 - RETRY_DELAY - 1)%Z).

Definition mixed_world : World :=
  demo_world true true no_faults
    [pending_record; terminal_record; past_delay_record] [].

(** The client exists but [isQdrantAvailable] is false; the model is
    loaded; one pending record; an empty index. *)
Definition index_flagged_down_world : World :=
  demo_world false true no_faults [pending_record] [].

(** An outage during a pass: the index is flagged available but rejects
    every call; two pending records. *)
Definition second_pending_record : Image := demo_image 5 pending false 0 None.

Definition outage_world : World :=
  demo_world true true (service_down Qdrant (new_Error "ECONNREFUSED"))
    [pending_record; second_pending_record] [].

(** What a record shows of the embedding state machine. *)
Definition state_of (r : Image)
  : ObjectId * EmbeddingStatus * bool * nat * option string :=
  (_id r, embeddingStatus r, isEmbedded r, embeddingAttempts r,
   embeddingError r).

Definition is_upsert (e : Event) : bool :=
  match e with
  | Called (QdrantUpsert _) => true
  | Called _ => false
  end.

(** The model has not loaded; Mongo is connected, the index is up. *)
Definition no_model_world : World := demo_world true false no_faults [] [].

(** Everything is up and the store is empty. *)
Definition all_up_world : World := demo_world true true no_faults [] [].

Definition single_upload : UploadRequest :=
  mkUpload 7 (Some (mkFile "a.jpg")) None None.

Definition two_files : UploadManyRequest :=
  mkUploadMany 7 (Some [mkFile "a.jpg"; mkFile "b.jpg"]).

(** A store of two embedded records and an index of three points, one of
    them without an [imageId] yet; the score of a point is the first
    component of its vector. *)
Definition embedded_record (id : ObjectId) : Image :=
  demo_image id completed true 1 (Some 0%Z).

Definition demo_point (id : Uuid) (first : Z) (img : option ObjectId)
  : Point :=
  mkPoint id [first] (mkPayload img 7 "f.jpg").

Definition search_world : World :=
  demo_world true true no_faults
    [embedded_record 1; embedded_record 2]
    [demo_point "q1" 5 (Some 1); demo_point "q2" 9 (Some 2);
     demo_point "q3" 7 None].

Definition sunset_request : SearchRequest :=
  mkSearch 7 (Some "sunset") (Some 1) None None None.


(** The same store with an empty index. *)
Definition empty_index_world : World :=
  demo_world true true no_faults [embedded_record 1; embedded_record 2] [].

(** The index is flagged unavailable. *)
Definition index_down_world : World :=
  demo_world false true no_faults [embedded_record 1; embedded_record 2] [].

(** A store whose first record is in a collection and has its vector in
    the index, which rejects every call. *)
Definition delete_world : World :=
  mkWorld (demo_globals true true 1000000%Z)
    (demo_env (service_down Qdrant (new_Error "ECONNREFUSED")))
    [embedded_record 1; embedded_record 2]
    [mkCollection 50 [1; 2]]
    [demo_point "q1" 5 (Some 1); demo_point "q2" 9 (Some 2)]
    100 (fun _ => 0) [].

(** The same with the index answering. *)
Definition delete_world_up : World :=
  mkWorld (demo_globals true true 1000000%Z) (demo_env no_faults)
    [embedded_record 1; embedded_record 2]
    [mkCollection 50 [1; 2]]
    [demo_point "q1" 5 (Some 1); demo_point "q2" 9 (Some 2)]
    100 (fun _ => 0) [].

Definition delete_first : DeleteRequest := mkDelete 7 1.

(** The index is flagged unavailable and the record store rejects every
    call. *)
Definition count_rejected_world : World :=
  demo_world false true (service_down Mongo (new_Error "connection closed"))
    [embedded_record 1; embedded_record 2] [].

(** The store and index of [delete_world_up] with the index flagged
    unavailable; every service answers. *)
Definition delete_world_off : World :=
  mkWorld (demo_globals false true 1000000%Z) (demo_env no_faults)
    [embedded_record 1; embedded_record 2]
    [mkCollection 50 [1; 2]]
    [demo_point "q1" 5 (Some 1); demo_point "q2" 9 (Some 2)]
    100 (fun _ => 0) [].

(* ================================================================== *)
(** * 8. Vocabulary of the statements                                  *)
(* ================================================================== *)

(** Service [s] answers every call made to it. *)
Definition up (s : Service) (w : World) : Prop :=
  forall n, faults (env w) s n = None.

(** Service [s] answers the next call made to it. *)
Definition answers (s : Service) (w : World) : Prop :=
  faults (env w) s (calls w s) = None.

(** [isEmbedded = true] exactly when [embeddingStatus = 'completed']. *)
Definition consistent (r : Image) : Prop :=
  isEmbedded r = true <-> embeddingStatus r = completed.

(** Document ids are unique and were all handed out by the store. *)
Definition unique_ids (w : World) : Prop :=
  NoDup (map _id (images w)) /\
  Forall (fun r => _id r < nextObjectId w) (images w).

(** Eligibility of a record for the pipeline at time [t], the way the
    selection query decides it: the last attempt lies more than
    [RETRY_DELAY] back. *)
Definition eligible (t : Millis) (r : Image) : Prop :=
  embeddingStatus r = pending \/
  (embeddingStatus r = failed /\
   embeddingAttempts r < MAX_EMBEDDING_ATTEMPTS /\
   (lastEmbeddingAttempt r = None \/
    exists l, lastEmbeddingAttempt r = Some l /\ (t - l > RETRY_DELAY)%Z)).

(** Eligibility in the words of the specification (section 4.2): the last
    attempt lies at least [RETRY_DELAY] back. *)
Definition eligible_spec (t : Millis) (r : Image) : Prop :=
  embeddingStatus r = pending \/
  (embeddingStatus r = failed /\
   embeddingAttempts r < MAX_EMBEDDING_ATTEMPTS /\
   (lastEmbeddingAttempt r = None \/
    exists l, lastEmbeddingAttempt r = Some l /\ (t - l >= RETRY_DELAY)%Z)).

(** The batch a pass started in [w] gets from the store. *)
Definition selected (w : World) : list Image :=
  fst (effect (ImageFind (needsEmbedding (clock (globals w))) NoSort (Some 10))
         w).

(** Counting records. *)
Definition count (f : Image -> bool) (l : list Image) : nat :=
  length (filter f l).

(** The scope of [getEmbeddingStats(userId)]. *)
Definition in_scope (userId : option ObjectId) (r : Image) : bool :=
  match userId with
  | Some u => Nat.eqb (user r) u
  | None => true
  end.

Definition has_status (s : EmbeddingStatus) (r : Image) : bool :=
  EmbeddingStatus_eqb (embeddingStatus r) s.

(** Terminal failure: failed, and out of attempts. *)
Definition terminal (r : Image) : bool :=
  has_status failed r && Nat.leb MAX_EMBEDDING_ATTEMPTS (embeddingAttempts r).

(** A failed record that may still be retried. *)
Definition retryable (r : Image) : bool :=
  has_status failed r && Nat.ltb (embeddingAttempts r) MAX_EMBEDDING_ATTEMPTS.

(** A further trigger of the pipeline arriving while call number [n] is
    pending, for the [n] that [fire] picks. *)
Definition second_trigger (fire : nat -> bool) : nat -> World -> World :=
  fun n w => if fire n then snd (run processPendingEmbeddings w) else w.

(** Selection queries ([Image.find]) among the calls of a trace. *)
Definition is_find (e : Event) : bool :=
  match e with
  | Called (ImageFind _ _ _) => true
  | Called _ => false
  end.

Definition finds (tr : list Event) : nat := length (filter is_find tr).

(** Writes to the Image collection among the calls of a trace. *)
Definition is_write (e : Event) : bool :=
  match e with
  | Called (ImageFindByIdAndUpdate _ _) => true
  | Called (ImageCreate _) => true
  | Called (ImageDeleteOne _) => true
  | Called _ => false
  end.

(** ** Programs built from permitted calls and assignments *)

Inductive respects (okc : forall R, Call R -> Prop)
  (okm : (Globals -> Globals) -> Prop) (A : Type) : Prog A -> Prop :=
| respects_Ret a : respects okc okm (Ret a)
| respects_Throw e : respects okc okm (Throw e)
| respects_Await R (c : Call R) k :
    okc R c -> (forall r, respects okc okm (k r)) ->
    respects okc okm (Await c k)
| respects_GetG k :
    (forall g, respects okc okm (k g)) -> respects okc okm (GetG k)
| respects_ModG f k :
    okm f -> respects okc okm k -> respects okc okm (ModG f k).

Definition any_call (R : Type) (c : Call R) : Prop := True.

Definition any_assignment (f : Globals -> Globals) : Prop := True.

(** Assignments that leave [isProcessing] as it is. *)
Definition keeps_isProcessing (f : Globals -> Globals) : Prop :=
  forall g, isProcessing (f g) = isProcessing g.

Definition not_a_find (R : Type) (c : Call R) : Prop :=
  is_find (Called c) = false.

(** ** Triples *)

(** From a world with [P], the program ends with [Q] on its outcome and
    final world. *)
Definition hoare (A : Type) (P : World -> Prop) (p : Prog A)
  (Q : JsError + A -> World -> Prop) : Prop :=
  forall w, P w -> Q (fst (run p w)) (snd (run p w)).

(** ** The invariant of a pass

    The ids in the store are [ids0], the id supply stands at [n0], every
    record is consistent, and the records still to be processed (ids in
    [todo]) are not embedded. *)
Definition pass_inv (ids0 : list ObjectId) (n0 : ObjectId)
  (todo : list ObjectId) (w : World) : Prop :=
  map _id (images w) = ids0
  /\ nextObjectId w = n0
  /\ Forall consistent (images w)
  /\ (forall r, In r (images w) -> In (_id r) todo -> isEmbedded r = false).

(** The calls [processImageEmbedding image] makes before it marks the
    record completed, and in its [catch]. *)
Definition before_completion (i : ObjectId) (R : Type) (c : Call R) : Prop :=
  match c with
  | ImageFindByIdAndUpdate id (SetProcessing _) => id = i
  | ImageFindByIdAndUpdate id (SetFailed _) => id = i
  | ImageFindByIdAndUpdate _ SetCompleted => False
  | ImageCreate _ => False
  | ImageDeleteOne _ => False
  | _ => True
  end.

(** Calls that do not write to the Image collection. *)
Definition no_store_write (R : Type) (c : Call R) : Prop :=
  is_write (Called c) = false.

(** The invariant of the store: unique ids, consistent records. *)
Definition store_inv (w : World) : Prop :=
  unique_ids w /\ Forall consistent (images w).

(** ** Uploads *)

Definition is_none (A : Type) (o : option A) : bool :=
  match o with
  | None => true
  | Some _ => false
  end.

(** The fast path of [uploadMultipleImages] for one file, started in [w],
    goes through: the model was ready when the request came in, the index
    is flagged available and has a client, the vision model and the
    processor are loaded, the model answers its next call and the index
    answers the call after its health probe (the upsert). *)
Definition fast_path (aiModelAvailable : bool) (w : World) : bool :=
  aiModelAvailable
  && isQdrantAvailable (globals w) && qdrantClient (globals w)
  && visionModel (globals w) && processor (globals w)
  && is_none (faults (env w) Model (calls w Model))
  && is_none (faults (env w) Qdrant (S (calls w Qdrant))).

(** The two states in which an upload creates a record. *)
Definition created_completed (r : Image) : Prop :=
  embeddingStatus r = completed /\ isEmbedded r = true
  /\ embeddingAttempts r = 1.

Definition created_pending (r : Image) : Prop :=
  embeddingStatus r = pending /\ isEmbedded r = false
  /\ embeddingAttempts r = 0.

(** The variables a request handler never assigns. *)
Definition same_setup (g g' : Globals) : Prop :=
  qdrantClient g' = qdrantClient g
  /\ isAIModelAvailable g' = isAIModelAvailable g
  /\ visionModel g' = visionModel g
  /\ textModel g' = textModel g
  /\ processor g' = processor g
  /\ tokenizer g' = tokenizer g
  /\ isMongoConnected g' = isMongoConnected g
  /\ isProcessing g' = isProcessing g.

(** ** Search *)

(** The index is connected and healthy: flagged available, with a client,
    and answering the next call made to it (the health probe). *)
Definition index_healthy (w : World) : bool :=
  isQdrantAvailable (globals w) && qdrantClient (globals w)
  && is_none (faults (env w) Qdrant (calls w Qdrant)).

(** Searches among the calls of a trace: [Image.find] and Qdrant's
    [search]. *)
Definition is_search (e : Event) : bool :=
  match e with
  | Called (ImageFind _ _ _) => true
  | Called (QdrantSearch _ _) => true
  | Called _ => false
  end.

(** The calls made since the trace was [before]. *)
Definition since (before : list Event) (w : World) : list Event :=
  skipn (length before) (trace w).

(** The query string of a request ([undefined] counted as empty). *)
Definition query_of (req : SearchRequest) : string :=
  or_default (s_query req) EmptyString.

Definition error_of (r : Response) : option string :=
  match body r with
  | JFailure _ e _ => e
  | _ => None
  end.

(** What the AI path of [searchImages] computes for [req] in [w]: the
    query embedding, the neighbours the index returns for it, the records
    those map back to that pass the filters, and their ranking. *)
Definition query_embedding (req : SearchRequest) (w : World) : Vector :=
  text_embedding (env w) (query_of req).












(** ** Deletion *)

Definition deleted : Response :=
  mkResponse 200 (JDeleted "Image deleted successfully").

(** The vector deletion of [deleteImage] for [image], started in [w], goes
    through: the index is flagged available and has a client, the record
    has a point id, and the index answers its next call. *)
Definition vector_deleted (image : Image) (w : World) : bool :=
  isQdrantAvailable (globals w) && truthy (Some (qdrantId image))
  && qdrantClient (globals w)
  && is_none (faults (env w) Qdrant (calls w Qdrant)).

(* ================================================================== *)
(** * 9. Further code: reading a record, health, routes, middleware    *)
(* ================================================================== *)

(** The rest of [controllers/imageController.js] that works on the data
    modelled above, [middleware/serviceHealth.js], the routes that
    [routes/imageRoutes.js] and [server.js] define themselves, and
    [middleware/upload.js].  Requests are taken after authentication
    ([middleware/auth.js]). *)

From Stdlib Require DecimalNat DecimalFacts.

(** ** getImage *)

Record GetRequest : Type := mkGet {
  get_user : ObjectId;   (* req.user._id *)
  get_id : ObjectId      (* req.params.id *)
}.

(** Get single image.  The answer [{ success: true, image }] has the shape
    of the answer of [uploadImage]; [populate('collections', 'name')] is
    part of the one query. *)
Definition getImage (req : GetRequest) : Prog Response :=
  try_catch
    (found <- await (ImageFindById (get_id req)) ;;
     match found with
     | None => Ret (mkResponse 404 (JFailure "Image not found" None None))
     | Some image =>
         (* Check ownership or public access *)
         if negb (Nat.eqb (user image) (get_user req))
            && negb (isPublic image)
         then
           Ret (mkResponse 403
                  (JFailure "Not authorized to access this image" None None))
         else Ret (mkResponse 200 (JUploaded image))
     end)
    (fun _ =>
       Ret (mkResponse 500 (JFailure "Error fetching image" None None))).

(** ** middleware/serviceHealth.js *)

(** A middleware either answers ([Some]) or passes on ([None] for
    [next()]). *)
Definition Middleware : Type := Prog (option Response).

Definition checkCriticalServices : Middleware :=
  mongo <- isMongoDBConnected ;;
  if negb mongo then
    Ret (Some (mkResponse 503
                 (JFailure "Database service is currently unavailable"
                    (Some "SERVICE_UNAVAILABLE") None)))
  else Ret None.

(** Deprecated in the source: no longer blocks uploads, just passes
    through. *)
Definition checkAIModel : Middleware := Ret None.

(** The object [getServiceStatus] returns. *)
Record ServiceStatus : Type := mkServiceStatus {
  database_available : bool;
  database_critical : bool;
  aiModel_available : bool;
  aiModel_critical : bool;
  aiModel_impact : option string;
  vectorDB_available : bool;
  vectorDB_critical : bool;
  vectorDB_impact : option string;
  embedding_total : nat;
  embedding_embedded : nat;
  embedding_pending : nat;
  embedding_percentage : nat;
  canUpload : bool;
  canSearch : bool;
  aiSearchAvailable : bool
}.

(** Get current service status. *)
Definition getServiceStatus : Prog ServiceStatus :=
  mongoStatus <- isMongoDBConnected ;;
  aiModelStatus <- isAIModelReady ;;
  qdrantStatus <- isQdrantConnected ;;
  qdrantHealthy <- (if qdrantStatus then checkQdrantHealth else Ret false) ;;
  (* Get embedding stats *)
  embeddingStats <- getEmbeddingStats None ;;
  Ret (mkServiceStatus
         mongoStatus true
         aiModelStatus false
         (if aiModelStatus then None
          else Some "Images uploaded without embeddings (will be processed when available)")
         qdrantHealthy false
         (if qdrantHealthy then None
          else Some "AI search disabled (text search still available)")
         (stats_total embeddingStats)
         (stats_embedded embeddingStats)
         (stats_pending embeddingStats)
         (stats_percentage embeddingStats)
         mongoStatus
         mongoStatus
         (mongoStatus && qdrantHealthy && aiModelStatus)).

(** ** routes/imageRoutes.js *)

(** An error as [handleMulterError] looks at it: whether it is a
    [multer.MulterError], and its [code], [field] and [message]. *)
Record UploadError : Type := mkUploadError {
  is_MulterError : bool;
  err_code : option string;
  err_field : option string;
  err_message : option string
}.

Definition dquote : string := String "034"%char EmptyString.

(** [`Unexpected field "${err.field}". Use "image" for single upload or
    "images" for multiple uploads.`]; an absent field prints as
    [undefined]. *)
Definition unexpected_field (field : option string) : string :=
  ("Unexpected field " ++ dquote ++ or_default field "undefined" ++ dquote
   ++ ". Use " ++ dquote ++ "image" ++ dquote ++ " for single upload or "
   ++ dquote ++ "images" ++ dquote ++ " for multiple uploads.")%string.

Definition code_is (err : UploadError) (c : string) : bool :=
  match err_code err with
  | Some c' => String.eqb c' c
  | None => false
  end.

Definition bad_request (msg : string) : Response :=
  mkResponse 400 (JFailure msg None None).

(** Error handler for multer; [None] stands for [next()]. *)
Definition handleMulterError (err : option UploadError) : option Response :=
  match err with
  | None => None
  | Some err =>
      if is_MulterError err then
        if code_is err "LIMIT_FILE_SIZE" then
          Some (bad_request
                  "File size too large. Maximum size is 10MB per file.")
        else if code_is err "LIMIT_FILE_COUNT" then
          Some (bad_request "Too many files. Maximum is 20 files at once.")
        else if code_is err "LIMIT_UNEXPECTED_FILE" || truthy (err_field err)
        then Some (bad_request (unexpected_field (err_field err)))
        else
          Some (bad_request
                  (if truthy (err_message err)
                   then or_default (err_message err) EmptyString
                   else "File upload error"))
      else
        Some (bad_request
                (if truthy (err_message err)
                 then or_default (err_message err) EmptyString
                 else "Upload error"))
  end.

(** A route declared after [router.use(checkCriticalServices)]: the
    middleware, then the handler. *)
Definition guarded (handler : Prog Response) : Prog Response :=
  r <- checkCriticalServices ;;
  match r with
  | Some answer => Ret answer
  | None => handler
  end.

(** The upload routes: the guard, multer (whose outcome is [err]), the
    error handler, the controller. *)
Definition upload_route (err : option UploadError) (handler : Prog Response)
  : Prog Response :=
  guarded (match handleMulterError err with
           | Some answer => Ret answer
           | None => handler
           end).

(** [GET /stats/embeddings]: [inr stats] stands for the answer
    [{ success: true, stats }]. *)
Definition embeddingStatsHandler (u : ObjectId)
  : Prog (Response + EmbeddingStats) :=
  try_catch
    (stats <- getEmbeddingStats (Some u) ;;
     Ret (inr stats))
    (fun error =>
       Ret (inl (mkResponse 500
                   (JFailure "Error fetching embedding stats"
                      (Some (message error)) None)))).

(** ** middleware/upload.js *)

(** [s.split(',')]. *)
Fixpoint split_commas (s : string) : list string :=
  match s with
  | EmptyString => [EmptyString]
  | String c rest =>
      if Ascii.eqb c ","%char then EmptyString :: split_commas rest
      else
        match split_commas rest with
        | p :: ps => String c p :: ps
        | [] => [String c EmptyString]
        end
  end.

Definition DEFAULT_FILE_TYPES : string :=
  "image/jpeg,image/png,image/jpg,image/webp".

(** [allowedTypes] for a value of [process.env.ALLOWED_FILE_TYPES]. *)
Definition allowedTypes (configured : option string) : list string :=
  split_commas (if truthy configured
                then or_default configured EmptyString
                else DEFAULT_FILE_TYPES).

(** File filter: [cb(null, true)] is [inr true], [cb(new Error(..), false)]
    the error. *)
Definition fileFilter (configured : option string) (mimetype : string)
  : JsError + bool :=
  if existsb (String.eqb mimetype) (allowedTypes configured) then inr true
  else
    inl (new_Error
           "Invalid file type. Only JPEG, PNG, JPG and WebP images are allowed.").

(** The error of [fileFilter] as it reaches [handleMulterError]: a plain
    [Error] with a message. *)
Definition plain_error (e : JsError) : UploadError :=
  mkUploadError false None None (Some (message e)).

(** ** server.js: GET /health *)

(** The answer of the health check; [health_success] and [imageUpload]
    hold the truthiness of [mongoStatus && aiModelStatus]. *)
Record Health : Type := mkHealth {
  health_code : nat;
  health_success : bool;
  health_message : string;
  database_status : string;
  aiModel_status : string;
  aiModel_note : option string;
  vectorDB_status : string;
  vectorDB_note : option string;
  imageUpload : bool;
  imageView : bool;
  aiSearch : bool;
  textSearch : bool
}.

Definition health : Prog Health :=
  mongoStatus <- isMongoDBConnected ;;
  connected <- isQdrantConnected ;;
  qdrantStatus <- (if connected then checkQdrantHealth else Ret false) ;;
  aiModelStatus <- isAIModelReady ;;
  let allCriticalServicesUp := mongoStatus && aiModelStatus in
  Ret (mkHealth
         (if allCriticalServicesUp then 200 else 503)
         allCriticalServicesUp
         (if allCriticalServicesUp then "SmartGallery API is running"
          else "Some services are unavailable")
         (if mongoStatus then "connected" else "disconnected")
         (if aiModelStatus then "ready" else "unavailable")
         (if aiModelStatus then None else Some "Image uploads disabled")
         (if qdrantStatus then "connected" else "disconnected")
         (if qdrantStatus then None
          else Some "AI search disabled, text search available")
         (mongoStatus && aiModelStatus)
         mongoStatus
         (mongoStatus && qdrantStatus)
         mongoStatus).

(* ================================================================== *)
(** * 10. Further vocabulary                                           *)
(* ================================================================== *)

(** One outcome per file of an upload, in the order of the request: a
    record carrying the name and owner of the upload, or an entry in
    [errors] under the file's name. *)
Inductive outcomes (u : ObjectId)
  : list File -> list Image -> list (string * string) -> Prop :=
| outcomes_nil : outcomes u [] [] []
| outcomes_uploaded file files img imgs errs :
    originalName img = originalname file -> user img = u ->
    outcomes u files imgs errs ->
    outcomes u (file :: files) (img :: imgs) errs
| outcomes_failed file files msg imgs errs :
    outcomes u files imgs errs ->
    outcomes u (file :: files) imgs ((originalname file, msg) :: errs).

(** ** Worlds for the examples *)

(** Everything is up, except that the third call to blob storage (the
    [put] of the second file of an upload) is rejected. *)
Definition second_put_fails : Service -> nat -> option JsError :=
  fun s n =>
    match s, n with
    | Storage, 2 => Some (new_Error "blob store timeout")
    | _, _ => None
    end.

Definition flaky_storage_world : World :=
  demo_world true true second_put_fails [] [].

(** The record that the first of [two_files] gives there. *)
Definition first_of_two : Image :=
  mkImage 100 "uuid-0.jpg" "a.jpg" "https://blob/uuid-0.jpg" "a"
    "uuid-1" true completed None 1 None 7 false 1000000%Z 1000000%Z.

(** Blob storage without its token: every call to the storage service
    throws the error it throws then. *)
Definition no_token_world : World :=
  demo_world true true
    (service_down Storage (new_Error "BLOB_READ_WRITE_TOKEN is required"))
    [] [].

(** Everything is up, but the record store rejects every call. *)
Definition store_down_world : World :=
  demo_world true true (service_down Mongo (new_Error "E11000")) [] [].

(** The uuid source never hands out the same uuid twice. *)
Definition uuid_injective (l : Lib) : Prop :=
  forall i j, uuidv4_nth l i = uuidv4_nth l j -> i = j.

(** No two records share a [qdrantId] (the schema declares it unique), and
    every [qdrantId] in the store is a uuid that the source has already
    handed out. *)
Definition point_ids_fresh (w : World) : Prop :=
  NoDup (map qdrantId (images w))
  /\ Forall (fun r => exists i,
                 i < uuidCount (globals w)
                 /\ qdrantId r = uuidv4_nth (lib (globals w)) i)
       (images w).

(** Calls that neither create a record nor update one. *)
Definition no_create_or_update (R : Type) (c : Call R) : Prop :=
  match c with
  | ImageCreate _ => False
  | ImageFindByIdAndUpdate _ _ => False
  | _ => True
  end.

(** Calls that neither create nor delete a record. *)
Definition no_create_or_delete (R : Type) (c : Call R) : Prop :=
  match c with
  | ImageCreate _ => False
  | ImageDeleteOne _ => False
  | _ => True
  end.

(** Assignments that leave the uuid source as it is. *)
Definition keeps_uuids (f : Globals -> Globals) : Prop :=
  forall g, uuidCount (f g) = uuidCount g /\ lib (f g) = lib g.




(** Calls that change nothing: queries of the record store and of the
    index, and the model. *)
Definition is_read (R : Type) (c : Call R) : Prop :=
  match c with
  | ImageFind _ _ _ | ImageCountDocuments _ | ImageFindById _
  | QdrantGetCollections | QdrantGetCollection | QdrantSearch _ _
  | ClipImage _ | ClipText _ | RawImageRead _ => True
  | _ => False
  end.

Definition reads_only (tr : list Event) : Prop :=
  Forall (fun e => match e with Called c => is_read c end) tr.

(** Assignments to [isQdrantAvailable] and to [reconnectTimeout] at
    most, none of which disarms a reconnect. *)
Definition availability_only (f : Globals -> Globals) : Prop :=
  forall g,
    same_setup g (f g)
    /\ clock (f g) = clock g /\ uuidCount (f g) = uuidCount g
    /\ pendingTriggers (f g) = pendingTriggers g
    /\ settles_first (f g) = settles_first g /\ lib (f g) = lib g
    /\ (reconnectTimeout g = true -> reconnectTimeout (f g) = true).

(** The records, the points, the collections and the id supply of [w'] are
    those of [w]. *)
Definition same_stores (w w' : World) : Prop :=
  images w' = images w /\ points w' = points w
  /\ collections w' = collections w /\ nextObjectId w' = nextObjectId w.

(** A program that, run in any world, leaves the stores as they are, makes
    no call but queries, and assigns to no variable but
    [isQdrantAvailable] and [reconnectTimeout]; a reconnect that was armed
    stays armed. *)
Definition read_only (A : Type) (p : Prog A) : Prop :=
  forall w,
    same_stores w (snd (run p w))
    /\ reads_only (since (trace w) (snd (run p w)))
    /\ same_setup (globals w) (globals (snd (run p w)))
    /\ clock (globals (snd (run p w))) = clock (globals w)
    /\ uuidCount (globals (snd (run p w))) = uuidCount (globals w)
    /\ pendingTriggers (globals (snd (run p w))) = pendingTriggers (globals w)
    /\ settles_first (globals (snd (run p w))) = settles_first (globals w)
    /\ lib (globals (snd (run p w))) = lib (globals w)
    /\ (reconnectTimeout (globals w) = true ->
        reconnectTimeout (globals (snd (run p w))) = true).

(** The store and index of [delete_world_up]; the record store answers the
    first call made to it and rejects every later one. *)
Definition lookup_only : Service -> nat -> option JsError :=
  fun s n =>
    match s, n with
    | Mongo, S _ => Some (new_Error "connection closed")
    | _, _ => None
    end.

Definition broken_delete_world : World :=
  mkWorld (demo_globals true true 1000000%Z) (demo_env lookup_only)
    [embedded_record 1; embedded_record 2]
    [mkCollection 50 [1; 2]]
    [demo_point "q1" 5 (Some 1); demo_point "q2" 9 (Some 2)]
    100 (fun _ => 0) [].

(** ** The pipeline when everything is up *)

(** The point that [processImageEmbedding] writes for a record. *)
Definition embedded_point (e : Env) (r : Image) : Point :=
  mkPoint (qdrantId r) (image_embedding e (filePath r))
    (mkPayload (Some (_id r)) (user r) (filename r)).

(** The record after a successful attempt at time [t]. *)
Definition mark_embedded (t : Millis) (r : Image) : Image :=
  apply_update SetCompleted (apply_update (SetProcessing t) r).

(** Model and index are in place and the three services answer every
    call. *)
Definition services_up (w : World) : Prop :=
  visionModel (globals w) = true /\ processor (globals w) = true
  /\ isQdrantAvailable (globals w) = true /\ qdrantClient (globals w) = true
  /\ up Mongo w /\ up Model w /\ up Qdrant w.

(** What the loop of a pass leaves in the store and in the index when every
    attempt succeeds. *)
Definition embed_all (t : Millis) (batch : list Image) (l : list Image)
  : list Image :=
  fold_left
    (fun l r =>
       update_by_id (_id r) SetCompleted
         (update_by_id (_id r) (SetProcessing t) l))
    batch l.

Definition index_all (e : Env) (batch : list Image) (pts : list Point)
  : list Point :=
  fold_left (fun pts r => upsert_point (embedded_point e r) pts) batch pts.

(** The model rejects the first image it is given, and the record store
    answers the first call made to it only; two pending records. *)
Definition abandon_faults : Service -> nat -> option JsError :=
  fun s n =>
    match s, n with
    | Model, 0 => Some (new_Error "unsupported image")
    | Mongo, S _ => Some (new_Error "connection closed")
    | _, _ => None
    end.

Definition abandon_world : World :=
  demo_world true true abandon_faults
    [pending_record; second_pending_record] [].

(** ** What a pass leaves alone *)

(** Calls that write to no record but those with an id in [ids], and that
    remove nothing. *)
Definition touches_only (ids : list ObjectId) (R : Type) (c : Call R)
  : Prop :=
  match c with
  | ImageFindByIdAndUpdate i _ => In i ids
  | ImageCreate _ | ImageDeleteOne _ | CollectionUpdateManyPull _
  | QdrantDelete _ | QdrantSetPayload _ _ => False
  | _ => True
  end.

(** Runs of the vision model among the calls of a trace. *)
Definition is_embed (e : Event) : bool :=
  match e with
  | Called (ClipImage _) => true
  | Called _ => false
  end.

Definition embeds (tr : list Event) : nat := length (filter is_embed tr).

(** The records under ids outside [ids] are those of [w], no record has
    come or gone, every point id of [w] is still in the index, and the
    collections are those of [w]. *)
Definition framed (ids : list ObjectId) (w w' : World) : Prop :=
  (forall i, ~ In i ids ->
             find_by_id i (images w') = find_by_id i (images w))
  /\ map _id (images w') = map _id (images w)
  /\ (forall q, In q (points w) ->
        exists q', In q' (points w') /\ point_id q' = point_id q)
  /\ collections w' = collections w
  /\ nextObjectId w' = nextObjectId w.

(** ** The index flagged unavailable *)

(** In [w'] the index is flagged unavailable, and it has not been called
    or changed since [w]. *)
Definition index_left_alone (w w' : World) : Prop :=
  isQdrantAvailable (globals w') = false
  /\ calls w' Qdrant = calls w Qdrant
  /\ points w' = points w.

(** The store of [search_world] with a pending record of user 8 among the
    two records of user 7. *)
Definition foreign_record : Image :=
  mkImage 3 "g.jpg" "other.jpg" "https://blob/g.jpg" "other" "q9"
    false pending None 0 None 8 false 0%Z 0%Z.

Definition shared_world : World :=
  demo_world true true no_faults
    [embedded_record 1; foreign_record; embedded_record 2] [].

(** The id of point [p] is not a uuid that the source has yet to hand
    out. *)
Definition not_upcoming (g : Globals) (p : Point) : Prop :=
  forall i, uuidCount g <= i -> point_id p <> uuidv4_nth (lib g) i.

(** ** Draining the backlog *)

(** The records that the selection query matches. *)
Definition backlog (w : World) : list Image :=
  filter (matches (regex_i (env w)) (needsEmbedding (clock (globals w))))
    (images w).

(** [k] passes of the pipeline, one after the other. *)
Fixpoint passes (k : nat) (w : World) : World :=
  match k with
  | 0 => w
  | S k' => passes k' (snd (run processPendingEmbeddings w))
  end.

(** The pipeline can start and nothing will fail: the guard is clear, the
    model ready, the index in place, the services answering. *)
Definition all_clear (w : World) : Prop :=
  isProcessing (globals w) = false
  /\ model_ready (globals w) = true
  /\ isQdrantAvailable (globals w) = true
  /\ qdrantClient (globals w) = true
  /\ up Mongo w /\ up Model w /\ up Qdrant w.

(** Assignments that leave the model and the clock as they are. *)
Definition keeps_model (f : Globals -> Globals) : Prop :=
  forall g,
    model_ready (f g) = model_ready g /\ clock (f g) = clock g
    /\ qdrantClient (f g) = qdrantClient g.

(** Twelve pending records, everything up. *)
Definition twelve_pending : World :=
  demo_world true true no_faults
    (map (fun i => demo_image i pending false 0 None) (seq 1 12)) [].

(** ** Statistics *)

(** The statistics of the records [l] within the scope of [userId]. *)
Definition stats_of (userId : option ObjectId) (l : list Image)
  : EmbeddingStats :=
  mkStats
    (count (in_scope userId) l)
    (count (fun r => in_scope userId r && isEmbedded r) l)
    (count (fun r => in_scope userId r && has_status pending r) l)
    (count (fun r => in_scope userId r && has_status processing r) l)
    (count (fun r => in_scope userId r && retryable r) l)
    (percentage
       (count (fun r => in_scope userId r && isEmbedded r) l)
       (count (in_scope userId) l)).

(** The five counts [getEmbeddingStats] asks for. *)
Definition stats_queries (userId : option ObjectId) : list Filter :=
  let query := match userId with
               | Some u => FUser u
               | None => FAll
               end in
  [query;
   FAnd query (FIsEmbedded true);
   FAnd query (FStatus pending);
   FAnd query (FStatus processing);
   FAnd query (FAnd (FStatus failed) (FAttemptsLt MAX_EMBEDDING_ATTEMPTS))].

(** The outcomes of counts asked for one after the other, the first of
    them being call number [k] to the record store. *)
Fixpoint count_outcomes (e : Env) (l : list Image) (k : nat)
  (qs : list Filter) : list (JsError + nat) :=
  match qs with
  | [] => []
  | q :: rest =>
      match faults e Mongo k with
      | Some err => inl err
      | None => inr (length (filter (matches (regex_i e) q) l))
      end :: count_outcomes e l (S k) rest
  end.

(** The world after the counts [qs] have been asked for. *)
Definition counted (qs : list Filter) (w : World) : World :=
  fold_left (fun w q => record_call (ImageCountDocuments q) w) qs w.

(** ** Further vocabulary of the proofs *)

(** The store of [w'] holds the point ids of [w] and the uuid source is
    where it was. *)
Definition same_point_ids (w w' : World) : Prop :=
  map qdrantId (images w') = map qdrantId (images w)
  /\ uuidCount (globals w') = uuidCount (globals w)
  /\ lib (globals w') = lib (globals w).

(** The record is one of the batch, by its id. *)
Definition in_batch (batch : list Image) (r : Image) : bool :=
  existsb (Nat.eqb (_id r)) (map _id batch).


(* ================================================================== *)
(** * 11. Laws of execution                                         *)
(* ================================================================== *)

Section RunLaws.

Variable others : nat -> World -> World.

Lemma run_among_bind (A B : Type) (p : Prog A) (f : A -> Prog B) w :
  run_among others (bind p f) w =
  match run_among others p w with
  | (inr a, w') => run_among others (f a) w'
  | (inl e, w') => (inl e, w')
  end.
Proof.
  revert w; induction p as [a|e|R c k IH|k IH|m k IH]; intros w; cbn; auto.
  destruct (perform c w) as [r w']. apply IH.
Qed.

Lemma run_among_try_catch (A : Type) (p : Prog A) (h : JsError -> Prog A) w :
  run_among others (try_catch p h) w =
  match run_among others p w with
  | (inr a, w') => (inr a, w')
  | (inl e, w') => run_among others (h e) w'
  end.
Proof.
  revert w; induction p as [a|e|R c k IH|k IH|m k IH]; intros w; cbn; auto.
  destruct (perform c w) as [r w']. apply IH.
Qed.

Lemma run_among_try_finally (A : Type) (p : Prog A) (f : Prog unit) w :
  run_among others (try_finally p f) w =
  let (r, w') := run_among others p w in
  match run_among others f w' with
  | (inr _, w'') => (r, w'')
  | (inl e, w'') => (inl e, w'')
  end.
Proof.
  unfold try_finally.
  rewrite run_among_bind, run_among_try_catch, run_among_bind.
  destruct (run_among others p w) as [[e|a] w']; cbn;
    rewrite run_among_bind;
    destruct (run_among others f w') as [[e'|[]] w'']; reflexivity.
Qed.

Lemma run_among_await (R : Type) (c : Call R) w :
  run_among others (await c) w =
  let (r, w') := perform c w in (r, others (length (trace w)) w').
Proof.
  cbn. destruct (perform c w) as [[e|r] w']; reflexivity.
Qed.

End RunLaws.

Lemma run_bind (A B : Type) (p : Prog A) (f : A -> Prog B) w :
  run (bind p f) w =
  match run p w with
  | (inr a, w') => run (f a) w'
  | (inl e, w') => (inl e, w')
  end.
Proof. apply run_among_bind. Qed.

Lemma run_try_catch (A : Type) (p : Prog A) (h : JsError -> Prog A) w :
  run (try_catch p h) w =
  match run p w with
  | (inr a, w') => (inr a, w')
  | (inl e, w') => run (h e) w'
  end.
Proof. apply run_among_try_catch. Qed.

Lemma run_try_finally (A : Type) (p : Prog A) (f : Prog unit) w :
  run (try_finally p f) w =
  let (r, w') := run p w in
  match run f w' with
  | (inr _, w'') => (r, w'')
  | (inl e, w'') => (inl e, w'')
  end.
Proof. apply run_among_try_finally. Qed.

Lemma run_await (R : Type) (c : Call R) w :
  run (await c) w = perform c w.
Proof.
  unfold run. rewrite run_among_await.
  destruct (perform c w); reflexivity.
Qed.

Lemma run_settle (R : Type) (c : Call R) w :
  run (settle c) w = (inr (fst (perform c w)), snd (perform c w)).
Proof.
  unfold run, settle. cbn [run_among]. destruct (perform c w). reflexivity.
Qed.

Lemma perform_rejected (R : Type) (c : Call R) w e :
  faults (env w) (service_of c) (calls w (service_of c)) = Some e ->
  perform c w = (inl e, record_call c w).
Proof. intros H. unfold perform. rewrite H. reflexivity. Qed.

Lemma perform_answered (R : Type) (c : Call R) w :
  faults (env w) (service_of c) (calls w (service_of c)) = None ->
  perform c w =
  (inr (fst (effect c (record_call c w))), snd (effect c (record_call c w))).
Proof.
  intros H. unfold perform. rewrite H.
  destruct (effect c (record_call c w)); reflexivity.
Qed.

(** ** Programs built from permitted calls and assignments *)

Section Respect.

Variable okc : forall R, Call R -> Prop.
Variable okm : (Globals -> Globals) -> Prop.

Lemma respects_bind (A B : Type) (p : Prog A) (f : A -> Prog B) :
  respects okc okm p -> (forall a, respects okc okm (f a)) ->
  respects okc okm (bind p f).
Proof.
  intros Hp Hf. induction Hp; cbn; auto; constructor; auto.
Qed.

Lemma respects_try_catch (A : Type) (p : Prog A) (h : JsError -> Prog A) :
  respects okc okm p -> (forall e, respects okc okm (h e)) ->
  respects okc okm (try_catch p h).
Proof.
  intros Hp Hh. induction Hp; cbn; auto; constructor; auto.
Qed.

Lemma respects_await (R : Type) (c : Call R) :
  okc c -> respects okc okm (await c).
Proof.
  intros H. constructor; auto. intros [e|v]; constructor.
Qed.

Lemma respects_get : respects okc okm get.
Proof. constructor. intros g. constructor. Qed.

Lemma respects_modify f : okm f -> respects okc okm (modify f).
Proof. intros H. constructor; auto. constructor. Qed.

(** An invariant that the permitted calls and assignments maintain is
    maintained by the program, and interference that leaves worlds with
    the invariant alone goes unnoticed. *)
Variable I : World -> Prop.
Hypothesis I_perform :
  forall R (c : Call R) w, okc c -> I w -> I (snd (perform c w)).
Hypothesis I_modify :
  forall f w, okm f -> I w -> I (set_globals (f (globals w)) w).

Lemma respects_run (A : Type) (p : Prog A) :
  respects okc okm p -> forall w, I w -> I (snd (run p w)).
Proof.
  induction 1 as [a|e|R c k Hc Hk IH|k Hk IH|f k Hf Hk IH]; intros w Hw.
  - exact Hw.
  - exact Hw.
  - unfold run; cbn. pose proof (I_perform Hc Hw) as Hp.
    destruct (perform c w) as [r w']. apply IH. exact Hp.
  - apply (IH (globals w)). exact Hw.
  - apply IH. apply I_modify; assumption.
Qed.

Lemma respects_run_among (others : nat -> World -> World) (A : Type)
  (p : Prog A) :
  (forall n w, I w -> others n w = w) ->
  respects okc okm p ->
  forall w, I w -> run_among others p w = run p w.
Proof.
  intros Hothers.
  induction 1 as [a|e|R c k Hc Hk IH|k Hk IH|f k Hf Hk IH]; intros w Hw.
  - reflexivity.
  - reflexivity.
  - unfold run; cbn. pose proof (I_perform Hc Hw) as Hp.
    destruct (perform c w) as [r w']. cbn in Hp.
    rewrite Hothers by exact Hp. apply IH. exact Hp.
  - apply (IH (globals w)). exact Hw.
  - apply IH. apply I_modify; assumption.
Qed.

End Respect.

Unset Implicit Arguments.

(* ================================================================== *)
(** * 12. Eligibility (the selection query)                         *)
(* ================================================================== *)

Lemma EmbeddingStatus_eqb_eq a b : EmbeddingStatus_eqb a b = true <-> a = b.
Proof. destruct a, b; cbn; split; congruence. Qed.

Lemma needsEmbedding_eligible re t r :
  matches re (needsEmbedding t) r = true <-> eligible t r.
Proof.
  unfold needsEmbedding, eligible, MAX_EMBEDDING_ATTEMPTS, RETRY_DELAY.
  cbn [matches].
  rewrite orb_true_iff, !andb_true_iff, orb_true_iff,
    !EmbeddingStatus_eqb_eq, Nat.ltb_lt.
  destruct (lastEmbeddingAttempt r) as [l|]; cbn.
  - rewrite Z.ltb_lt. split.
    + intros [H|(H1 & H2 & [H3|H3])]; auto; try discriminate.
      right; repeat split; auto. right. exists l. split; auto. lia.
    + intros [H|(H1 & H2 & [H3|(l' & H3 & H4)])]; auto; try discriminate.
      right; repeat split; auto. right. injection H3 as <-. lia.
  - split.
    + intros [H|(H1 & H2 & _)]; auto.
    + intros [H|(H1 & H2 & _)]; auto.
Qed.

Lemma selected_spec w :
  selected w =
  firstn 10
    (filter (matches (regex_i (env w)) (needsEmbedding (clock (globals w))))
       (images w)).
Proof. reflexivity. Qed.

Lemma In_firstn (A : Type) (n : nat) (l : list A) (x : A) :
  In x (firstn n l) -> In x l.
Proof.
  intros H. rewrite <- (firstn_skipn n l). apply in_or_app. left. exact H.
Qed.

Lemma firstn_all_short (A : Type) (n : nat) (l : list A) :
  length l <= n -> firstn n l = l.
Proof. intros H. apply firstn_all2. exact H. Qed.

(** C3 (as amended).  The selection query of the pipeline matches a record
    exactly when it is pending, or failed with fewer than
    MAX_EMBEDDING_ATTEMPTS attempts and a last attempt that is absent or
    lies strictly more than RETRY_DELAY back; the batch of a pass consists
    of matching records of the store, and of all of them when there are at
    most ten.  A failed record attempted exactly RETRY_DELAY ago is not
    eligible, one attempted RETRY_DELAY + 1 ms ago is, and a failed record
    with MAX_EMBEDDING_ATTEMPTS attempts or more never is. *)
Theorem C3_selection_query (w : World) (r : Image) :
  let t := clock (globals w) in
  let query := matches (regex_i (env w)) (needsEmbedding t) in
  (query r = true <-> eligible t r)
  /\ (In r (selected w) -> In r (images w) /\ eligible t r)
  /\ (length (filter query (images w)) <= 10 ->
      In r (images w) -> eligible t r -> In r (selected w))
  /\ (embeddingStatus r = failed ->
      lastEmbeddingAttempt r = Some (t - RETRY_DELAY)%Z -> ~ eligible t r)
  /\ (embeddingStatus r = failed ->
      embeddingAttempts r < MAX_EMBEDDING_ATTEMPTS ->
      lastEmbeddingAttempt r = Some (t - RETRY_DELAY - 1)%Z -> eligible t r)
  /\ (embeddingStatus r = failed ->
      MAX_EMBEDDING_ATTEMPTS <= embeddingAttempts r -> ~ eligible t r).
Proof.
  intros t query.
  split; [apply needsEmbedding_eligible|].
  split.
  { rewrite selected_spec. intros H. apply In_firstn in H.
    apply filter_In in H. destruct H as [H1 H2]. split; auto.
    apply (needsEmbedding_eligible (regex_i (env w))). exact H2. }
  split.
  { intros Hlen Hin Hel. rewrite selected_spec.
    rewrite firstn_all_short by exact Hlen.
    apply filter_In. split; auto.
    apply needsEmbedding_eligible. exact Hel. }
  split.
  { intros Hs Hl [H|(_ & _ & [H|(l & H1 & H2)])]; try congruence.
    rewrite Hl in H1. injection H1 as <-. lia. }
  split.
  { intros Hs Ha Hl. right. repeat split; auto. right.
    eexists. split; [exact Hl|]. unfold RETRY_DELAY. lia. }
  { intros Hs Ha [H|(_ & H & _)]; [congruence|lia]. }
Qed.

(** C3, refuted as stated: a failed record whose last attempt lies exactly
    RETRY_DELAY back is eligible in the words of the specification, yet the
    query does not match it and a pass leaves it untouched. *)
Lemma C3_exactly_retry_delay_not_selected :
  clock (globals boundary_world) = 1000000%Z
  /\ lastEmbeddingAttempt boundary_record = Some (1000000 - RETRY_DELAY)%Z
  /\ eligible_spec (clock (globals boundary_world)) boundary_record
  /\ matches (regex_i (env boundary_world))
       (needsEmbedding (clock (globals boundary_world))) boundary_record
     = false
  /\ selected boundary_world = []
  /\ images (snd (run processPendingEmbeddings boundary_world))
     = [boundary_record].
Proof.
  split; [reflexivity|]. split; [reflexivity|]. split.
  - right. split; [reflexivity|]. split; [cbv; lia|].
    right. eexists. split; [reflexivity|]. cbv. discriminate.
  - split; [reflexivity|]. split; reflexivity.
Qed.

(** C3, an instance: in a store holding a pending record, a terminally
    failed one and a record attempted one millisecond beyond the delay, the
    third is in the batch and the second is not eligible. *)
Lemma C3_selection_query_witness :
  In past_delay_record (selected mixed_world)
  /\ ~ eligible (clock (globals mixed_world)) terminal_record.
Proof.
  split.
  - destruct (C3_selection_query mixed_world past_delay_record)
      as (_ & _ & H3 & _ & H5 & _).
    apply H3.
    + cbv. lia.
    + cbn. auto.
    + apply H5; [reflexivity | cbv; lia | reflexivity].
  - destruct (C3_selection_query mixed_world terminal_record)
      as (_ & _ & _ & _ & _ & H6).
    apply H6; [reflexivity | cbv; lia].
Defined.

(* ================================================================== *)
(** * 13. Statistics                                                *)
(* ================================================================== *)

Lemma count_cons f r l :
  count f (r :: l) = (if f r then 1 else 0) + count f l.
Proof. unfold count. cbn. destruct (f r); reflexivity. Qed.

Lemma count_ext f g l : (forall r, f r = g r) -> count f l = count g l.
Proof. intros H. unfold count. rewrite (filter_ext f g H). reflexivity. Qed.

Lemma scope_query re userId r :
  matches re (match userId with
              | Some u => FUser u
              | None => FAll
              end) r = in_scope userId r.
Proof. destruct userId; reflexivity. Qed.

(** Under the invariant of C1 every record in scope falls in exactly one of
    five classes, the fifth being the terminal failures. *)
Lemma classes_partition userId l :
  Forall consistent l ->
  count (fun r => in_scope userId r && isEmbedded r) l
  + count (fun r => in_scope userId r && has_status pending r) l
  + count (fun r => in_scope userId r && has_status processing r) l
  + count (fun r => in_scope userId r && retryable r) l
  + count (fun r => in_scope userId r && terminal r) l
  = count (in_scope userId) l.
Proof.
  induction 1 as [|r l Hr Hl IH]; [reflexivity|].
  rewrite !count_cons, <- IH.
  unfold consistent in Hr. unfold retryable, terminal, has_status.
  destruct (in_scope userId r); cbn [andb]; [|lia].
  destruct (Nat.ltb_spec (embeddingAttempts r) MAX_EMBEDDING_ATTEMPTS)
    as [Hlt|Hge].
  - apply Nat.leb_gt in Hlt. rewrite Hlt.
    destruct (isEmbedded r), (embeddingStatus r); cbn; try lia;
      destruct Hr as [H1 H2]; try (specialize (H1 eq_refl); discriminate);
      try (specialize (H2 eq_refl); discriminate).
  - apply Nat.leb_le in Hge. rewrite Hge.
    destruct (isEmbedded r), (embeddingStatus r); cbn; try lia;
      destruct Hr as [H1 H2]; try (specialize (H1 eq_refl); discriminate);
      try (specialize (H2 eq_refl); discriminate).
Qed.

Lemma count_pos f l r : In r l -> f r = true -> 0 < count f l.
Proof.
  intros Hin Hf. unfold count.
  assert (H : In r (filter f l)) by (apply filter_In; auto).
  destruct (filter f l); [contradiction | cbn; lia].
Qed.

Lemma getEmbeddingStats_run userId w :
  up Mongo w ->
  fst (run (getEmbeddingStats userId) w) =
  inr (mkStats
         (count (in_scope userId) (images w))
         (count (fun r => in_scope userId r && isEmbedded r) (images w))
         (count (fun r => in_scope userId r && has_status pending r)
            (images w))
         (count (fun r => in_scope userId r && has_status processing r)
            (images w))
         (count (fun r => in_scope userId r && retryable r) (images w))
         (percentage
            (count (fun r => in_scope userId r && isEmbedded r) (images w))
            (count (in_scope userId) (images w)))).
Proof.
  intros Hup. unfold getEmbeddingStats, Promise_all. cbn [settle_all].
  repeat (rewrite ?run_bind, run_settle, perform_answered by apply Hup;
          cbn [fst snd run run_among]).
  cbn [run run_among fst snd effect record_call images env rejections
       answers_of nth].
  fold (count (matches (regex_i (env w))
                 match userId with
                 | Some u => FUser u
                 | None => FAll
                 end) (images w)).
  assert (E0 : forall l,
             count (matches (regex_i (env w))
                      match userId with
                      | Some u => FUser u
                      | None => FAll
                      end) l = count (in_scope userId) l).
  { intros l. apply count_ext. intros r. apply scope_query. }
  assert (E1 : forall (q : Filter) (g : Image -> bool) l,
             (forall r, matches (regex_i (env w)) q r = g r) ->
             length
               (filter
                  (matches (regex_i (env w))
                     (FAnd match userId with
                           | Some u => FUser u
                           | None => FAll
                           end q)) l)
             = count (fun r => in_scope userId r && g r) l).
  { intros q g l Hq. apply count_ext. intros r. cbn [matches].
    rewrite scope_query, Hq. reflexivity. }
  rewrite E0.
  rewrite (E1 (FIsEmbedded true) isEmbedded)
    by (intros r; cbn; destruct (isEmbedded r); reflexivity).
  rewrite (E1 (FStatus pending) (has_status pending)) by reflexivity.
  rewrite (E1 (FStatus processing) (has_status processing)) by reflexivity.
  rewrite (E1 (FAnd (FStatus failed) (FAttemptsLt MAX_EMBEDDING_ATTEMPTS))
             retryable) by reflexivity.
  reflexivity.
Qed.

(** C10.  With the record store answering, [getEmbeddingStats] returns the
    counts below; its [failed] counts the failed records that still have
    attempts left.  A terminally failed record (failed, no attempts left,
    not embedded) is counted in [total] and in none of [embedded],
    [pending], [processing], [failed]; so, the records being consistent,
    the four fall short of [total] by the number of terminal failures, and
    strictly so as soon as there is one. *)
Theorem C10_failed_excludes_terminal (w : World) (userId : option ObjectId) :
  up Mongo w ->
  exists st,
    fst (run (getEmbeddingStats userId) w) = inr st
    /\ stats_total st = count (in_scope userId) (images w)
    /\ stats_embedded st
       = count (fun r => in_scope userId r && isEmbedded r) (images w)
    /\ stats_pending st
       = count (fun r => in_scope userId r && has_status pending r)
           (images w)
    /\ stats_processing st
       = count (fun r => in_scope userId r && has_status processing r)
           (images w)
    /\ stats_failed st
       = count (fun r => in_scope userId r && has_status failed r
                         && Nat.ltb (embeddingAttempts r)
                              MAX_EMBEDDING_ATTEMPTS) (images w)
    /\ (forall r, terminal r = true -> isEmbedded r = false ->
          in_scope userId r && isEmbedded r = false
          /\ in_scope userId r && has_status pending r = false
          /\ in_scope userId r && has_status processing r = false
          /\ in_scope userId r && has_status failed r
             && Nat.ltb (embeddingAttempts r) MAX_EMBEDDING_ATTEMPTS = false)
    /\ (Forall consistent (images w) ->
        stats_embedded st + stats_pending st + stats_processing st
        + stats_failed st
        + count (fun r => in_scope userId r && terminal r) (images w)
        = stats_total st)
    /\ (Forall consistent (images w) ->
        (exists r, In r (images w) /\ in_scope userId r = true
                   /\ terminal r = true) ->
        stats_embedded st + stats_pending st + stats_processing st
        + stats_failed st < stats_total st).
Proof.
  intros Hup. eexists. split; [apply getEmbeddingStats_run; exact Hup|].
  cbn [stats_total stats_embedded stats_pending stats_processing
       stats_failed].
  assert (Ef : count (fun r => in_scope userId r && retryable r) (images w)
               = count (fun r => in_scope userId r && has_status failed r
                                 && Nat.ltb (embeddingAttempts r)
                                      MAX_EMBEDDING_ATTEMPTS) (images w)).
  { apply count_ext. intros r. unfold retryable.
    rewrite andb_assoc. reflexivity. }
  do 4 (split; [reflexivity|]).
  split; [exact Ef|].
  split; [|split].
  - intros r Ht He. unfold terminal, has_status in *.
    apply andb_true_iff in Ht. destruct Ht as [Hf Hn].
    apply EmbeddingStatus_eqb_eq in Hf. apply Nat.leb_le in Hn.
    rewrite He, Hf, (proj2 (Nat.ltb_ge _ _) Hn).
    cbn [EmbeddingStatus_eqb]. rewrite !andb_false_r. auto.
  - intros Hc. apply classes_partition. exact Hc.
  - intros Hc (r & Hin & Hs & Ht).
    rewrite <- (classes_partition userId _ Hc).
    assert (0 < count (fun r => in_scope userId r && terminal r) (images w)).
    { apply (count_pos _ _ r Hin). rewrite Hs, Ht. reflexivity. }
    lia.
Qed.

(** C10, an instance: in a store of three records, one of them terminally
    failed, [total] is 3 while the four counts add up to 2. *)
Lemma C10_failed_excludes_terminal_witness :
  up Mongo mixed_world
  /\ exists st,
       fst (run (getEmbeddingStats None) mixed_world) = inr st
       /\ stats_total st = 3
       /\ stats_embedded st + stats_pending st + stats_processing st
          + stats_failed st = 2.
Proof.
  assert (Hup : up Mongo mixed_world) by (intros n; reflexivity).
  split; [exact Hup|].
  destruct (C10_failed_excludes_terminal mixed_world None Hup)
    as (st & Hrun & Ht & He & Hp & Hpr & Hf & _).
  exists st. split; [exact Hrun|].
  rewrite Ht, He, Hp, Hpr, Hf. split; reflexivity.
Defined.

(* ================================================================== *)
(** * 14. What a call leaves alone                                  *)
(* ================================================================== *)

Lemma perform_globals {R : Type} (c : Call R) w :
  globals (snd (perform c w)) = globals w.
Proof.
  unfold perform.
  destruct (faults (env w) (service_of c) (calls w (service_of c)));
    [reflexivity|].
  destruct c; reflexivity.
Qed.


Lemma perform_trace {R : Type} (c : Call R) w :
  trace (snd (perform c w)) = trace w ++ [Called c].
Proof.
  unfold perform.
  destruct (faults (env w) (service_of c) (calls w (service_of c)));
    [reflexivity|].
  destruct c; reflexivity.
Qed.

Ltac head_of t :=
  lazymatch t with
  | ?f _ => head_of f
  | _ => t
  end.

(** Decompose a [respects] goal along the program; [side] settles the
    conditions on calls and assignments. *)
Ltac respects_step side :=
  lazymatch goal with
  | |- respects _ _ (bind _ _) => apply respects_bind; [|intro]
  | |- respects _ _ (try_catch _ _) => apply respects_try_catch; [|intro]
  | |- respects _ _ (await _) => apply respects_await; side
  | |- respects _ _ (Await _ _) => apply respects_Await; [side | intro]
  | |- respects _ _ (settle_all _) => cbn [settle_all]
  | |- respects _ _ get => apply respects_get
  | |- respects _ _ (modify _) => apply respects_modify; side
  | |- respects _ _ (Ret _) => apply respects_Ret
  | |- respects _ _ (Throw _) => apply respects_Throw
  | |- respects _ _ (if ?b then _ else _) => destruct b
  | |- respects _ _ (match ?x with _ => _ end) => destruct x
  | |- respects _ _ ?p => let h := head_of p in unfold h
  end.

Ltac respects_auto side := repeat respects_step side.

(* ================================================================== *)
(** * 15. Single flight                                             *)
(* ================================================================== *)

Ltac flag_side :=
  first [ exact I
        | intros ?g; reflexivity ].

Lemma processImageEmbedding_keeps_flag image :
  respects any_call keeps_isProcessing (processImageEmbedding image).
Proof. respects_auto flag_side. Qed.

Lemma processBatch_keeps_flag batch s f :
  respects any_call keeps_isProcessing (processBatch batch s f).
Proof.
  revert s f. induction batch as [|image rest IH]; intros s f;
    cbn [processBatch].
  - constructor.
  - apply respects_bind.
    + apply processImageEmbedding_keeps_flag.
    + intros []; apply IH.
Qed.

Lemma processImageEmbedding_no_find image :
  respects not_a_find any_assignment (processImageEmbedding image).
Proof. respects_auto ltac:(first [reflexivity | exact I]). Qed.

Lemma processBatch_no_find batch s f :
  respects not_a_find any_assignment (processBatch batch s f).
Proof.
  revert s f. induction batch as [|image rest IH]; intros s f;
    cbn [processBatch].
  - constructor.
  - apply respects_bind.
    + apply processImageEmbedding_no_find.
    + intros []; apply IH.
Qed.

(** With the guard set the call is over at once and nothing has changed. *)
Lemma pass_skipped others w :
  isProcessing (globals w) = true ->
  run_among others processPendingEmbeddings w = (inr tt, w).
Proof. intros H. cbn. rewrite H. reflexivity. Qed.

Lemma pass_unfold others w :
  run_among others processPendingEmbeddings w =
  if isProcessing (globals w) then (inr tt, w)
  else if negb (model_ready (globals w)) then (inr tt, w)
  else
    run_among others
      (try_finally pass_body (modify (set_isProcessing false)))
      (set_globals (set_isProcessing true (globals w)) w).
Proof.
  unfold processPendingEmbeddings.
  rewrite run_among_bind. cbn [get run_among].
  destruct (isProcessing (globals w)); [reflexivity|].
  rewrite run_among_bind. unfold isAIModelReady at 1.
  rewrite run_among_bind. cbn [get run_among].
  fold (model_ready (globals w)).
  destruct (model_ready (globals w)); [|reflexivity].
  cbn [negb]. rewrite run_among_bind. cbn [modify run_among].
  reflexivity.
Qed.

(** Interference that respects the guard does not show in the body. *)
Lemma pass_body_among others w :
  (forall n w', isProcessing (globals w') = true -> others n w' = w') ->
  isProcessing (globals w) = true ->
  run_among others pass_body w = run pass_body w.
Proof.
  intros Hothers Hw. unfold run, pass_body.
  rewrite !run_among_try_catch.
  rewrite !run_among_bind. cbn [now get bind run_among].
  rewrite !run_among_bind, !run_among_await.
  pose proof (perform_globals
                (ImageFind (needsEmbedding (clock (globals w))) NoSort
                   (Some 10)) w) as Hg.
  destruct (perform
              (ImageFind (needsEmbedding (clock (globals w))) NoSort
                 (Some 10)) w) as [[e|imgs] w1]; cbn [snd] in Hg.
  - rewrite Hothers by congruence. reflexivity.
  - rewrite Hothers by congruence. unfold idle at 1.
    destruct (Nat.eqb (length imgs) 0); [reflexivity|].
    assert (Hr : respects any_call keeps_isProcessing
                   (processBatch imgs 0 0 ;;
                    await (ImageCountDocuments remaining) ;;
                    Ret tt)).
    { apply respects_bind; [apply processBatch_keeps_flag|].
      intros _. respects_auto flag_side. }
    assert (Hp : forall R (c : Call R) w',
               any_call c -> isProcessing (globals w') = true ->
               isProcessing (globals (snd (perform c w'))) = true).
    { intros R c w' _ H. rewrite perform_globals. exact H. }
    assert (Hm : forall f w',
               keeps_isProcessing f -> isProcessing (globals w') = true ->
               isProcessing
                 (globals (set_globals (f (globals w')) w')) = true).
    { intros f w' Hf H. cbn. rewrite Hf. exact H. }
    assert (Hw1 : isProcessing (globals w1) = true) by congruence.
    rewrite (@respects_run_among any_call keeps_isProcessing
               (fun w' => isProcessing (globals w') = true)
               Hp Hm others _ _ Hothers Hr w1 Hw1).
    reflexivity.
Qed.

Lemma second_trigger_skips fire n w :
  isProcessing (globals w) = true -> second_trigger fire n w = w.
Proof.
  intros H. unfold second_trigger. destruct (fire n); [|reflexivity].
  unfold run. rewrite pass_skipped by exact H. reflexivity.
Qed.

Lemma pass_among others w :
  (forall n w', isProcessing (globals w') = true -> others n w' = w') ->
  run_among others processPendingEmbeddings w
  = run processPendingEmbeddings w.
Proof.
  intros Hothers. unfold run. rewrite !pass_unfold.
  destruct (isProcessing (globals w)); [reflexivity|].
  destruct (negb (model_ready (globals w))); [reflexivity|].
  rewrite !run_among_try_finally.
  rewrite (pass_body_among others _ Hothers) by reflexivity.
  unfold run.
  destruct (run_among idle pass_body
              (set_globals (set_isProcessing true (globals w)) w))
    as [r w1].
  reflexivity.
Qed.

(** The body never throws. *)
Lemma pass_body_returns w : fst (run pass_body w) = inr tt.
Proof.
  unfold pass_body. rewrite run_try_catch.
  destruct (run _ w) as [[e|[]] w1]; reflexivity.
Qed.

Lemma pass_returns w : fst (run processPendingEmbeddings w) = inr tt.
Proof.
  unfold run. rewrite pass_unfold.
  destruct (isProcessing (globals w)); [reflexivity|].
  destruct (negb (model_ready (globals w))); [reflexivity|].
  rewrite run_among_try_finally.
  pose proof (pass_body_returns
                (set_globals (set_isProcessing true (globals w)) w)) as H.
  unfold run in H.
  destruct (run_among idle pass_body _) as [r w1]. cbn in H. subst r.
  reflexivity.
Qed.

Lemma pass_clears_guard w :
  isProcessing (globals w) = false ->
  isProcessing (globals (snd (run processPendingEmbeddings w))) = false.
Proof.
  intros Hw. unfold run. rewrite pass_unfold, Hw.
  destruct (negb (model_ready (globals w))); [exact Hw|].
  rewrite run_among_try_finally.
  destruct (run_among idle pass_body _) as [r w1]. reflexivity.
Qed.

Lemma finds_app tr1 tr2 : finds (tr1 ++ tr2) = finds tr1 + finds tr2.
Proof. unfold finds. rewrite filter_app, length_app. reflexivity. Qed.

(** A pass that starts issues one selection query, no more. *)
Lemma pass_body_one_find w :
  finds (trace (snd (run pass_body w))) = S (finds (trace w)).
Proof.
  assert (Htr : forall w1, trace (snd (run pass_body w)) = trace w1 ->
                           finds (trace w1) = S (finds (trace w)) ->
                           finds (trace (snd (run pass_body w)))
                           = S (finds (trace w))) by (intros; congruence).
  unfold pass_body in *. rewrite run_try_catch, run_bind.
  unfold run at 1. cbn [now get bind run_among].
  change (run_among idle (Ret (clock (globals w))) w)
    with (@inr JsError Millis (clock (globals w)), w).
  cbv beta iota. rewrite run_bind, run_await.
  pose proof (perform_trace
                (ImageFind (needsEmbedding (clock (globals w))) NoSort
                   (Some 10)) w) as Ht.
  destruct (perform
              (ImageFind (needsEmbedding (clock (globals w))) NoSort
                 (Some 10)) w) as [[e|imgs] w1]; cbn [snd] in Ht.
  - cbn. rewrite Ht, finds_app. cbn. lia.
  - assert (Hr : respects not_a_find any_assignment
                   (if Nat.eqb (length imgs) 0 then
                      modify (set_isProcessing false) ;; Ret tt
                    else
                      processBatch imgs 0 0 ;;
                      await (ImageCountDocuments remaining) ;;
                      Ret tt)).
    { destruct (Nat.eqb (length imgs) 0).
      - respects_auto ltac:(first [reflexivity | exact I]).
      - apply respects_bind; [apply processBatch_no_find|].
        intros _. respects_auto ltac:(first [reflexivity | exact I]). }
    assert (Hk : finds (trace (snd (run
                   (if Nat.eqb (length imgs) 0 then
                      modify (set_isProcessing false) ;; Ret tt
                    else
                      processBatch imgs 0 0 ;;
                      await (ImageCountDocuments remaining) ;;
                      Ret tt) w1))) = S (finds (trace w))).
    { apply (@respects_run not_a_find any_assignment
               (fun w' => finds (trace w') = S (finds (trace w)))).
      - intros R c w' Hc H. rewrite perform_trace, finds_app, H.
        unfold not_a_find in Hc. unfold finds at 2. cbn [filter].
        rewrite Hc. cbn. lia.
      - intros f w' _ H. exact H.
      - exact Hr.
      - rewrite Ht, finds_app. cbn. lia. }
    destruct (run _ w1) as [[e|[]] w2]; cbn [snd] in *; exact Hk.
Qed.

(** C6.  With [isProcessing] set, a call of [processPendingEmbeddings]
    returns at once and leaves the world, its trace of calls included, as
    it was: no batch is selected and no record updated.  Hence further
    triggers arriving at any await of a running pass change nothing, and a
    pass with its concurrent triggers issues exactly one selection query.
    The call never throws, and a pass that found the guard clear leaves it
    clear, whatever fails on the way. *)
Theorem C6_single_flight (w : World) :
  (isProcessing (globals w) = true ->
   forall others,
     run_among others processPendingEmbeddings w = (inr tt, w))
  /\ (forall fire,
        run_among (second_trigger fire) processPendingEmbeddings w
        = run processPendingEmbeddings w)
  /\ (isProcessing (globals w) = false ->
      model_ready (globals w) = true ->
      forall fire,
        finds (trace (snd (run_among (second_trigger fire)
                             processPendingEmbeddings w)))
        = S (finds (trace w)))
  /\ fst (run processPendingEmbeddings w) = inr tt
  /\ (isProcessing (globals w) = false ->
      isProcessing (globals (snd (run processPendingEmbeddings w))) = false).
Proof.
  split; [intros H others; apply pass_skipped; exact H|].
  split; [intros fire; apply pass_among; intros n w' H;
          apply second_trigger_skips; exact H|].
  split; [|split; [apply pass_returns | apply pass_clears_guard]].
  intros Hp Hm fire.
  rewrite pass_among
    by (intros n w' H; apply second_trigger_skips; exact H).
  unfold run. rewrite pass_unfold, Hp, Hm. cbn [negb].
  rewrite run_among_try_finally.
  pose proof (pass_body_one_find
                (set_globals (set_isProcessing true (globals w)) w)) as H1.
  unfold run in H1.
  destruct (run_among idle pass_body _) as [r w1]. cbn [snd] in H1.
  cbn. exact H1.
Qed.

(** C6, an instance: with a pending record in the store, a pass during
    which a second trigger arrives at every await issues one selection
    query and ends with the guard clear. *)
Lemma C6_single_flight_witness :
  isProcessing (globals mixed_world) = false
  /\ model_ready (globals mixed_world) = true
  /\ finds (trace (snd (run_among (second_trigger (fun _ => true))
                          processPendingEmbeddings mixed_world))) = 1
  /\ isProcessing
       (globals (snd (run processPendingEmbeddings mixed_world))) = false.
Proof.
  destruct (C6_single_flight mixed_world) as (_ & _ & H3 & _ & H5).
  split; [reflexivity|]. split; [reflexivity|]. split.
  - apply (H3 eq_refl eq_refl (fun _ => true)).
  - apply H5. reflexivity.
Defined.

(* ================================================================== *)
(** * 16. Completion without an index write                         *)
(* ================================================================== *)

(** C2, the code at the failing inputs.  (i) With [isQdrantAvailable]
    false, a pass embeds the pending record, never calls [upsert], and
    marks the record completed and embedded while the index stays empty.
    (ii) When the index rejects every call, the first record of the batch
    ends failed with the captured message, as the claim says; the health
    check made on the way has cleared [isQdrantAvailable], so the second
    record is marked completed without any index write. *)
Theorem C2_completed_without_upsert :
  map state_of
      (images (snd (run processPendingEmbeddings index_flagged_down_world)))
  = [(1, completed, true, 1, None)]
  /\ points (snd (run processPendingEmbeddings index_flagged_down_world)) = []
  /\ filter is_upsert
       (trace (snd (run processPendingEmbeddings index_flagged_down_world)))
     = []
  /\ map state_of (images (snd (run processPendingEmbeddings outage_world)))
     = [(1, failed, false, 1, Some "ECONNREFUSED");
        (5, completed, true, 1, None)]
  /\ points (snd (run processPendingEmbeddings outage_world)) = [].
Proof. repeat split; reflexivity. Qed.

(* ================================================================== *)
(** * 17. Triples                                                   *)
(* ================================================================== *)

Section Hoare.

Context {A : Type}.

Lemma hoare_ret (P : World -> Prop) (a : A) Q :
  (forall w, P w -> Q (inr a) w) -> hoare P (Ret a) Q.
Proof. intros H w Hw. apply H. exact Hw. Qed.


Lemma hoare_conseq (P P' : World -> Prop) (p : Prog A)
  (Q Q' : JsError + A -> World -> Prop) :
  hoare P p Q ->
  (forall w, P' w -> P w) ->
  (forall r w, Q r w -> Q' r w) ->
  hoare P' p Q'.
Proof. intros H HP HQ w Hw. apply HQ, H, HP, Hw. Qed.

Lemma hoare_try_catch (P : World -> Prop) (p : Prog A) h M
  (Q : JsError + A -> World -> Prop) :
  hoare P p M ->
  (forall e, hoare (M (inl e)) (h e) Q) ->
  (forall a w, M (inr a) w -> Q (inr a) w) ->
  hoare P (try_catch p h) Q.
Proof.
  intros Hp Hh Hr w Hw. rewrite run_try_catch.
  specialize (Hp w Hw). destruct (run p w) as [[e|a] w1]; cbn in Hp.
  - apply Hh. exact Hp.
  - apply Hr. exact Hp.
Qed.


End Hoare.

Lemma hoare_bind {A B : Type} (P : World -> Prop) (p : Prog A)
  (f : A -> Prog B) M (Q : JsError + B -> World -> Prop) :
  hoare P p M ->
  (forall a, hoare (M (inr a)) (f a) Q) ->
  (forall e w, M (inl e) w -> Q (inl e) w) ->
  hoare P (bind p f) Q.
Proof.
  intros Hp Hf He w Hw. rewrite run_bind.
  specialize (Hp w Hw). destruct (run p w) as [[e|a] w1]; cbn in Hp.
  - apply He. exact Hp.
  - apply Hf. exact Hp.
Qed.

Lemma hoare_await {R : Type} (P : World -> Prop) (c : Call R) Q :
  (forall w, P w -> Q (fst (perform c w)) (snd (perform c w))) ->
  hoare P (await c) Q.
Proof. intros H w Hw. rewrite run_await. apply H. exact Hw. Qed.



(** A program built from calls and assignments that maintain [J]
    maintains [J]. *)
Lemma hoare_respects {A : Type} okc okm (J : World -> Prop) (p : Prog A) :
  (forall R (c : Call R) w, okc R c -> J w -> J (snd (perform c w))) ->
  (forall f w, okm f -> J w -> J (set_globals (f (globals w)) w)) ->
  respects okc okm p ->
  hoare J p (fun _ w => J w).
Proof.
  intros Hc Hm Hr w Hw.
  apply (@respects_run okc okm J Hc Hm A p Hr w Hw).
Qed.

(** Sequencing under an invariant. *)
Lemma hoare_bind_inv {A B : Type} (J : World -> Prop) (p : Prog A)
  (f : A -> Prog B) (Q : JsError + B -> World -> Prop) :
  hoare J p (fun _ w => J w) ->
  (forall a, hoare J (f a) Q) ->
  (forall e w, J w -> Q (inl e) w) ->
  hoare J (bind p f) Q.
Proof.
  intros Hp Hf He.
  apply (hoare_bind J p f (fun _ w => J w) Q); auto.
Qed.

(* ================================================================== *)
(** * 18. The invariant isEmbedded <-> completed                    *)
(* ================================================================== *)

Lemma apply_update_id u r : _id (apply_update u r) = _id r.
Proof. destruct u; reflexivity. Qed.

Lemma update_by_id_ids i u l : map _id (update_by_id i u l) = map _id l.
Proof.
  induction l as [|r l IH]; [reflexivity|]. cbn.
  destruct (Nat.eqb (_id r) i); cbn.
  - rewrite apply_update_id. reflexivity.
  - rewrite IH. reflexivity.
Qed.

Lemma update_by_id_In i u l r' :
  In r' (update_by_id i u l) ->
  In r' l \/ exists r, In r l /\ _id r = i /\ r' = apply_update u r.
Proof.
  induction l as [|r l IH]; cbn; [tauto|].
  destruct (Nat.eqb_spec (_id r) i) as [E|E]; cbn.
  - intros [H|H]; [right; exists r; auto | left; auto].
  - intros [H|H]; [left; auto|].
    destruct (IH H) as [H1|(r0 & H1 & H2 & H3)]; [left; auto|].
    right. exists r0. auto.
Qed.

Lemma consistent_not_embedded u r :
  u <> SetCompleted -> consistent r -> isEmbedded r = false ->
  consistent (apply_update u r).
Proof.
  unfold consistent. intros Hu Hr He.
  destruct u; cbn; try congruence; rewrite He; split; discriminate.
Qed.

Lemma consistent_completed r : consistent (apply_update SetCompleted r).
Proof. unfold consistent. cbn. tauto. Qed.

Lemma apply_update_isEmbedded u r :
  u <> SetCompleted -> isEmbedded (apply_update u r) = isEmbedded r.
Proof. destruct u; cbn; congruence. Qed.

(** Every call before completion maintains the invariant of the pass. *)
Lemma pass_inv_before ids0 n0 i todo R (c : Call R) w :
  before_completion i c ->
  pass_inv ids0 n0 (i :: todo) w ->
  pass_inv ids0 n0 (i :: todo) (snd (perform c w)).
Proof.
  intros Hc (H1 & H2 & H3 & H4). unfold perform.
  destruct (faults (env w) (service_of c) (calls w (service_of c)));
    [repeat split; assumption|].
  destruct c; try (repeat split; assumption); cbn in Hc; try contradiction.
  destruct u; try contradiction; subst id; cbn [effect snd];
    unfold pass_inv; cbn [images nextObjectId set_images record_call];
    rewrite update_by_id_ids;
    (split; [exact H1|]; split; [exact H2|]; split;
     [ apply Forall_forall; intros r' Hr';
       apply update_by_id_In in Hr';
       destruct Hr' as [Hr'|(r & Hr & Hi & ->)];
       [ exact (proj1 (Forall_forall _ _) H3 r' Hr')
       | apply consistent_not_embedded;
         [ discriminate
         | exact (proj1 (Forall_forall _ _) H3 r Hr)
         | apply H4; [exact Hr | left; symmetry; exact Hi] ] ]
     | intros r' Hr' Hin;
       apply update_by_id_In in Hr';
       destruct Hr' as [Hr'|(r & Hr & Hi & ->)];
       [ apply H4; assumption
       | rewrite apply_update_isEmbedded by discriminate;
         apply H4; [exact Hr | left; symmetry; exact Hi] ] ]).
Qed.


Lemma pass_inv_weaken ids0 n0 todo todo' w :
  (forall i, In i todo' -> In i todo) ->
  pass_inv ids0 n0 todo w -> pass_inv ids0 n0 todo' w.
Proof.
  intros Hs (H1 & H2 & H3 & H4). repeat split; auto.
Qed.

(** Marking the record completed takes it off the to-do list. *)
Lemma pass_inv_completed ids0 n0 i todo w :
  ~ In i todo ->
  pass_inv ids0 n0 (i :: todo) w ->
  pass_inv ids0 n0 todo
    (snd (perform (ImageFindByIdAndUpdate i SetCompleted) w))
  /\ (forall e, fst (perform (ImageFindByIdAndUpdate i SetCompleted) w)
                = inl e ->
      pass_inv ids0 n0 (i :: todo)
        (snd (perform (ImageFindByIdAndUpdate i SetCompleted) w))).
Proof.
  intros Hni (H1 & H2 & H3 & H4). unfold perform.
  destruct (faults (env w) (service_of (ImageFindByIdAndUpdate i SetCompleted))
              (calls w (service_of (ImageFindByIdAndUpdate i SetCompleted)))).
  - split; [|intros e' _]; repeat split; auto.
    intros r Hr Hin. apply H4; [exact Hr | right; exact Hin].
  - cbn [effect fst snd]. split; [|discriminate].
    unfold pass_inv. cbn [images nextObjectId set_images record_call].
    rewrite update_by_id_ids.
    split; [exact H1|]. split; [exact H2|]. split.
    + apply Forall_forall. intros r' Hr'.
      apply update_by_id_In in Hr'.
      destruct Hr' as [Hr'|(r & Hr & Hi & ->)].
      * exact (proj1 (Forall_forall _ _) H3 r' Hr').
      * apply consistent_completed.
    + intros r' Hr' Hin. apply update_by_id_In in Hr'.
      destruct Hr' as [Hr'|(r & Hr & Hi & ->)].
      * apply H4; [exact Hr' | right; exact Hin].
      * rewrite apply_update_id, Hi in Hin. contradiction.
Qed.

Ltac pipeline_side := first [exact I | reflexivity].

(** [processImageEmbedding] maintains the invariant and takes its record
    off the to-do list. *)
Lemma processImageEmbedding_inv ids0 n0 image todo :
  ~ In (_id image) todo ->
  hoare (pass_inv ids0 n0 (_id image :: todo))
    (processImageEmbedding image)
    (fun _ w => pass_inv ids0 n0 todo w).
Proof.
  intros Hni.
  pose (J := pass_inv ids0 n0 (_id image :: todo)).
  assert (HJc : forall R (c : Call R) w,
             before_completion (_id image) c -> J w ->
             J (snd (perform c w)))
    by (intros; apply pass_inv_before; assumption).
  assert (HJm : forall f w,
             any_assignment f -> J w -> J (set_globals (f (globals w)) w))
    by (intros; assumption).
  assert (Hsub : forall w, J w -> pass_inv ids0 n0 todo w).
  { intros w. apply pass_inv_weaken. intros i Hi. right. exact Hi. }
  unfold processImageEmbedding.
  apply hoare_try_catch
    with (M := fun r w => match r with
                          | inr _ => pass_inv ids0 n0 todo w
                          | inl _ => J w
                          end).
  - fold J.
    apply hoare_bind_inv;
      [ apply (hoare_respects (before_completion (_id image))
                 any_assignment J _ HJc HJm);
        respects_auto pipeline_side
      | intros t | intros e w Hw; exact Hw ].
    apply hoare_bind_inv;
      [ apply (hoare_respects (before_completion (_id image))
                 any_assignment J _ HJc HJm);
        respects_auto pipeline_side
      | intros _ | intros e w Hw; exact Hw ].
    apply hoare_bind_inv;
      [ apply (hoare_respects (before_completion (_id image))
                 any_assignment J _ HJc HJm);
        respects_auto pipeline_side
      | intros embedding | intros e w Hw; exact Hw ].
    apply hoare_bind_inv;
      [ apply (hoare_respects (before_completion (_id image))
                 any_assignment J _ HJc HJm);
        respects_auto pipeline_side
      | intros connected | intros e w Hw; exact Hw ].
    apply hoare_bind_inv;
      [ apply (hoare_respects (before_completion (_id image))
                 any_assignment J _ HJc HJm);
        respects_auto pipeline_side
      | intros _ | intros e w Hw; exact Hw ].
    apply hoare_bind
      with (M := fun (r : JsError + unit) w =>
                   match r with
                   | inr _ => pass_inv ids0 n0 todo w
                   | inl _ => J w
                   end).
    + apply hoare_await. intros w Hw.
      destruct (pass_inv_completed ids0 n0 (_id image) todo w Hni Hw)
        as [Hok Hrej].
      destruct (fst (perform (ImageFindByIdAndUpdate (_id image)
                                SetCompleted) w)) as [e|[]] eqn:E.
      * apply (Hrej e). reflexivity.
      * exact Hok.
    + intros _. apply hoare_ret. intros w Hw. exact Hw.
    + intros e w Hw. exact Hw.
  - intros e. cbv beta iota.
    apply hoare_conseq
      with (P := J) (Q := fun (_ : JsError + bool) w => J w).
    + apply (hoare_respects (before_completion (_id image))
               any_assignment J _ HJc HJm).
      respects_auto pipeline_side.
    + intros w Hw. exact Hw.
    + intros r w Hw. apply Hsub. exact Hw.
  - intros a w Hw. exact Hw.
Qed.

Lemma processBatch_inv ids0 n0 batch :
  NoDup (map _id batch) ->
  forall s f,
    hoare (pass_inv ids0 n0 (map _id batch)) (processBatch batch s f)
      (fun _ w => pass_inv ids0 n0 [] w).
Proof.
  induction batch as [|image rest IH]; intros Hnd s f; cbn [processBatch map].
  - apply hoare_ret. intros w Hw. exact Hw.
  - inversion Hnd as [|x l Hni Hrest]; subst.
    apply hoare_bind
      with (M := fun (_ : JsError + bool) w =>
                   pass_inv ids0 n0 (map _id rest) w).
    + apply processImageEmbedding_inv. exact Hni.
    + intros []; apply IH; exact Hrest.
    + intros e w Hw. apply (pass_inv_weaken _ _ (map _id rest)); [|exact Hw].
      intros i [].
Qed.

Lemma NoDup_map_filter (f : Image -> bool) l :
  NoDup (map _id l) -> NoDup (map _id (filter f l)).
Proof.
  induction l as [|r l IH]; cbn; [auto|].
  intros H. inversion H as [|x xs Hni Hnd]; subst.
  destruct (f r); cbn; [constructor|]; auto.
  intros Hin. apply Hni. apply in_map_iff in Hin.
  destruct Hin as (r' & E & Hr'). apply filter_In in Hr'.
  apply in_map_iff. exists r'. tauto.
Qed.

Lemma NoDup_firstn (A : Type) n (l : list A) : NoDup l -> NoDup (firstn n l).
Proof.
  revert n. induction l as [|a l IH]; intros [|n] H; cbn; try constructor.
  - inversion H; subst. intros Hin. apply In_firstn in Hin. contradiction.
  - inversion H; subst. apply IH. assumption.
Qed.

Lemma unique_id_same l r r' :
  NoDup (map _id l) -> In r l -> In r' l -> _id r = _id r' -> r = r'.
Proof.
  induction l as [|a l IH]; cbn; [tauto|].
  intros H. inversion H as [|x xs Hni Hnd]; subst.
  intros [E|Hr] [E'|Hr'] Hid.
  - congruence.
  - subst a. exfalso. apply Hni. rewrite Hid. apply in_map. exact Hr'.
  - subst a. exfalso. apply Hni. rewrite <- Hid. apply in_map. exact Hr.
  - apply IH; assumption.
Qed.

(** The records a pass selects are not embedded. *)
Lemma selection_not_embedded re t r :
  consistent r -> matches re (needsEmbedding t) r = true ->
  isEmbedded r = false.
Proof.
  intros Hc Hm. apply needsEmbedding_eligible in Hm.
  unfold consistent in Hc.
  destruct (isEmbedded r); [|reflexivity].
  destruct Hc as [Hc _]. specialize (Hc eq_refl).
  destruct Hm as [Hm|(Hm & _)]; congruence.
Qed.

Lemma store_inv_pass_inv w :
  store_inv w <->
  (NoDup (map _id (images w))
   /\ Forall (fun i => i < nextObjectId w) (map _id (images w))
   /\ pass_inv (map _id (images w)) (nextObjectId w) [] w).
Proof.
  unfold store_inv, unique_ids, pass_inv. rewrite Forall_map.
  split.
  - intros [[H1 H2] H3]. repeat split; auto. intros r _ [].
  - intros (H1 & H2 & _ & _ & H3 & _). auto.
Qed.

(** Calls that do not write to the Image collection leave the store as
    it is. *)
Lemma perform_no_write {R : Type} (c : Call R) w :
  no_store_write c ->
  images (snd (perform c w)) = images w
  /\ nextObjectId (snd (perform c w)) = nextObjectId w.
Proof.
  intros Hc. unfold perform.
  destruct (faults (env w) (service_of c) (calls w (service_of c)));
    [split; reflexivity|].
  destruct c; try (split; reflexivity); discriminate Hc.
Qed.

Lemma pass_inv_no_write ids0 n0 todo R (c : Call R) w :
  no_store_write c ->
  pass_inv ids0 n0 todo w -> pass_inv ids0 n0 todo (snd (perform c w)).
Proof.
  intros Hc Hw. destruct (perform_no_write c w Hc) as [E1 E2].
  unfold pass_inv. rewrite E1, E2. exact Hw.
Qed.

Ltac read_side := first [exact I | reflexivity].

Lemma pass_body_inv ids0 n0 :
  NoDup ids0 ->
  hoare (pass_inv ids0 n0 []) pass_body (fun _ w => pass_inv ids0 n0 [] w).
Proof.
  intros Hnd. unfold pass_body.
  apply hoare_try_catch
    with (M := fun (_ : JsError + unit) w => pass_inv ids0 n0 [] w).
  - apply hoare_bind_inv;
      [ apply (hoare_respects no_store_write any_assignment);
        [ intros R c w Hc Hw; apply pass_inv_no_write; assumption
        | intros f w _ Hw; exact Hw
        | respects_auto read_side ]
      | intros t | intros e w Hw; exact Hw ].
    intros w Hw. rewrite run_bind, run_await. unfold perform.
    cbn [service_of].
    destruct (faults (env w) Mongo (calls w Mongo)); [exact Hw|].
    cbn [effect fst snd apply_limit apply_sort images env record_call].
    set (batch := firstn 10
                    (filter (matches (regex_i (env w)) (needsEmbedding t))
                       (images w))).
    set (w1 := record_call (ImageFind (needsEmbedding t) NoSort (Some 10)) w).
    destruct (Nat.eqb (length batch) 0); [exact Hw|].
    assert (Hb : forall r, In r batch ->
                   In r (images w) /\
                   matches (regex_i (env w)) (needsEmbedding t) r = true).
    { intros r Hr. unfold batch in Hr.
      apply In_firstn in Hr. apply filter_In in Hr. exact Hr. }
    destruct Hw as (H1 & H2 & H3 & H4).
    assert (Hndb : NoDup (map _id batch)).
    { unfold batch. rewrite <- firstn_map. apply NoDup_firstn.
      apply NoDup_map_filter. rewrite H1. exact Hnd. }
    assert (Hw1 : pass_inv ids0 n0 (map _id batch) w1).
    { repeat split; auto.
      intros r Hr Hin. apply in_map_iff in Hin.
      destruct Hin as (b & Hid & Hbin).
      destruct (Hb b Hbin) as [Hbl Hbm].
      assert (r = b) by (apply (unique_id_same (images w)); auto;
                         rewrite H1; exact Hnd).
      subst b.
      apply (selection_not_embedded (regex_i (env w)) t); auto.
      exact (proj1 (Forall_forall _ _) H3 r Hr). }
    assert (Hrest : hoare (pass_inv ids0 n0 (map _id batch))
                      (processBatch batch 0 0 ;;
                       await (ImageCountDocuments remaining) ;;
                       Ret tt)
                      (fun _ w' => pass_inv ids0 n0 [] w')).
    { apply (hoare_bind _ _ _
               (fun (_ : JsError + nat * nat) w' => pass_inv ids0 n0 [] w')).
      - apply processBatch_inv. exact Hndb.
      - intros _.
        apply (hoare_respects no_store_write any_assignment);
          [ intros R c w' Hc Hw'; apply pass_inv_no_write; assumption
          | intros f w' _ Hw'; exact Hw'
          | respects_auto read_side ].
      - intros e w' Hw'. exact Hw'. }
    apply (Hrest w1 Hw1).
  - intros e. apply hoare_ret. intros w Hw. exact Hw.
  - intros a w Hw. exact Hw.
Qed.

(** A pass maintains the invariant of the store. *)
Lemma pass_store_inv w :
  store_inv w -> store_inv (snd (run processPendingEmbeddings w)).
Proof.
  intros Hw. apply store_inv_pass_inv in Hw. destruct Hw as (Hnd & Hlt & Hw).
  unfold run. rewrite pass_unfold.
  destruct (isProcessing (globals w));
    [apply store_inv_pass_inv; auto|].
  destruct (negb (model_ready (globals w)));
    [apply store_inv_pass_inv; auto|].
  rewrite run_among_try_finally.
  pose proof (pass_body_inv (map _id (images w)) (nextObjectId w) Hnd
                (set_globals (set_isProcessing true (globals w)) w) Hw)
    as H.
  unfold run in H.
  destruct (run_among idle pass_body _) as [r w1]. cbn [snd] in H.
  cbn [modify run_among snd].
  destruct H as (K1 & K2 & K3 & K4).
  apply store_inv_pass_inv. cbn [images nextObjectId set_globals].
  rewrite K1, K2. repeat split; auto. 
Qed.

(* ================================================================== *)
(** * 19. Symbolic execution of the request handlers                *)
(* ================================================================== *)

(** Evaluate the interpreter and the projections of explicit worlds. *)
Ltac norm :=
  cbn [run_among bind try_catch try_finally get modify await now
       scheduleReconnect settle settle_all Promise_all rejections answers_of
       nth
       fst snd globals env images points collections calls trace nextObjectId
       set_globals set_images set_points set_collections record_call
       effect service_of count_call Service_eqb idle
       isProcessing qdrantClient isQdrantAvailable reconnectTimeout
       isAIModelAvailable visionModel textModel processor tokenizer
       isMongoConnected clock uuidCount pendingTriggers settles_first lib
       set_isProcessing set_isQdrantAvailable arm_reconnect bump_uuidCount
       bump_pendingTriggers negb andb orb];
  repeat match goal with
         | |- context [idle ?n ?w] => change (idle n w) with w
         end.

(** [includes] on the message of an error the handler itself created. *)
Ltac eval_includes :=
  repeat match goal with
         | |- context [includes (message (new_Error ?s)) ?n] =>
             let v := eval vm_compute in (includes (message (new_Error s)) n)
             in change (includes (message (new_Error s)) n) with v
         | |- context [status (new_Error ?s)] =>
             change (status (new_Error s)) with (@None Z)
         end.

(** The next call: answered if [up_tac] shows its service up, otherwise
    both outcomes. *)
Ltac perform_step up_tac :=
  match goal with
  | |- context [perform ?c ?w] =>
      first
        [ rewrite (perform_answered c w) by up_tac
        | let s := eval cbn in (service_of c) in
          let n := eval cbn in (calls w s) in
          let e := eval cbn in (env w) in
          let F := fresh "F" in
          destruct (faults e s n) eqn:F;
          [ rewrite (@perform_rejected _ c w _ F)
          | rewrite (perform_answered c w F) ] ]
  end.

Ltac atom b :=
  lazymatch b with
  | negb ?x => atom x
  | orb ?x _ => atom x
  | andb ?x _ => atom x
  | _ => b
  end.

Ltac blocker p :=
  lazymatch p with
  | bind ?q _ => blocker q
  | try_catch ?q _ => blocker q
  | (if ?b then _ else _) => atom b
  | (match ?x with Some _ => _ | None => _ end) => x
  | (match ?x with nil => _ | cons _ _ => _ end) => x
  end.

(** The condition the program is waiting on. *)
Ltac branch_step :=
  match goal with
  | |- context [run_among _ ?p _] =>
      let b := blocker p in
      first
        [ match goal with
          | H : b = _ |- _ => rewrite H
          end
        | let B := fresh "B" in destruct b eqn:B ]
  end.

Ltac execute up_tac :=
  norm; eval_includes; norm;
  repeat (first [perform_step up_tac | branch_step];
          norm; eval_includes; norm).

(** The calls made since the start, read off an explicit world. *)
Ltac since_tac :=
  unfold since; norm; rewrite <- ?app_assoc;
  rewrite skipn_app, skipn_all, Nat.sub_diag; cbn [skipn app].

Ltac refute_up :=
  match goal with
  | F : faults (env ?w) ?s ?n = Some _, H : up ?s ?w |- _ =>
      rewrite (H n) in F; discriminate F
  end.

Lemma uploadFile_cases u ai file w :
  let r := fst (run (uploadFile u ai file) w) in
  let w' := snd (run (uploadFile u ai file) w) in
  env w' = env w
  /\ collections w' = collections w
  /\ same_setup (globals w) (globals w')
  /\ (isQdrantAvailable (globals w) = false ->
      isQdrantAvailable (globals w') = false)
  /\ (up Qdrant w ->
      isQdrantAvailable (globals w') = isQdrantAvailable (globals w))
  /\ match r with
     | inl e =>
         images w' = images w /\ nextObjectId w' = nextObjectId w
         /\ ~ (up Mongo w /\ up Storage w)
     | inr img =>
         images w' = images w ++ [img]
         /\ nextObjectId w' = S (nextObjectId w)
         /\ _id img = nextObjectId w
         /\ (if fast_path ai w then created_completed img
             else created_pending img)
     end.
Proof.
  cbv zeta.
  unfold uploadFile, run, uuidv4, getImageMetadata, isQdrantConnected,
    checkQdrantHealth, generateImageEmbedding, getQdrantClient.
  unfold fast_path, same_setup, created_completed, created_pending.
  execute fail.
  all: cbn [andb is_none].
  all: repeat split; try reflexivity.
  all: try (intros; congruence).
  all: try (intros [? ?]; refute_up).
  all: try (intros; refute_up).
Qed.

Lemma up_env s w w' : env w' = env w -> up s w -> up s w'.
Proof. intros E H n. rewrite E. apply H. Qed.

Lemma same_setup_refl g : same_setup g g.
Proof. repeat split. Qed.

Lemma same_setup_trans g1 g2 g3 :
  same_setup g1 g2 -> same_setup g2 g3 -> same_setup g1 g3.
Proof.
  unfold same_setup.
  intros (A1 & A2 & A3 & A4 & A5 & A6 & A7 & A8)
         (B1 & B2 & B3 & B4 & B5 & B6 & B7 & B8).
  repeat split; congruence.
Qed.

(** The loop over the files of a request: it never throws, and the store
    grows by the records created, which get the next ids in turn. *)
Lemma uploadFiles_cases u ai files :
  forall uploaded errors w,
  exists imgs errs w',
    run (uploadFiles u ai files uploaded errors) w
    = (inr (uploaded ++ imgs, errors ++ errs), w')
    /\ env w' = env w
    /\ collections w' = collections w
    /\ same_setup (globals w) (globals w')
    /\ images w' = images w ++ imgs
    /\ map _id imgs = seq (nextObjectId w) (length imgs)
    /\ nextObjectId w' = nextObjectId w + length imgs
    /\ Forall (fun r => created_completed r \/ created_pending r) imgs
    /\ (isQdrantAvailable (globals w) = false ->
        isQdrantAvailable (globals w') = false)
    /\ (up Qdrant w ->
        isQdrantAvailable (globals w') = isQdrantAvailable (globals w))
    /\ (ai = false \/ isQdrantAvailable (globals w) = false ->
        Forall created_pending imgs)
    /\ (ai = true -> isQdrantAvailable (globals w) = true ->
        qdrantClient (globals w) = true ->
        visionModel (globals w) = true -> processor (globals w) = true ->
        up Qdrant w -> up Model w ->
        Forall created_completed imgs)
    /\ (up Mongo w -> up Storage w ->
        errs = [] /\ length imgs = length files)
    /\ (up Mongo w -> up Storage w ->
        match imgs with
        | [] => True
        | img :: _ =>
            if fast_path ai w then created_completed img
            else created_pending img
        end).
Proof.
  induction files as [|file rest IH]; intros uploaded errors w.
  - exists [], [], w. cbn. rewrite !app_nil_r, Nat.add_0_r.
    repeat split; auto using same_setup_refl.
  - cbn [uploadFiles]. rewrite run_bind, run_try_catch, run_bind.
    pose proof (uploadFile_cases u ai file w) as H. cbv zeta in H.
    destruct (run (uploadFile u ai file) w) as [[e|img] w1];
      cbn [fst snd] in H;
      destruct H as (E1 & Ec & S1 & Q1 & Q2 & H).
    + (* this file failed: an entry in errors, no record *)
      destruct H as (I1 & N1 & Hdown).
      change (run (Ret (inl (originalname file, message e))) w1)
        with (@inr JsError (string * string + Image)
                (inl (originalname file, message e)), w1).
      cbv beta iota.
      destruct (IH uploaded (errors ++ [(originalname file, message e)]) w1)
        as (imgs & errs & w' & Hrun & E2 & Ec2 & S2 & I2 & M2 & N2 & F2
            & Q3 & Q4 & P2 & C2 & U2 & _).
      exists imgs, ((originalname file, message e) :: errs), w'.
      rewrite Hrun, <- app_assoc. cbn [app].
      split; [reflexivity|].
      split; [congruence|]. split; [congruence|].
      split; [eapply same_setup_trans; eassumption|].
      split; [congruence|].
      split; [congruence|]. split; [congruence|]. split; [exact F2|].
      split; [auto|].
      split; [intros HQ; rewrite Q4 by (eapply up_env; eassumption);
              apply Q2; exact HQ|].
      split; [intros [Ha|Hq]; apply P2; auto|].
      split.
      * intros Ha Hq Hc Hv Hp HQ HM.
        destruct S1 as (A1 & A2 & A3 & A4 & A5 & A6 & A7 & A8).
        apply C2; try congruence;
          try (eapply up_env; eassumption).
        rewrite Q2 by exact HQ. exact Hq.
      * split; intros HM HS; exfalso; apply Hdown; split; assumption.
    + (* this file gave a record *)
      destruct H as (I1 & N1 & Id1 & Hshape).
      change (run (Ret (inr img)) w1)
        with (@inr JsError (string * string + Image) (inr img), w1).
      cbv beta iota.
      destruct (IH (uploaded ++ [img]) errors w1)
        as (imgs & errs & w' & Hrun & E2 & Ec2 & S2 & I2 & M2 & N2 & F2
            & Q3 & Q4 & P2 & C2 & U2 & _).
      exists (img :: imgs), errs, w'.
      rewrite Hrun, <- app_assoc. cbn [app length].
      split; [reflexivity|].
      split; [congruence|]. split; [congruence|].
      split; [eapply same_setup_trans; eassumption|].
      split; [rewrite I2, I1, <- app_assoc; reflexivity|].
      split; [cbn [map seq]; rewrite Id1, M2, N1; reflexivity|].
      split; [rewrite N2, N1; lia|].
      split.
      { constructor; [|exact F2].
        destruct (fast_path ai w); [left|right]; exact Hshape. }
      split; [auto|].
      split; [intros HQ; rewrite Q4 by (eapply up_env; eassumption);
              apply Q2; exact HQ|].
      split.
      { intros Hor. constructor; [|apply P2; destruct Hor; auto].
        assert (Hf : fast_path ai w = false).
        { unfold fast_path. destruct Hor as [-> | ->];
            [reflexivity | rewrite andb_false_r; reflexivity]. }
        rewrite Hf in Hshape. exact Hshape. }
      split.
      { intros Ha Hq Hc Hv Hp HQ HM.
        destruct S1 as (A1 & A2 & A3 & A4 & A5 & A6 & A7 & A8).
        constructor.
        - assert (Hf : fast_path ai w = true).
          { unfold fast_path.
            rewrite Ha, Hq, Hc, Hv, Hp, (HM _), (HQ _). reflexivity. }
          rewrite Hf in Hshape. exact Hshape.
        - apply C2; try congruence;
            try (eapply up_env; eassumption).
          rewrite Q2 by exact HQ. exact Hq. }
      split; [|intros _ _; exact Hshape].
      intros HM HS.
      destruct (U2 (up_env Mongo w w1 E1 HM) (up_env Storage w w1 E1 HS))
        as [-> ->].
      split; reflexivity.
Qed.

Lemma uploadMultipleImages_cases req w :
  let r := fst (run (uploadMultipleImages req) w) in
  let w' := snd (run (uploadMultipleImages req) w) in
  (isMongoConnected (globals w) = false ->
   r = inr (mkResponse 503
              (JFailure
                 "Database is currently unavailable. Please try again later."
                 None None))
   /\ w' = w)
  /\ (isMongoConnected (globals w) = true ->
      many_files req = None \/ many_files req = Some [] ->
      r = inr (mkResponse 400
                 (JFailure "Please upload at least one image" None None))
      /\ w' = w)
  /\ (isMongoConnected (globals w) = true ->
      forall files, many_files req = Some files -> files <> [] ->
      exists imgs errs,
        r = inr (mkResponse 201
                   (JUploadedMany imgs (length imgs) (length files)
                      (if Nat.ltb 0 (length errs) then Some errs else None)))
        /\ env w' = env w
        /\ collections w' = collections w
        /\ same_setup (globals w) (globals w')
        /\ images w' = images w ++ imgs
        /\ map _id imgs = seq (nextObjectId w) (length imgs)
        /\ nextObjectId w' = nextObjectId w + length imgs
        /\ Forall (fun r => created_completed r \/ created_pending r) imgs
        /\ (model_ready (globals w) = false
            \/ isQdrantAvailable (globals w) = false ->
            Forall created_pending imgs)
        /\ (model_ready (globals w) = true ->
            isQdrantAvailable (globals w) = true ->
            qdrantClient (globals w) = true ->
            up Qdrant w -> up Model w ->
            Forall created_completed imgs)
        /\ (up Mongo w -> up Storage w ->
            errs = [] /\ length imgs = length files)
        /\ (up Mongo w -> up Storage w ->
            match imgs with
            | [] => True
            | img :: _ =>
                if fast_path (model_ready (globals w)) w
                then created_completed img
                else created_pending img
            end)).
Proof.
  cbv zeta. unfold uploadMultipleImages.
  rewrite run_try_catch, run_bind.
  change (run isMongoDBConnected w)
    with (@inr JsError bool (isMongoConnected (globals w)), w).
  cbv beta iota.
  split; [intros ->; split; reflexivity|].
  split.
  { intros -> [-> | ->]; split; reflexivity. }
  intros -> files -> Hne.
  destruct files as [|file rest]; [contradiction|].
  cbn [negb]. rewrite run_bind.
  change (run isAIModelReady w)
    with (@inr JsError bool (model_ready (globals w)), w).
  cbv beta iota. rewrite run_bind.
  destruct (uploadFiles_cases (many_user req) (model_ready (globals w))
              (file :: rest) [] [] w)
    as (imgs & errs & w1 & Hrun & E & Ec & S & Im & Ids & N & F & Q1 & Q2
        & P & C & U & U1).
  rewrite Hrun. cbn [app fst snd]. rewrite run_bind.
  change (run (modify bump_pendingTriggers) w1)
    with (@inr JsError unit tt,
          set_globals (bump_pendingTriggers (globals w1)) w1).
  cbv beta iota. cbn [run run_among fst snd].
  exists imgs, errs.
  split; [reflexivity|].
  split; [exact E|]. split; [exact Ec|]. split; [exact S|].
  split; [exact Im|].
  split; [exact Ids|]. split; [exact N|]. split; [exact F|].
  split; [exact P|].
  split; [|split; [exact U | exact U1]].
  intros Hr Hq Hc HQ HM. unfold model_ready in Hr.
  apply andb_true_iff in Hr. destruct Hr as [Hr Ht].
  apply andb_true_iff in Hr. destruct Hr as [Hr Hp].
  apply andb_true_iff in Hr. destruct Hr as [Hr Hx].
  apply andb_true_iff in Hr. destruct Hr as [Ha Hv].
  apply C; auto.
  unfold model_ready. rewrite Ha, Hv, Hx, Hp, Ht. reflexivity.
Qed.

Lemma uploadImage_cases req w :
  let r := fst (run (uploadImage req) w) in
  let w' := snd (run (uploadImage req) w) in
  env w' = env w
  /\ collections w' = collections w
  /\ same_setup (globals w) (globals w')
  /\ (isMongoConnected (globals w) = true ->
      model_ready (globals w) = false ->
      r = inr (mkResponse 503
                 (JFailure
                    "AI model is currently unavailable. Image uploads are temporarily disabled."
                    None None))
      /\ w' = w)
  /\ ((images w' = images w /\ nextObjectId w' = nextObjectId w)
      \/ exists img,
           r = inr (mkResponse 201 (JUploaded img))
           /\ images w' = images w ++ [img]
           /\ nextObjectId w' = S (nextObjectId w)
           /\ _id img = nextObjectId w
           /\ created_pending img)
  /\ (isMongoConnected (globals w) = true ->
      model_ready (globals w) = true ->
      up_file req <> None ->
      up Mongo w -> up Storage w ->
      exists img,
        r = inr (mkResponse 201 (JUploaded img))
        /\ images w' = images w ++ [img]
        /\ created_pending img).
Proof.
  cbv zeta.
  unfold uploadImage, run, isMongoDBConnected, isAIModelReady, uuidv4,
    getImageMetadata, isQdrantConnected, checkQdrantHealth,
    generateImageEmbedding, getQdrantClient.
  unfold model_ready, same_setup, created_pending.
  execute fail.
  all: cbn [andb].
  all: repeat match goal with |- _ /\ _ => split end; try reflexivity.
  all: try (intros; congruence).
  all: try (intros; refute_up).
  all: try (left; split; reflexivity).
  all: try (intros; split; reflexivity).
  all: try (right; eexists; repeat split; reflexivity).
  all: try (intros; eexists; repeat split; reflexivity).
Qed.

(* ================================================================== *)
(** * 20. The invariant across passes and uploads                   *)
(* ================================================================== *)

Lemma created_consistent r :
  created_completed r \/ created_pending r -> consistent r.
Proof.
  unfold consistent.
  intros [(H1 & H2 & _) | (H1 & H2 & _)]; rewrite H1, H2; split; congruence.
Qed.

(** New records with the next ids keep the invariant of the store. *)
Lemma store_inv_grow w w' imgs :
  store_inv w ->
  images w' = images w ++ imgs ->
  map _id imgs = seq (nextObjectId w) (length imgs) ->
  nextObjectId w' = nextObjectId w + length imgs ->
  Forall consistent imgs ->
  store_inv w'.
Proof.
  intros [[Hnd Hlt] Hc] Hi Hids Hn Hcs.
  unfold store_inv, unique_ids. rewrite Hi, Hn, map_app, Hids.
  repeat split.
  - apply NoDup_app; [exact Hnd | apply seq_NoDup |].
    intros i Hin Hseq. apply in_seq in Hseq.
    apply in_map_iff in Hin. destruct Hin as (r & <- & Hr).
    pose proof (proj1 (Forall_forall _ _) Hlt r Hr) as Hb. cbn in Hb. lia.
  - apply Forall_app. split.
    + eapply Forall_impl; [|exact Hlt]. cbn. intros; lia.
    + apply Forall_forall. intros r Hr.
      assert (In (_id r) (seq (nextObjectId w) (length imgs)))
        by (rewrite <- Hids; apply in_map; exact Hr).
      apply in_seq in H. lia.
  - apply Forall_app. split; assumption.
Qed.

Lemma uploadMultipleImages_store_inv req w :
  store_inv w -> store_inv (snd (run (uploadMultipleImages req) w)).
Proof.
  intros Hw.
  destruct (uploadMultipleImages_cases req w) as (H1 & H2 & H3).
  destruct (isMongoConnected (globals w)) eqn:Hm.
  - destruct (many_files req) as [[|file rest]|] eqn:Hf.
    + destruct (H2 eq_refl (or_intror eq_refl)) as [_ ->]. exact Hw.
    + destruct (H3 eq_refl (file :: rest) eq_refl) as
        (imgs & errs & _ & _ & _ & _ & Hi & Hids & Hn & Hs & _);
        [discriminate|].
      apply (store_inv_grow w _ imgs Hw Hi Hids Hn).
      eapply Forall_impl; [|exact Hs]. apply created_consistent.
    + destruct (H2 eq_refl (or_introl eq_refl)) as [_ ->]. exact Hw.
  - destruct (H1 eq_refl) as [_ ->]. exact Hw.
Qed.

Lemma uploadImage_store_inv req w :
  store_inv w -> store_inv (snd (run (uploadImage req) w)).
Proof.
  intros Hw.
  destruct (uploadImage_cases req w)
    as (_ & _ & _ & _ & [[Hi Hn] | (img & _ & Hi & Hn & Hid & Hp)] & _).
  - destruct Hw as [[Hnd Hlt] Hc].
    unfold store_inv, unique_ids. rewrite Hi, Hn. auto.
  - apply (store_inv_grow w _ [img] Hw Hi).
    + cbn [map length seq]. rewrite Hid. reflexivity.
    + rewrite Hn. cbn [length]. lia.
    + constructor; [|constructor]. apply created_consistent. right. exact Hp.
Qed.

(** C1.  Ids being unique, if every record has [isEmbedded = true]
    exactly when [embeddingStatus = 'completed'], then so it is after a
    pipeline pass, after [uploadMultipleImages] and after [uploadImage],
    whatever the request and whichever calls fail: the success update sets
    both fields, the failure update sets the status and leaves
    [isEmbedded] as it is, and only records that were not embedded are
    processed. *)
Theorem C1_isEmbedded_iff_completed (w : World) :
  unique_ids w ->
  (forall r, In r (images w) ->
             isEmbedded r = true <-> embeddingStatus r = completed) ->
  (forall w',
      w' = snd (run processPendingEmbeddings w)
      \/ (exists req, w' = snd (run (uploadMultipleImages req) w))
      \/ (exists req, w' = snd (run (uploadImage req) w)) ->
      unique_ids w'
      /\ forall r, In r (images w') ->
                   isEmbedded r = true <-> embeddingStatus r = completed)
  /\ (forall r,
        isEmbedded (apply_update SetCompleted r) = true
        /\ embeddingStatus (apply_update SetCompleted r) = completed)
  /\ (forall msg r,
        isEmbedded (apply_update (SetFailed msg) r) = isEmbedded r
        /\ embeddingStatus (apply_update (SetFailed msg) r) = failed).
Proof.
  intros Hu Hc.
  assert (Hw : store_inv w).
  { split; [exact Hu|]. apply Forall_forall. exact Hc. }
  split; [|split; intros; split; reflexivity].
  intros w' Hw'.
  assert (H : store_inv w').
  { destruct Hw' as [-> | [[req ->] | [req ->]]].
    - apply pass_store_inv. exact Hw.
    - apply uploadMultipleImages_store_inv. exact Hw.
    - apply uploadImage_store_inv. exact Hw. }
  destruct H as [H1 H2]. split; [exact H1|].
  intros r Hr. exact (proj1 (Forall_forall _ _) H2 r Hr).
Qed.

Lemma mixed_world_unique : unique_ids mixed_world.
Proof.
  split.
  - cbn. repeat constructor; cbn; intuition discriminate.
  - cbn. repeat constructor; cbv; lia.
Defined.

Lemma mixed_world_consistent r :
  In r (images mixed_world) ->
  isEmbedded r = true <-> embeddingStatus r = completed.
Proof.
  cbn. intros [<- | [<- | [<- | []]]]; cbn; split; discriminate.
Defined.

(** C1, an instance: after a pass over a store of three records, and after
    an upload of two files into it. *)
Lemma C1_isEmbedded_iff_completed_witness :
  (forall r, In r (images (snd (run processPendingEmbeddings mixed_world))) ->
             isEmbedded r = true <-> embeddingStatus r = completed)
  /\ (forall r,
        In r (images (snd (run (uploadMultipleImages two_files)
                             mixed_world))) ->
        isEmbedded r = true <-> embeddingStatus r = completed).
Proof.
  destruct (C1_isEmbedded_iff_completed mixed_world mixed_world_unique
              mixed_world_consistent) as [H _].
  split.
  - apply (H _ (or_introl eq_refl)).
  - apply (H _ (or_intror (or_introl (ex_intro _ two_files eq_refl)))).
Defined.

(* ================================================================== *)
(** * 21. Uploads and the embedding fast path                       *)
(* ================================================================== *)







(* ================================================================== *)
(** * 22. Search                                                    *)
(* ================================================================== *)

(** C7, refuted as stated.  A query while the index is flagged
    unavailable, the record store rejecting the count of unembedded
    records that comes first: the answer is the generic 500 of the
    handler, without a [searchType], not the 503 'unavailable'. *)
Lemma C7_count_rejected :
  no_query (s_query sunset_request) = false
  /\ index_healthy count_rejected_world
     && model_ready (globals count_rejected_world) = false
  /\ fst (run (searchImages sunset_request) count_rejected_world)
     = inr (mkResponse 500
              (JFailure "Error searching images" (Some "connection closed")
                 None))
  /\ fst (run (searchImages sunset_request) count_rejected_world)
     <> inr unavailable.
Proof.
  split; [reflexivity|]. split; [reflexivity|]. split; [reflexivity|].
  discriminate.
Qed.

(** C7 (as amended).  For a request with a query, when the index is not
    connected and healthy (flagged unavailable, or without a client, or
    failing its health probe) or the model is not ready: if the record
    store answers the count of unembedded records that comes first, the
    answer is 503 with [searchType = 'unavailable']; if it rejects the
    count, the answer is the 500 of the handler with the message of the
    error and no [searchType].  Either way neither [Image.find] nor a
    vector search has been called in place of the AI search. *)
Theorem C7_unavailable_no_fallback (req : SearchRequest) (w : World) :
  no_query (s_query req) = false ->
  index_healthy w && model_ready (globals w) = false ->
  (answers Mongo w ->
   fst (run (searchImages req) w) = inr unavailable)
  /\ (forall e, faults (env w) Mongo (calls w Mongo) = Some e ->
        fst (run (searchImages req) w)
        = inr (mkResponse 500
                 (JFailure "Error searching images" (Some (message e))
                    None)))
  /\ code unavailable = 503
  /\ success unavailable = false
  /\ searchType_of unavailable = Some "unavailable"
  /\ existsb is_search (since (trace w) (snd (run (searchImages req) w)))
     = false.
Proof.
  intros Hq Hdown. unfold index_healthy, model_ready in Hdown.
  unfold answers.
  unfold searchImages, run, isQdrantConnected, checkQdrantHealth,
    isAIModelReady, model_ready, generateTextEmbedding, getQdrantClient.
  rewrite Hq.
  execute fail.
  all: try (cbn [andb is_none] in Hdown; discriminate Hdown).
  all: split; [intros H; first [reflexivity | discriminate H]|].
  all: split; [intros e' H; first [discriminate H
                                  | injection H as <-; reflexivity]|].
  all: split; [reflexivity|]; split; [reflexivity|]; split; [reflexivity|].
  all: since_tac; reflexivity.
Qed.


(** ** Ranking *)

Section Ranking.

Context {A : Type} (key : A -> Z).






End Ranking.


(** ** The filters, against the words of the specification *)





(** ** The neighbour a record is scored by *)









Lemma demo_world_up a b l pts s : up s (demo_world a b no_faults l pts).
Proof. intros n. reflexivity. Defined.

(** C7, an instance: a query for "sunset" while the index is flagged
    unavailable. *)
Lemma C7_unavailable_no_fallback_witness :
  fst (run (searchImages sunset_request) index_down_world) = inr unavailable
  /\ existsb is_search
       (since (trace index_down_world)
          (snd (run (searchImages sunset_request) index_down_world)))
     = false.
Proof.
  destruct (C7_unavailable_no_fallback sunset_request index_down_world
              eq_refl eq_refl)
    as (H1 & _ & _ & _ & _ & H5).
  split; [exact (H1 eq_refl) | exact H5].
Defined.

(** C8.  For a request with a query that entered the AI path (the count
    of unembedded records answered, index connected and healthy, model
    ready): if the
    index holds no points or the embedding of the query is empty, the
    answer is a failure tagged [searchType = 'ai'] with status 500 or 400,
    and neither [Image.find] nor a vector search has been called: no
    fallback and no empty success.  With model and index answering it is
    the 500 carrying the message of the error thrown for the case. *)
Theorem C8_ai_search_hard_failure (req : SearchRequest) (w : World) :
  no_query (s_query req) = false ->
  answers Mongo w ->
  index_healthy w = true ->
  model_ready (globals w) = true ->
  points w = [] \/ query_embedding req w = [] ->
  exists resp,
    fst (run (searchImages req) w) = inr resp
    /\ success resp = false
    /\ searchType_of resp = Some "ai"
    /\ (code resp = 500 \/ code resp = 400)
    /\ existsb is_search (since (trace w) (snd (run (searchImages req) w)))
       = false
    /\ (up Model w -> up Qdrant w ->
        code resp = 500
        /\ (error_of resp = Some "Invalid embedding generated"
            \/ error_of resp
               = Some "No embedded images available for AI search")).
Proof.
  intros Hq HM Hh Hr Hcase.
  unfold index_healthy, model_ready in *.
  unfold query_embedding, query_of in Hcase.
  unfold searchImages, run, isQdrantConnected, checkQdrantHealth,
    isAIModelReady, model_ready, generateTextEmbedding, getQdrantClient.
  rewrite Hq.
  execute ltac:(exact HM).
  all: try (cbn [andb is_none] in Hh; discriminate Hh).
  all: try (cbn [andb is_none] in Hr; discriminate Hr).
  all: try (destruct Hcase as [Hcase|Hcase];
            match goal with
            | B : context [points _] |- _ =>
                rewrite Hcase in B; discriminate B
            | B : context [text_embedding _ _] |- _ =>
                rewrite Hcase in B; discriminate B
            end).
  all: eexists; split; [reflexivity|]; split; [reflexivity|];
    split; [reflexivity|]; split; [first [left; reflexivity
                                         | right; reflexivity]|];
    split; [since_tac; reflexivity|].
  all: try (intros; refute_up).
  all: intros _ _; split; [reflexivity|];
    first [left; reflexivity | right; reflexivity].
Qed.

(** C8, an instance: a query for "sunset" against an empty index. *)
Lemma C8_ai_search_hard_failure_witness :
  exists resp,
    fst (run (searchImages sunset_request) empty_index_world) = inr resp
    /\ success resp = false
    /\ searchType_of resp = Some "ai"
    /\ code resp = 500
    /\ error_of resp = Some "No embedded images available for AI search".
Proof.
  destruct (C8_ai_search_hard_failure sunset_request empty_index_world
              eq_refl eq_refl eq_refl eq_refl (or_introl eq_refl))
    as (resp & H1 & H2 & H3 & _ & _ & H6).
  exists resp. split; [exact H1|]. split; [exact H2|]. split; [exact H3|].
  destruct (H6 (demo_world_up _ _ _ _ Model) (demo_world_up _ _ _ _ Qdrant))
    as [H7 H8].
  split; [exact H7|].
  assert (E : fst (run (searchImages sunset_request) empty_index_world)
              = inr (mkResponse 500
                       (JFailure
                          "AI search encountered an error. Please try again later."
                          (Some "No embedded images available for AI search")
                          (Some "ai")))) by reflexivity.
  rewrite E in H1. injection H1 as <-. reflexivity.
Defined.

(* ================================================================== *)
(** * 23. Deletion                                                  *)
(* ================================================================== *)

Lemma find_by_id_id id l r : find_by_id id l = Some r -> _id r = id.
Proof.
  induction l as [|a l IH]; cbn; [discriminate|].
  destruct (Nat.eqb_spec (_id a) id) as [E|E]; [|exact IH].
  intros H. injection H as <-. exact E.
Qed.

Lemma find_by_id_deleted id l : find_by_id id (delete_by_id id l) = None.
Proof.
  unfold delete_by_id. induction l as [|a l IH]; cbn; [reflexivity|].
  destruct (Nat.eqb (_id a) id) eqn:E; cbn; [exact IH|].
  rewrite E. exact IH.
Qed.

Lemma delete_point_gone id l p :
  In p (delete_point id l) -> point_id p <> id.
Proof.
  unfold delete_point. intros H. apply filter_In in H.
  destruct H as [_ H]. apply negb_true_iff in H.
  apply String.eqb_neq. exact H.
Qed.

Lemma pull_image_gone id l c :
  In c (pull_image id l) -> ~ In id (coll_images c).
Proof.
  unfold pull_image. intros H. apply in_map_iff in H.
  destruct H as (c0 & <- & _). cbn. intros Hin. apply filter_In in Hin.
  destruct Hin as [_ Hin]. rewrite Nat.eqb_refl in Hin. discriminate.
Qed.

Lemma deleteImage_cases req w image :
  up Mongo w ->
  find_by_id (del_id req) (images w) = Some image ->
  user image = del_user req ->
  fst (run (deleteImage req) w) = inr deleted
  /\ images (snd (run (deleteImage req) w))
     = delete_by_id (del_id req) (images w)
  /\ collections (snd (run (deleteImage req) w))
     = pull_image (del_id req) (collections w)
  /\ points (snd (run (deleteImage req) w))
     = (if vector_deleted image w
        then delete_point (qdrantId image) (points w)
        else points w).
Proof.
  intros HM Hfind Huser.
  pose proof (find_by_id_id _ _ _ Hfind) as Hid.
  apply Nat.eqb_eq in Huser.
  unfold vector_deleted.
  unfold deleteImage, run, isQdrantConnected, getQdrantClient.
  rewrite <- Hid in *.
  execute ltac:(apply HM).
  all: cbn [andb is_none].
  all: repeat split; reflexivity.
Qed.

(** C9, refuted as stated.  The index is flagged unavailable and nothing
    fails: the owner's deletion is answered with the success, the record
    is gone from the store, no call has been made to the index, and the
    vector is still stored under the record's [qdrantId]. *)
Lemma C9_vector_left_behind :
  fst (run (deleteImage delete_first) delete_world_off) = inr deleted
  /\ find_by_id 1 (images (snd (run (deleteImage delete_first)
                                   delete_world_off))) = None
  /\ calls (snd (run (deleteImage delete_first) delete_world_off)) Qdrant = 0
  /\ qdrantId (embedded_record 1) = "q1"
  /\ In (demo_point "q1" 5 (Some 1))
        (points (snd (run (deleteImage delete_first) delete_world_off))).
Proof.
  split; [reflexivity|]. split; [reflexivity|]. split; [reflexivity|].
  split; [reflexivity|]. left. reflexivity.
Qed.

(** C9 (as amended).  Deleting a record its owner asks to delete, the
    record store answering: the answer is the success 200, the record is
    gone from the store and from every collection, whatever blob storage
    and the index do; and the point stored under the record's [qdrantId]
    is gone from the index when the index is flagged available, has a
    client, the record has a point id, and the index answers the
    deletion.  When the deletion is skipped, the index being flagged
    unavailable, or rejected, the index is left as it was and the rest is
    as before. *)
Theorem C9_delete_best_effort (req : DeleteRequest) (w : World)
  (image : Image) :
  up Mongo w ->
  find_by_id (del_id req) (images w) = Some image ->
  user image = del_user req ->
  fst (run (deleteImage req) w) = inr deleted
  /\ success deleted = true
  /\ find_by_id (del_id req) (images (snd (run (deleteImage req) w))) = None
  /\ images (snd (run (deleteImage req) w))
     = delete_by_id (del_id req) (images w)
  /\ (forall c, In c (collections (snd (run (deleteImage req) w))) ->
        ~ In (del_id req) (coll_images c))
  /\ (vector_deleted image w = true ->
      forall p, In p (points (snd (run (deleteImage req) w))) ->
        point_id p <> qdrantId image)
  /\ (vector_deleted image w = false ->
      points (snd (run (deleteImage req) w)) = points w).
Proof.
  intros HM Hfind Huser.
  destruct (deleteImage_cases req w image HM Hfind Huser)
    as (H1 & H2 & H3 & H4).
  split; [exact H1|]. split; [reflexivity|].
  split; [rewrite H2; apply find_by_id_deleted|].
  split; [exact H2|].
  split; [intros c Hc; rewrite H3 in Hc; eapply pull_image_gone; exact Hc|].
  split.
  - intros Hv p Hp. rewrite H4, Hv in Hp.
    eapply delete_point_gone. exact Hp.
  - intros Hv. rewrite H4, Hv. reflexivity.
Qed.

Lemma delete_world_Mongo : up Mongo delete_world.
Proof. intros n. reflexivity. Defined.

Lemma delete_world_up_Mongo : up Mongo delete_world_up.
Proof. intros n. reflexivity. Defined.

(** C9, two instances.  The index rejects the deletion: the record and its
    collection reference are deleted all the same, the answer is the
    success, the index is as it was.  The index answers: no point is left
    under the record's [qdrantId]. *)
Lemma C9_delete_best_effort_witness :
  vector_deleted (embedded_record 1) delete_world = false
  /\ fst (run (deleteImage delete_first) delete_world) = inr deleted
  /\ find_by_id 1 (images (snd (run (deleteImage delete_first) delete_world)))
     = None
  /\ points (snd (run (deleteImage delete_first) delete_world))
     = points delete_world
  /\ (forall p,
        In p (points (snd (run (deleteImage delete_first) delete_world_up))) ->
        point_id p <> "q1").
Proof.
  destruct (C9_delete_best_effort delete_first delete_world
              (embedded_record 1) delete_world_Mongo eq_refl eq_refl)
    as (H1 & _ & H3 & _ & _ & _ & H7).
  destruct (C9_delete_best_effort delete_first delete_world_up
              (embedded_record 1) delete_world_up_Mongo eq_refl eq_refl)
    as (_ & _ & _ & _ & _ & H6 & _).
  split; [reflexivity|]. split; [exact H1|]. split; [exact H3|].
  split; [apply H7; reflexivity|].
  apply H6. reflexivity.
Defined.

(* ================================================================== *)
(** * 24. Reading a record                                            *)
(* ================================================================== *)

(** No call has been made since. *)
Ltac since_nil := unfold since; norm; apply skipn_all.

Lemma getImage_cases req w :
  let r := fst (run (getImage req) w) in
  let w' := snd (run (getImage req) w) in
  globals w' = globals w /\ env w' = env w /\ images w' = images w
  /\ points w' = points w /\ collections w' = collections w
  /\ since (trace w) w' = [Called (ImageFindById (get_id req))]
  /\ match faults (env w) Mongo (calls w Mongo) with
     | Some _ =>
         r = inr (mkResponse 500 (JFailure "Error fetching image" None None))
     | None =>
         match find_by_id (get_id req) (images w) with
         | None =>
             r = inr (mkResponse 404 (JFailure "Image not found" None None))
         | Some image =>
             if Nat.eqb (user image) (get_user req) || isPublic image
             then r = inr (mkResponse 200 (JUploaded image))
             else r = inr (mkResponse 403
                             (JFailure "Not authorized to access this image"
                                None None))
         end
     end.
Proof.
  cbv zeta. unfold getImage, run.
  execute fail.
  all: repeat split; try reflexivity; try (since_tac; reflexivity).
  all: try (rewrite B in *; cbn in *; congruence).
Qed.

(** X14.  [getImage] never throws and makes one call, the lookup by id,
    changing nothing.  With the record store answering: an unknown id is
    answered 404, a record that is neither the requester's nor public 403, and
    otherwise 200 with the stored record.  So an answer carries a record only
    if that record is stored under the requested id and is the requester's own
    or public; a failed lookup is answered 500, and no failure carries error
    details. *)
Theorem getImage_access_control (req : GetRequest) (w : World) :
  (exists resp, fst (run (getImage req) w) = inr resp
     /\ match body resp with
        | JUploaded image =>
            code resp = 200
            /\ find_by_id (get_id req) (images w) = Some image
            /\ (user image = get_user req \/ isPublic image = true)
        | JFailure _ details _ =>
            details = None
            /\ (code resp = 404 \/ code resp = 403 \/ code resp = 500)
        | _ => False
        end)
  /\ (answers Mongo w ->
      match find_by_id (get_id req) (images w) with
      | None => fst (run (getImage req) w)
                = inr (mkResponse 404 (JFailure "Image not found" None None))
      | Some image =>
          (user image <> get_user req -> isPublic image = false ->
           fst (run (getImage req) w)
           = inr (mkResponse 403
                    (JFailure "Not authorized to access this image" None None)))
          /\ (user image = get_user req \/ isPublic image = true ->
              fst (run (getImage req) w)
              = inr (mkResponse 200 (JUploaded image)))
      end)
  /\ since (trace w) (snd (run (getImage req) w))
     = [Called (ImageFindById (get_id req))]
  /\ images (snd (run (getImage req) w)) = images w
  /\ points (snd (run (getImage req) w)) = points w
  /\ collections (snd (run (getImage req) w)) = collections w
  /\ globals (snd (run (getImage req) w)) = globals w.
Proof.
  destruct (getImage_cases req w) as (Hg & _ & Hi & Hp & Hc & Ht & Hr).
  cbv zeta in *.
  split; [|split; [|repeat split; assumption]].
  - destruct (faults (env w) Mongo (calls w Mongo)).
    { eexists. split; [exact Hr|]. cbn. auto. }
    destruct (find_by_id (get_id req) (images w)) as [image|].
    + destruct (Nat.eqb_spec (user image) (get_user req)) as [E|E];
        cbn [orb] in Hr.
      * eexists. split; [exact Hr|]. cbn. auto.
      * destruct (isPublic image) eqn:P.
        -- eexists. split; [exact Hr|]. cbn. auto.
        -- eexists. split; [exact Hr|]. cbn. auto.
    + eexists. split; [exact Hr|]. cbn. auto.
  - unfold answers. intros HM. rewrite HM in Hr.
    destruct (find_by_id (get_id req) (images w)) as [image|]; [|exact Hr].
    split.
    + intros Hu Hp'. apply Nat.eqb_neq in Hu. rewrite Hu, Hp' in Hr. exact Hr.
    + intros [Hu|Hp'].
      * apply Nat.eqb_eq in Hu. rewrite Hu in Hr. exact Hr.
      * rewrite Hp', orb_true_r in Hr. exact Hr.
Qed.

(** X14, two instances: the private record 1 of user 7 is refused to user 8
    and returned to its owner. *)
Lemma getImage_access_control_witness :
  fst (run (getImage (mkGet 8 1)) search_world)
  = inr (mkResponse 403
           (JFailure "Not authorized to access this image" None None))
  /\ fst (run (getImage (mkGet 7 1)) search_world)
     = inr (mkResponse 200 (JUploaded (embedded_record 1))).
Proof.
  destruct (getImage_access_control (mkGet 8 1) search_world) as (_ & H & _).
  destruct (getImage_access_control (mkGet 7 1) search_world) as (_ & H' & _).
  specialize (H eq_refl). specialize (H' eq_refl). cbn in H, H'.
  destruct H as [H _]. destruct H' as [_ H'].
  split.
  - apply H; [discriminate | reflexivity].
  - apply H'. left. reflexivity.
Defined.

(* ================================================================== *)
(** * 25. Health and service status                                   *)
(* ================================================================== *)

(** The probe made by [checkQdrantHealth] when the index is flagged
    available, and what it leaves in [isQdrantAvailable]. *)
Lemma health_cases w :
  let r := fst (run health w) in
  let w' := snd (run health w) in
  let probed := isQdrantAvailable (globals w) && qdrantClient (globals w) in
  env w' = env w /\ images w' = images w /\ points w' = points w
  /\ collections w' = collections w
  /\ same_setup (globals w) (globals w')
  /\ since (trace w) w'
     = (if probed then [Called QdrantGetCollections] else [])
  /\ calls w' Mongo = calls w Mongo
  /\ isQdrantAvailable (globals w')
     = (if probed then is_none (faults (env w) Qdrant (calls w Qdrant))
        else isQdrantAvailable (globals w))
  /\ exists h,
       r = inr h
       /\ health_code h
          = (if isMongoConnected (globals w) && model_ready (globals w)
             then 200 else 503)
       /\ database_status h
          = (if isMongoConnected (globals w) then "connected"
             else "disconnected")
       /\ aiModel_status h
          = (if model_ready (globals w) then "ready" else "unavailable")
       /\ vectorDB_status h
          = (if index_healthy w then "connected" else "disconnected")
       /\ imageView h = isMongoConnected (globals w)
       /\ textSearch h = isMongoConnected (globals w)
       /\ aiSearch h = isMongoConnected (globals w) && index_healthy w.
Proof.
  cbv zeta.
  unfold health, run, isMongoDBConnected, isQdrantConnected,
    checkQdrantHealth, isAIModelReady, index_healthy, model_ready,
    same_setup.
  execute fail.
  all: cbn [andb is_none].
  all: repeat match goal with |- _ /\ _ => split end;
    try reflexivity; try (since_tac; reflexivity); try since_nil;
    try congruence.
  all: eexists; repeat split; try reflexivity; try congruence.
Qed.

(** X17.  [GET /health] cannot fail.  It answers 200 exactly when the
    database is flagged connected and the model is ready, and 503 otherwise:
    the vector index has no part in the status code.  It reports the index as
    connected exactly when the index is flagged available, has a client and
    answers the probe.  It makes no call to the record store and at most one
    call in all, the probe of the index, and leaves records, points and
    collections as they are. *)
Theorem health_never_fails (w : World) :
  exists h,
    fst (run health w) = inr h
    /\ (health_code h = 200 <->
        isMongoConnected (globals w) = true /\ model_ready (globals w) = true)
    /\ (health_code h = 200 \/ health_code h = 503)
    /\ (vectorDB_status h = "connected" <-> index_healthy w = true)
    /\ aiSearch h = isMongoConnected (globals w) && index_healthy w
    /\ calls (snd (run health w)) Mongo = calls w Mongo
    /\ (since (trace w) (snd (run health w)) = []
        \/ since (trace w) (snd (run health w))
           = [Called QdrantGetCollections])
    /\ images (snd (run health w)) = images w
    /\ points (snd (run health w)) = points w
    /\ collections (snd (run health w)) = collections w.
Proof.
  destruct (health_cases w)
    as (_ & Hi & Hp & Hc & _ & Ht & Hm & _ & h & Hr & Hcode & _ & _ & Hv & _
        & _ & Ha).
  cbv zeta in *.
  exists h. split; [exact Hr|].
  split.
  { rewrite Hcode.
    destruct (isMongoConnected (globals w)), (model_ready (globals w));
      cbn; split; try tauto; try discriminate; intros [? ?]; discriminate. }
  split.
  { rewrite Hcode.
    destruct (isMongoConnected (globals w) && model_ready (globals w)); auto. }
  split.
  { rewrite Hv. destruct (index_healthy w); split; congruence. }
  split; [exact Ha|]. split; [exact Hm|].
  split.
  { rewrite Ht.
    destruct (isQdrantAvailable (globals w) && qdrantClient (globals w));
      auto. }
  auto.
Qed.

Lemma filter_everything (A : Type) (l : list A) :
  filter (fun _ => true) l = l.
Proof. induction l as [|a l IH]; cbn; congruence. Qed.

Lemma nth_mod_In (A : Type) (k : nat) (a : A) (l : list A) :
  In (nth (k mod S (length l)) (a :: l) a) (a :: l).
Proof.
  apply nth_In. cbn [length]. apply Nat.mod_upper_bound. discriminate.
Qed.

Lemma stats_counts userId re l :
  mkStats
    (length (filter (matches re (nth 0 (stats_queries userId) FAll)) l))
    (length (filter (matches re (nth 1 (stats_queries userId) FAll)) l))
    (length (filter (matches re (nth 2 (stats_queries userId) FAll)) l))
    (length (filter (matches re (nth 3 (stats_queries userId) FAll)) l))
    (length (filter (matches re (nth 4 (stats_queries userId) FAll)) l))
    (percentage
       (length (filter (matches re (nth 1 (stats_queries userId) FAll)) l))
       (length (filter (matches re (nth 0 (stats_queries userId) FAll)) l)))
  = stats_of userId l.
Proof.
  unfold stats_of, stats_queries. cbn [nth].
  assert (E0 : length (filter (matches re
                                 match userId with
                                 | Some u => FUser u
                                 | None => FAll
                                 end) l)
               = count (in_scope userId) l).
  { apply count_ext. intros r. apply scope_query. }
  assert (E1 : forall (q : Filter) (g : Image -> bool),
             (forall r, matches re q r = g r) ->
             length
               (filter
                  (matches re
                     (FAnd match userId with
                           | Some u => FUser u
                           | None => FAll
                           end q)) l)
             = count (fun r => in_scope userId r && g r) l).
  { intros q g Hq. apply count_ext. intros r. cbn [matches].
    rewrite scope_query, Hq. reflexivity. }
  rewrite E0.
  rewrite (E1 (FIsEmbedded true) isEmbedded)
    by (intros r; cbn; destruct (isEmbedded r); reflexivity).
  rewrite (E1 (FStatus pending) (has_status pending)) by reflexivity.
  rewrite (E1 (FStatus processing) (has_status processing)) by reflexivity.
  rewrite (E1 (FAnd (FStatus failed) (FAttemptsLt MAX_EMBEDDING_ATTEMPTS))
             retryable) by reflexivity.
  reflexivity.
Qed.

Lemma settle_all_counts qs :
  forall w,
    run (settle_all (map ImageCountDocuments qs)) w
    = (inr (count_outcomes (env w) (images w) (calls w Mongo) qs),
       counted qs w).
Proof.
  induction qs as [|q rest IH]; intros w; [reflexivity|].
  cbn [map settle_all count_outcomes counted fold_left].
  rewrite run_bind, run_settle.
  assert (E : perform (ImageCountDocuments q) w
              = (match faults (env w) Mongo (calls w Mongo) with
                 | Some err => inl err
                 | None =>
                     inr (length (filter (matches (regex_i (env w)) q)
                                    (images w)))
                 end,
                 record_call (ImageCountDocuments q) w)).
  { unfold perform. cbn [service_of].
    destruct (faults (env w) Mongo (calls w Mongo)); reflexivity. }
  rewrite E. cbn [fst snd]. rewrite run_bind, IH.
  cbn [run run_among record_call env images calls count_call service_of
       Service_eqb].
  reflexivity.
Qed.

Lemma counted_same qs :
  forall w,
    globals (counted qs w) = globals w /\ env (counted qs w) = env w
    /\ images (counted qs w) = images w /\ points (counted qs w) = points w
    /\ collections (counted qs w) = collections w
    /\ nextObjectId (counted qs w) = nextObjectId w
    /\ calls (counted qs w) Mongo = length qs + calls w Mongo
    /\ calls (counted qs w) Qdrant = calls w Qdrant
    /\ calls (counted qs w) Model = calls w Model
    /\ calls (counted qs w) Storage = calls w Storage
    /\ trace (counted qs w)
       = trace w ++ map (fun q => Called (ImageCountDocuments q)) qs.
Proof.
  induction qs as [|q rest IH]; intros w.
  - cbn. rewrite app_nil_r. repeat split; reflexivity.
  - cbn [counted fold_left].
    destruct (IH (record_call (ImageCountDocuments q) w))
      as (H1 & H2 & H3 & H4 & H5 & H6 & H7 & H8 & H9 & H10 & H11).
    unfold counted in *.
    rewrite H1, H2, H3, H4, H5, H6, H7, H8, H9, H10, H11.
    cbn [record_call globals env images points collections nextObjectId
         calls trace count_call service_of Service_eqb length map].
    rewrite <- app_assoc.
    repeat split; try reflexivity. lia.
Qed.

Lemma count_outcomes_rejection e l qs :
  forall k err,
    In err (rejections (count_outcomes e l k qs)) ->
    exists n, n < length qs /\ faults e Mongo (k + n) = Some err.
Proof.
  induction qs as [|q rest IH]; intros k err H; [destruct H|].
  cbn [count_outcomes rejections] in H.
  destruct (faults e Mongo k) as [e0|] eqn:F.
  - destruct H as [<- | H].
    + exists 0. cbn [length]. rewrite Nat.add_0_r. split; [lia | exact F].
    + destruct (IH _ _ H) as (n & Hn & Hf). exists (S n).
      cbn [length]. rewrite Nat.add_succ_r. split; [lia | exact Hf].
  - destruct (IH _ _ H) as (n & Hn & Hf). exists (S n).
    cbn [length]. rewrite Nat.add_succ_r. split; [lia | exact Hf].
Qed.

Lemma count_outcomes_answered e l qs :
  forall k,
    (forall n, n < length qs -> faults e Mongo (k + n) = None) ->
    rejections (count_outcomes e l k qs) = []
    /\ answers_of (count_outcomes e l k qs)
       = map (fun q => length (filter (matches (regex_i e) q) l)) qs.
Proof.
  induction qs as [|q rest IH]; intros k H; [split; reflexivity|].
  cbn [count_outcomes]. pose proof (H 0 ltac:(cbn; lia)) as H0.
  rewrite Nat.add_0_r in H0. rewrite H0.
  cbn [rejections answers_of map].
  destruct (IH (S k)) as [E1 E2].
  { intros n Hn. rewrite Nat.add_succ_l, <- Nat.add_succ_r. apply H.
    cbn [length]. lia. }
  rewrite E1, E2. split; reflexivity.
Qed.

Lemma count_outcomes_no_rejection e l qs :
  forall k,
    rejections (count_outcomes e l k qs) = [] ->
    forall n, n < length qs -> faults e Mongo (k + n) = None.
Proof.
  induction qs as [|q rest IH]; intros k H n Hn; [cbn in Hn; lia|].
  cbn [count_outcomes rejections] in H.
  destruct (faults e Mongo k) as [e0|] eqn:F; [discriminate H|].
  destruct n as [|n]; [rewrite Nat.add_0_r; exact F|].
  rewrite Nat.add_succ_r, <- Nat.add_succ_l. apply (IH (S k) H).
  cbn [length] in Hn. lia.
Qed.

(** [getEmbeddingStats] under any pattern of failing calls: the five
    counts are all asked for; it returns the statistics when all five are
    answered and throws one of the rejections otherwise. *)
Lemma getEmbeddingStats_cases userId w :
  let r := fst (run (getEmbeddingStats userId) w) in
  let w' := snd (run (getEmbeddingStats userId) w) in
  globals w' = globals w /\ env w' = env w /\ images w' = images w
  /\ points w' = points w /\ collections w' = collections w
  /\ nextObjectId w' = nextObjectId w
  /\ calls w' Mongo = 5 + calls w Mongo
  /\ calls w' Qdrant = calls w Qdrant
  /\ calls w' Model = calls w Model
  /\ calls w' Storage = calls w Storage
  /\ since (trace w) w'
     = map (fun q => Called (ImageCountDocuments q)) (stats_queries userId)
  /\ (forall st, r = inr st ->
        st = stats_of userId (images w)
        /\ forall n, n < 5 -> faults (env w) Mongo (calls w Mongo + n) = None)
  /\ (forall e, r = inl e ->
        exists n, n < 5 /\ faults (env w) Mongo (calls w Mongo + n) = Some e)
  /\ ((forall n, n < 5 -> faults (env w) Mongo (calls w Mongo + n) = None) ->
      r = inr (stats_of userId (images w))).
Proof.
  cbv zeta.
  assert (Hrun : run (getEmbeddingStats userId) w
                 = match rejections
                           (count_outcomes (env w) (images w) (calls w Mongo)
                              (stats_queries userId)) with
                   | [] => (inr (stats_of userId (images w)),
                            counted (stats_queries userId) w)
                   | e :: es =>
                       (inl (nth (settles_first (globals w) (S (length es))
                                  mod S (length es)) (e :: es) e),
                        counted (stats_queries userId) w)
                   end).
  { unfold getEmbeddingStats, Promise_all.
    change [ImageCountDocuments ?a; ImageCountDocuments ?b;
            ImageCountDocuments ?c; ImageCountDocuments ?d;
            ImageCountDocuments ?e]
      with (map ImageCountDocuments [a; b; c; d; e]).
    fold (stats_queries userId).
    rewrite !run_bind, settle_all_counts.
    destruct (rejections _) as [|e es] eqn:Hrej.
    - destruct (count_outcomes_answered (env w) (images w)
                  (stats_queries userId) (calls w Mongo)
                  (count_outcomes_no_rejection _ _ _ _ Hrej)) as [_ ->].
      cbn [run run_among]. f_equal. f_equal.
      rewrite <- (stats_counts userId (regex_i (env w)) (images w)).
      reflexivity.
    - rewrite run_bind.
      change (run get (counted (stats_queries userId) w))
        with (@inr JsError Globals
                (globals (counted (stats_queries userId) w)),
              counted (stats_queries userId) w).
      cbv beta iota. cbn [run run_among].
      destruct (counted_same (stats_queries userId) w) as (-> & _).
      reflexivity. }
  rewrite Hrun.
  destruct (counted_same (stats_queries userId) w)
    as (H1 & H2 & H3 & H4 & H5 & H6 & H7 & H8 & H9 & H10 & H11).
  assert (Hs : since (trace w) (counted (stats_queries userId) w)
               = map (fun q => Called (ImageCountDocuments q))
                   (stats_queries userId)).
  { unfold since. rewrite H11, skipn_app, skipn_all, Nat.sub_diag.
    reflexivity. }
  destruct (rejections _) as [|e es] eqn:Hrej; cbn [fst snd].
  - pose proof (count_outcomes_no_rejection _ _ _ _ Hrej) as Hnone.
    repeat match goal with |- _ /\ _ => split end; try assumption.
    + intros st E. injection E as <-. split; [reflexivity | exact Hnone].
    + intros e E. discriminate E.
    + intros _. reflexivity.
  - repeat match goal with |- _ /\ _ => split end; try assumption.
    + intros st E. discriminate E.
    + intros e' E. injection E as <-.
      apply (count_outcomes_rejection (env w) (images w)
               (stats_queries userId)).
      rewrite Hrej. apply nth_mod_In.
    + intros Hnone. exfalso.
      destruct (count_outcomes_answered (env w) (images w)
                  (stats_queries userId) (calls w Mongo) Hnone) as [E _].
      congruence.
Qed.

Lemma getServiceStatus_cases w :
  let r := fst (run getServiceStatus w) in
  let w' := snd (run getServiceStatus w) in
  let probed := isQdrantAvailable (globals w) && qdrantClient (globals w) in
  env w' = env w /\ images w' = images w /\ points w' = points w
  /\ collections w' = collections w /\ nextObjectId w' = nextObjectId w
  /\ same_setup (globals w) (globals w')
  /\ uuidCount (globals w') = uuidCount (globals w)
  /\ calls w' Qdrant
     = (if probed then S (calls w Qdrant) else calls w Qdrant)
  /\ calls w' Model = calls w Model
  /\ calls w' Storage = calls w Storage
  /\ isQdrantAvailable (globals w')
     = (if probed then is_none (faults (env w) Qdrant (calls w Qdrant))
        else isQdrantAvailable (globals w))
  /\ (forall st, r = inr st ->
        calls w' Mongo = 5 + calls w Mongo
        /\ database_available st = isMongoConnected (globals w)
        /\ aiModel_available st = model_ready (globals w)
        /\ vectorDB_available st = index_healthy w
        /\ canUpload st = isMongoConnected (globals w)
        /\ canSearch st = isMongoConnected (globals w)
        /\ aiSearchAvailable st
           = isMongoConnected (globals w) && index_healthy w
             && model_ready (globals w)
        /\ embedding_total st = length (images w)
        /\ aiModel_impact st
           = (if model_ready (globals w) then None
              else Some "Images uploaded without embeddings (will be processed when available)"))
  /\ (forall e, r = inl e -> exists n, faults (env w) Mongo n = Some e)
  /\ (up Mongo w -> exists st, r = inr st).
Proof.
  cbv zeta.
  unfold getServiceStatus, run, isMongoDBConnected, isQdrantConnected,
    checkQdrantHealth, isAIModelReady, index_healthy, model_ready,
    same_setup.
  execute fail.
  all: match goal with
       | |- context [run_among idle (bind (getEmbeddingStats None) ?k) ?w1] =>
           change (run_among idle (bind (getEmbeddingStats None) k) w1)
             with (run (bind (getEmbeddingStats None) k) w1);
           rewrite run_bind;
           pose proof (getEmbeddingStats_cases None w1) as H;
           cbv zeta in H;
           destruct (run (getEmbeddingStats None) w1) as [[e|st] w2];
           cbn [fst snd] in H;
           destruct H as (G1 & G2 & G3 & G4 & G5 & G6 & G7 & G8 & G9 & G10
                          & _ & Gst & Ge & Gup)
       end.
  all: cbn [run run_among fst snd].
  all: rewrite ?G1, ?G2, ?G3, ?G4, ?G5, ?G6, ?G7, ?G8, ?G9, ?G10.
  all: norm; cbn [andb is_none].
  all: repeat match goal with |- _ /\ _ => split end;
    try reflexivity; try congruence.
  all: try (intros st' E; discriminate E).
  all: try (intros e' E; discriminate E).
  all: try (intros e' E; injection E as <-;
            destruct (Ge e eq_refl) as (n & _ & Hn); eexists; exact Hn).
  all: try (intros Hup; exfalso;
            assert (E : @inl JsError EmbeddingStats e
                        = inr (stats_of None (images w)));
            [apply Gup; intros n _; apply Hup | discriminate E]).
  all: try (intros; eexists; reflexivity).
  all: intros st' E; injection E as <-;
    destruct (Gst st eq_refl) as [-> _]; cbn.
  all: repeat split; try reflexivity; try congruence.
  all: unfold count; apply f_equal, filter_everything.
Qed.

(** A request with a query, the count of unembedded records answered: the
    answer is of type 'ai', success or failure, when the index is healthy
    and the model ready, and the refusal 'unavailable' otherwise. *)
Lemma searchImages_type req w :
  no_query (s_query req) = false ->
  answers Mongo w ->
  exists resp,
    fst (run (searchImages req) w) = inr resp
    /\ (if index_healthy w && model_ready (globals w)
        then searchType_of resp = Some "ai"
        else resp = unavailable).
Proof.
  intros Hq HM.
  unfold index_healthy, model_ready.
  unfold searchImages, run, isQdrantConnected, checkQdrantHealth,
    isAIModelReady, model_ready, generateTextEmbedding, getQdrantClient.
  rewrite Hq.
  execute ltac:(exact HM).
  all: cbn [andb is_none].
  all: eexists; split; reflexivity.
Qed.

Lemma model_ready_same_setup g g' :
  same_setup g g' -> model_ready g' = model_ready g.
Proof.
  intros (_ & H1 & H2 & H3 & H4 & H5 & _). unfold model_ready.
  rewrite H1, H2, H3, H4, H5. reflexivity.
Qed.

(** X15.  What [getServiceStatus] reports as [aiSearchAvailable] is what a
    search issued next meets.  Reported available: a request with a query,
    the record store and the index answering their next call, gets an answer
    of type 'ai'.  Reported unavailable while the database is flagged
    connected: the request is refused as 'unavailable' (503), whatever the
    index does by then, since a failed probe has cleared
    [isQdrantAvailable]. *)
Theorem status_agrees_with_search (w : World) (st : ServiceStatus)
  (req : SearchRequest) :
  fst (run getServiceStatus w) = inr st ->
  no_query (s_query req) = false ->
  answers Mongo (snd (run getServiceStatus w)) ->
  (aiSearchAvailable st = true ->
   answers Qdrant (snd (run getServiceStatus w)) ->
   exists resp,
     fst (run (searchImages req) (snd (run getServiceStatus w))) = inr resp
     /\ searchType_of resp = Some "ai")
  /\ (aiSearchAvailable st = false ->
      isMongoConnected (globals w) = true ->
      fst (run (searchImages req) (snd (run getServiceStatus w)))
      = inr unavailable).
Proof.
  intros Hst Hq HM.
  destruct (getServiceStatus_cases w)
    as (He & _ & _ & _ & _ & Hs & _ & Hcq & _ & _ & Hflag & Hok & _).
  cbv zeta in *.
  destruct (Hok st Hst) as (_ & _ & _ & _ & _ & _ & Hai & _).
  pose proof (model_ready_same_setup _ _ Hs) as Hmr.
  destruct Hs as (Hcl & _).
  destruct (searchImages_type req _ Hq HM) as (resp & Hrun & Hty).
  rewrite Hmr in Hty. unfold index_healthy in Hty, Hai.
  rewrite Hflag, Hcl, Hcq, He in Hty.
  split.
  - intros Ha HQ. rewrite Ha in Hai. symmetry in Hai.
    apply andb_true_iff in Hai. destruct Hai as [Hai Hr].
    apply andb_true_iff in Hai. destruct Hai as [_ Hh].
    apply andb_true_iff in Hh. destruct Hh as [Hh Hf].
    apply andb_true_iff in Hh. destruct Hh as [Hfl Hc].
    unfold answers in HQ. rewrite Hcq, He, Hfl, Hc in HQ. cbn [andb] in HQ.
    rewrite Hfl, Hc, Hf, Hr in Hty. cbn [andb] in Hty. rewrite HQ in Hty.
    exists resp. split; [exact Hrun | exact Hty].
  - intros Ha Hm. rewrite Ha, Hm in Hai. cbn [andb] in Hai.
    rewrite Hrun. f_equal.
    destruct (isQdrantAvailable (globals w)) eqn:Hfl; cbn [andb] in Hty, Hai;
      [|exact Hty].
    destruct (qdrantClient (globals w)) eqn:Hc; cbn [andb] in Hty, Hai;
      [|exact Hty].
    destruct (faults (env w) Qdrant (calls w Qdrant)) as [e|] eqn:Hf;
      cbn [is_none andb] in Hty, Hai; [exact Hty|].
    rewrite <- Hai in Hty.
    destruct (is_none (faults (env w) Qdrant (S (calls w Qdrant))));
      exact Hty.
Qed.

(** X15, two instances.  Everything up: availability is reported and the
    query for "sunset" is answered by the AI path.  The index flagged
    unavailable: unavailability is reported and the query is refused. *)
Lemma status_agrees_with_search_witness :
  (exists st resp,
      fst (run getServiceStatus search_world) = inr st
      /\ aiSearchAvailable st = true
      /\ fst (run (searchImages sunset_request)
                (snd (run getServiceStatus search_world))) = inr resp
      /\ searchType_of resp = Some "ai")
  /\ (exists st,
        fst (run getServiceStatus index_down_world) = inr st
        /\ aiSearchAvailable st = false
        /\ fst (run (searchImages sunset_request)
                  (snd (run getServiceStatus index_down_world)))
           = inr unavailable).
Proof.
  split.
  - eexists. 
    destruct (status_agrees_with_search search_world _ sunset_request
                eq_refl eq_refl eq_refl) as [H _].
    destruct (H eq_refl eq_refl) as (resp & H1 & H2).
    exists resp. repeat split; assumption.
  - eexists.
    destruct (status_agrees_with_search index_down_world _ sunset_request
                eq_refl eq_refl eq_refl) as [_ H].
    split; [reflexivity|]. split; [reflexivity|].
    apply H; reflexivity.
Defined.

(** X16.  [getServiceStatus] reports [canUpload] and [canSearch] by the
    database flag alone.  With the database connected and the model not
    ready it reports [canUpload = true] and notes that images are uploaded
    without embeddings.  That is what [uploadMultipleImages] then does (201,
    every record it creates pending), while [uploadImage] answers 503 and
    stores nothing. *)
Theorem canUpload_ignores_model (w : World) (st : ServiceStatus) :
  fst (run getServiceStatus w) = inr st ->
  isMongoConnected (globals w) = true ->
  model_ready (globals w) = false ->
  canUpload st = true
  /\ canSearch st = true
  /\ aiModel_available st = false
  /\ aiModel_impact st
     = Some "Images uploaded without embeddings (will be processed when available)"
  /\ (forall single,
        fst (run (uploadImage single) (snd (run getServiceStatus w)))
        = inr (mkResponse 503
                 (JFailure
                    "AI model is currently unavailable. Image uploads are temporarily disabled."
                    None None))
        /\ snd (run (uploadImage single) (snd (run getServiceStatus w)))
           = snd (run getServiceStatus w))
  /\ (forall many files,
        many_files many = Some files -> files <> [] ->
        exists imgs errs,
          fst (run (uploadMultipleImages many) (snd (run getServiceStatus w)))
          = inr (mkResponse 201
                   (JUploadedMany imgs (length imgs) (length files)
                      (if Nat.ltb 0 (length errs) then Some errs else None)))
          /\ Forall created_pending imgs).
Proof.
  intros Hst Hm Hr.
  destruct (getServiceStatus_cases w)
    as (_ & _ & _ & _ & _ & Hs & _ & _ & _ & _ & _ & Hok & _).
  cbv zeta in *.
  destruct (Hok st Hst) as (_ & _ & Ha & _ & Hu & Hsr & _ & _ & Hi).
  pose proof (model_ready_same_setup _ _ Hs) as Hmr.
  assert (Hm1 : isMongoConnected (globals (snd (run getServiceStatus w)))
                = true).
  { destruct Hs as (_ & _ & _ & _ & _ & _ & Hmc & _). congruence. }
  rewrite Hr in *. rewrite Hm in *.
  split; [exact Hu|]. split; [exact Hsr|]. split; [exact Ha|].
  split; [exact Hi|]. split.
  - intros single.
    destruct (uploadImage_cases single (snd (run getServiceStatus w)))
      as (_ & _ & _ & H & _).
    exact (H Hm1 Hmr).
  - intros many files Hf Hne.
    destruct (uploadMultipleImages_cases many (snd (run getServiceStatus w)))
      as (_ & _ & H).
    destruct (H Hm1 files Hf Hne)
      as (imgs & errs & Hrun & _ & _ & _ & _ & _ & _ & _ & Hp & _).
    exists imgs, errs. split; [exact Hrun|].
    apply Hp. left. exact Hmr.
Qed.

(** X16, an instance: the model not loaded, the database connected. *)
Lemma canUpload_ignores_model_witness :
  exists st,
    fst (run getServiceStatus no_model_world) = inr st
    /\ canUpload st = true
    /\ fst (run (uploadImage single_upload)
              (snd (run getServiceStatus no_model_world)))
       = inr (mkResponse 503
                (JFailure
                   "AI model is currently unavailable. Image uploads are temporarily disabled."
                   None None)).
Proof.
  eexists.
  destruct (canUpload_ignores_model no_model_world _ eq_refl eq_refl eq_refl)
    as (H1 & _ & _ & _ & H5 & _).
  split; [reflexivity|]. split; [exact H1|].
  exact (proj1 (H5 single_upload)).
Defined.

(* ================================================================== *)
(** * 26. Uploads: accounting                                         *)
(* ================================================================== *)

(** What one file of an upload leaves behind, beyond [uploadFile_cases]. *)
Lemma uploadFile_record u ai file w :
  let r := fst (run (uploadFile u ai file) w) in
  let w' := snd (run (uploadFile u ai file) w) in
  let g := globals w in
  pendingTriggers (globals w') = pendingTriggers g
  /\ lib (globals w') = lib g
  /\ clock (globals w') = clock g
  /\ uuidCount g <= uuidCount (globals w')
  /\ match r with
     | inl e => True
     | inr img =>
         originalName img = originalname file
         /\ user img = u
         /\ isPublic img = false
         /\ qdrantId img = uuidv4_nth (lib g) (S (uuidCount g))
         /\ filename img
            = (uuidv4_nth (lib g) (uuidCount g)
               ++ path_extname (lib g) (originalname file))%string
         /\ filePath img = blob_url (env w) (filename img)
         /\ uuidCount (globals w') = 2 + uuidCount g
     end.
Proof.
  cbv zeta.
  unfold uploadFile, run, uuidv4, getImageMetadata, isQdrantConnected,
    checkQdrantHealth, generateImageEmbedding, getQdrantClient.
  execute fail.
  all: repeat split; try reflexivity; try lia.
Qed.

Lemma uploadFiles_outcomes u ai files :
  forall uploaded errors w,
  exists imgs errs,
    fst (run (uploadFiles u ai files uploaded errors) w)
    = inr (uploaded ++ imgs, errors ++ errs)
    /\ outcomes u files imgs errs
    /\ images (snd (run (uploadFiles u ai files uploaded errors) w))
       = images w ++ imgs
    /\ pendingTriggers
         (globals (snd (run (uploadFiles u ai files uploaded errors) w)))
       = pendingTriggers (globals w).
Proof.
  induction files as [|file rest IH]; intros uploaded errors w.
  - exists [], []. cbn. rewrite !app_nil_r.
    repeat split; constructor.
  - cbn [uploadFiles]. rewrite run_bind, run_try_catch, run_bind.
    pose proof (uploadFile_cases u ai file w) as H. cbv zeta in H.
    pose proof (uploadFile_record u ai file w) as K. cbv zeta in K.
    destruct (run (uploadFile u ai file) w) as [[e|img] w1];
      cbn [fst snd] in H, K;
      destruct H as (_ & _ & _ & _ & _ & H);
      destruct K as (T1 & _ & _ & _ & K).
    + destruct H as (I1 & _ & _).
      change (run (Ret (inl (originalname file, message e))) w1)
        with (@inr JsError (string * string + Image)
                (inl (originalname file, message e)), w1).
      cbv beta iota.
      destruct (IH uploaded (errors ++ [(originalname file, message e)]) w1)
        as (imgs & errs & Hrun & Hout & Him & Htr).
      exists imgs, ((originalname file, message e) :: errs).
      rewrite Hrun, <- app_assoc. cbn [app].
      split; [reflexivity|].
      split; [constructor; exact Hout|].
      split; congruence.
    + destruct H as (I1 & _ & _ & _).
      destruct K as (K1 & K2 & _).
      change (run (Ret (inr img)) w1)
        with (@inr JsError (string * string + Image) (inr img), w1).
      cbv beta iota.
      destruct (IH (uploaded ++ [img]) errors w1)
        as (imgs & errs & Hrun & Hout & Him & Htr).
      exists (img :: imgs), errs.
      rewrite Hrun, <- app_assoc. cbn [app].
      split; [reflexivity|].
      split; [constructor; assumption|].
      split; [rewrite Him, I1, <- app_assoc; reflexivity | congruence].
Qed.

Lemma outcomes_length u files imgs errs :
  outcomes u files imgs errs -> length imgs + length errs = length files.
Proof. induction 1; cbn; lia. Qed.

(** X1.  [uploadMultipleImages], the database flagged connected and the
    request carrying files, answers 201 whatever fails on the way.  Every
    file has exactly one outcome, in the order of the request: a record with
    the file's name, owned by the requester, or an entry in [errors] under
    the file's name; so [uploadedCount] and the number of errors add up to
    [totalCount], and [errors] is absent exactly when no file failed.  The
    store grows by the records returned and by nothing else, and one run of
    the pipeline is scheduled.  With the database flagged disconnected, or
    without files, nothing is stored or scheduled. *)
Theorem upload_many_accounting (req : UploadManyRequest) (w : World) :
  (isMongoConnected (globals w) = true ->
   forall files, many_files req = Some files -> files <> [] ->
   exists imgs errs,
     fst (run (uploadMultipleImages req) w)
     = inr (mkResponse 201
              (JUploadedMany imgs (length imgs) (length files)
                 (match errs with
                  | [] => None
                  | _ :: _ => Some errs
                  end)))
     /\ outcomes (many_user req) files imgs errs
     /\ length imgs + length errs = length files
     /\ images (snd (run (uploadMultipleImages req) w)) = images w ++ imgs
     /\ pendingTriggers (globals (snd (run (uploadMultipleImages req) w)))
        = S (pendingTriggers (globals w)))
  /\ (isMongoConnected (globals w) = false
      \/ many_files req = None \/ many_files req = Some [] ->
      snd (run (uploadMultipleImages req) w) = w
      /\ exists resp,
           fst (run (uploadMultipleImages req) w) = inr resp
           /\ success resp = false).
Proof.
  split.
  - intros Hm files Hf Hne.
    unfold uploadMultipleImages.
    rewrite run_try_catch, run_bind.
    change (run isMongoDBConnected w)
      with (@inr JsError bool (isMongoConnected (globals w)), w).
    cbv beta iota. rewrite Hm, Hf.
    destruct files as [|file rest]; [contradiction|].
    cbn [negb]. rewrite run_bind.
    change (run isAIModelReady w)
      with (@inr JsError bool (model_ready (globals w)), w).
    cbv beta iota. rewrite run_bind.
    destruct (uploadFiles_outcomes (many_user req) (model_ready (globals w))
                (file :: rest) [] [] w)
      as (imgs & errs & Hrun & Hout & Him & Htr).
    destruct (run (uploadFiles (many_user req) (model_ready (globals w))
                     (file :: rest) [] []) w) as [r w1].
    cbn [fst snd] in Hrun, Him, Htr. subst r. cbn [app fst snd].
    rewrite run_bind.
    change (run (modify bump_pendingTriggers) w1)
      with (@inr JsError unit tt,
            set_globals (bump_pendingTriggers (globals w1)) w1).
    cbv beta iota. cbn [run run_among fst snd].
    exists imgs, errs.
    split; [destruct errs; reflexivity|].
    split; [exact Hout|].
    split; [apply (outcomes_length _ _ _ _ Hout)|].
    split; [exact Him|].
    cbn. rewrite Htr. reflexivity.
  - destruct (uploadMultipleImages_cases req w) as (H1 & H2 & _).
    cbv zeta in *.
    destruct (isMongoConnected (globals w)) eqn:Hm.
    + intros [H|H]; [discriminate|].
      destruct (H2 eq_refl) as [Hr Hw]; [tauto|].
      split; [exact Hw|]. eexists. split; [exact Hr | reflexivity].
    + intros _. destruct (H1 eq_refl) as [Hr Hw].
      split; [exact Hw|]. eexists. split; [exact Hr | reflexivity].
Qed.

(** X1, an instance: of two files the second fails in blob storage; the
    answer is 201 with one record and one error. *)
Lemma upload_many_accounting_witness :
  fst (run (uploadMultipleImages two_files) flaky_storage_world)
  = inr (mkResponse 201
           (JUploadedMany [first_of_two] 1 2
              (Some [("b.jpg", "blob store timeout")])))
  /\ pendingTriggers
       (globals (snd (run (uploadMultipleImages two_files)
                        flaky_storage_world))) = 1.
Proof.
  destruct (upload_many_accounting two_files flaky_storage_world) as [H _].
  destruct (H eq_refl _ eq_refl ltac:(discriminate))
    as (imgs & errs & Hr & _ & _ & _ & Ht).
  split; [vm_compute; reflexivity | exact Ht].
Defined.

(** The next call when a hypothesis tells its outcome. *)
Ltac perform_known :=
  match goal with
  | H : faults _ _ _ = Some ?err |- context [perform ?c ?w] =>
      rewrite (@perform_rejected _ c w err H)
  | H : faults _ _ _ = None |- context [perform ?c ?w] =>
      rewrite (perform_answered c w H)
  | H : forall n, faults _ _ n = Some ?err |- context [perform ?c ?w] =>
      rewrite (@perform_rejected _ c w err (H _))
  end.

Ltac execute_known up_tac :=
  norm; eval_includes; norm;
  repeat (first [perform_known | perform_step up_tac | branch_step];
          norm; eval_includes; norm).

(* ================================================================== *)
(** * 27. Uploads when blob storage fails                             *)
(* ================================================================== *)

Lemma uploadFile_put_rejected u ai file w e :
  faults (env w) Storage (calls w Storage) = Some e ->
  fst (run (uploadFile u ai file) w) = inl e
  /\ env (snd (run (uploadFile u ai file) w)) = env w
  /\ images (snd (run (uploadFile u ai file) w)) = images w
  /\ points (snd (run (uploadFile u ai file) w)) = points w
  /\ calls (snd (run (uploadFile u ai file) w)) Mongo = calls w Mongo
  /\ calls (snd (run (uploadFile u ai file) w)) Qdrant = calls w Qdrant
  /\ calls (snd (run (uploadFile u ai file) w)) Model = calls w Model.
Proof.
  intros H.
  unfold uploadFile, run, uuidv4, getImageMetadata, isQdrantConnected,
    checkQdrantHealth, generateImageEmbedding, getQdrantClient.
  execute_known fail.
  repeat split.
Qed.

Lemma uploadFiles_storage_down u ai e files :
  forall uploaded errors w,
    (forall n, faults (env w) Storage n = Some e) ->
    fst (run (uploadFiles u ai files uploaded errors) w)
    = inr (uploaded,
           errors ++ map (fun f => (originalname f, message e)) files)
    /\ images (snd (run (uploadFiles u ai files uploaded errors) w))
       = images w
    /\ points (snd (run (uploadFiles u ai files uploaded errors) w))
       = points w
    /\ calls (snd (run (uploadFiles u ai files uploaded errors) w)) Mongo
       = calls w Mongo
    /\ calls (snd (run (uploadFiles u ai files uploaded errors) w)) Qdrant
       = calls w Qdrant
    /\ calls (snd (run (uploadFiles u ai files uploaded errors) w)) Model
       = calls w Model.
Proof.
  induction files as [|file rest IH]; intros uploaded errors w Hdown.
  - cbn. rewrite app_nil_r. repeat split.
  - cbn [uploadFiles map]. rewrite run_bind, run_try_catch, run_bind.
    destruct (uploadFile_put_rejected u ai file w e (Hdown _))
      as (Hr & He & Hi & Hp & Hm & Hq & Hmo).
    destruct (run (uploadFile u ai file) w) as [r w1].
    cbn [fst snd] in *. subst r.
    change (run (Ret (inl (originalname file, message e))) w1)
      with (@inr JsError (string * string + Image)
              (inl (originalname file, message e)), w1).
    cbv beta iota.
    assert (Hdown1 : forall n, faults (env w1) Storage n = Some e)
      by (intros n; rewrite He; apply Hdown).
    destruct (IH uploaded (errors ++ [(originalname file, message e)]) w1
                Hdown1) as (Hr1 & Hi1 & Hp1 & Hm1 & Hq1 & Hmo1).
    rewrite Hr1, <- app_assoc. cbn [app].
    repeat split; congruence.
Qed.

Lemma uploadImage_put_rejected single file w e :
  isMongoConnected (globals w) = true ->
  model_ready (globals w) = true ->
  up_file single = Some file ->
  faults (env w) Storage (calls w Storage) = Some e ->
  fst (run (uploadImage single) w)
  = inr (storage_or_500 "Error uploading image" e)
  /\ images (snd (run (uploadImage single) w)) = images w
  /\ points (snd (run (uploadImage single) w)) = points w
  /\ calls (snd (run (uploadImage single) w)) Mongo = calls w Mongo.
Proof.
  intros Hm Hr Hf H. unfold model_ready in Hr.
  unfold uploadImage, run, isMongoDBConnected, isAIModelReady, uuidv4,
    getImageMetadata, isQdrantConnected, checkQdrantHealth,
    generateImageEmbedding, getQdrantClient, model_ready.
  rewrite Hf.
  execute_known fail.
  all: try (cbn [andb] in Hr; discriminate Hr).
  repeat split.
Qed.

(** X2.  The same outage of blob storage, every call to it rejected with
    [e], seen by the two upload handlers.  [uploadImage] answers with a
    failure: 503 "Storage service unavailable" when the message of [e]
    mentions BLOB_READ_WRITE_TOKEN, and 500 with that message otherwise.
    [uploadMultipleImages] answers 201 with no images, [uploadedCount] 0 and
    one entry in [errors] per file, the file's name with the message of [e],
    in the order of the request.  Neither stores a record or a vector, nor
    calls the record store. *)
Theorem upload_when_storage_is_down (w : World) (e : JsError) :
  isMongoConnected (globals w) = true ->
  (forall n, faults (env w) Storage n = Some e) ->
  (forall single file,
      model_ready (globals w) = true -> up_file single = Some file ->
      fst (run (uploadImage single) w)
      = inr (mkResponse
               (if includes (message e) "BLOB_READ_WRITE_TOKEN"
                then 503 else 500)
               (if includes (message e) "BLOB_READ_WRITE_TOKEN"
                then JFailure "Storage service unavailable"
                       (Some "Vercel Blob Storage is not configured. Image uploads require cloud storage in production.")
                       None
                else JFailure "Error uploading image" (Some (message e))
                       None))
      /\ images (snd (run (uploadImage single) w)) = images w
      /\ points (snd (run (uploadImage single) w)) = points w
      /\ calls (snd (run (uploadImage single) w)) Mongo = calls w Mongo)
  /\ (forall many files,
        many_files many = Some files -> files <> [] ->
        fst (run (uploadMultipleImages many) w)
        = inr (mkResponse 201
                 (JUploadedMany [] 0 (length files)
                    (Some (map (fun f => (originalname f, message e))
                             files))))
        /\ images (snd (run (uploadMultipleImages many) w)) = images w
        /\ points (snd (run (uploadMultipleImages many) w)) = points w
        /\ calls (snd (run (uploadMultipleImages many) w)) Mongo
           = calls w Mongo).
Proof.
  intros Hm Hdown. split.
  - intros single file Hr Hf.
    destruct (uploadImage_put_rejected single file w e Hm Hr Hf (Hdown _))
      as (H1 & H2 & H3 & H4).
    rewrite H1. unfold storage_or_500.
    destruct (includes (message e) "BLOB_READ_WRITE_TOKEN"); auto.
  - intros many files Hf Hne.
    unfold uploadMultipleImages.
    rewrite run_try_catch, run_bind.
    change (run isMongoDBConnected w)
      with (@inr JsError bool (isMongoConnected (globals w)), w).
    cbv beta iota. rewrite Hm, Hf.
    destruct files as [|file rest]; [contradiction|].
    cbn [negb]. rewrite run_bind.
    change (run isAIModelReady w)
      with (@inr JsError bool (model_ready (globals w)), w).
    cbv beta iota. rewrite run_bind.
    destruct (uploadFiles_storage_down (many_user many)
                (model_ready (globals w)) e (file :: rest) [] [] w Hdown)
      as (Hr & Hi & Hp & Hc & _).
    destruct (run (uploadFiles (many_user many) (model_ready (globals w))
                     (file :: rest) [] []) w) as [r w1].
    cbn [fst snd] in *. subst r. cbn [app fst snd].
    rewrite run_bind.
    change (run (modify bump_pendingTriggers) w1)
      with (@inr JsError unit tt,
            set_globals (bump_pendingTriggers (globals w1)) w1).
    cbv beta iota. cbn [run run_among fst snd map length Nat.ltb Nat.leb].
    repeat split; assumption.
Qed.

(** X2, an instance: blob storage without its token.  The single upload is
    answered 503, the upload of two files 201 with two errors. *)
Lemma upload_when_storage_is_down_witness :
  fst (run (uploadImage single_upload) no_token_world)
  = inr (mkResponse 503
           (JFailure "Storage service unavailable"
              (Some "Vercel Blob Storage is not configured. Image uploads require cloud storage in production.")
              None))
  /\ fst (run (uploadMultipleImages two_files) no_token_world)
     = inr (mkResponse 201
              (JUploadedMany [] 0 2
                 (Some [("a.jpg", "BLOB_READ_WRITE_TOKEN is required");
                        ("b.jpg", "BLOB_READ_WRITE_TOKEN is required")]))).
Proof.
  assert (Hdown : forall n,
             faults (env no_token_world) Storage n
             = Some (new_Error "BLOB_READ_WRITE_TOKEN is required"))
    by (intros n; reflexivity).
  destruct (upload_when_storage_is_down no_token_world _ eq_refl Hdown)
    as [H1 H2].
  split.
  - exact (proj1 (H1 single_upload _ eq_refl eq_refl)).
  - exact (proj1 (H2 two_files _ eq_refl ltac:(discriminate))).
Defined.

(* ================================================================== *)
(** * 28. Uploads when the record cannot be created                   *)
(* ================================================================== *)

Lemma upsert_point_In p l : In p (upsert_point p l).
Proof.
  induction l as [|q l IH]; cbn; [auto|].
  destruct (String.eqb (point_id q) (point_id p)); cbn; auto.
Qed.

Lemma uploadImage_create_rejected single file w e :
  isMongoConnected (globals w) = true ->
  model_ready (globals w) = true ->
  up_file single = Some file ->
  isQdrantAvailable (globals w) = true ->
  qdrantClient (globals w) = true ->
  faults (env w) Storage (calls w Storage) = None ->
  faults (env w) Storage (S (calls w Storage)) = None ->
  faults (env w) Model (calls w Model) = None ->
  faults (env w) Qdrant (S (calls w Qdrant)) = None ->
  faults (env w) Mongo (calls w Mongo) = Some e ->
  let fname :=
    (uuidv4_nth (lib (globals w)) (uuidCount (globals w))
     ++ path_extname (lib (globals w)) (originalname file))%string in
  let qid := uuidv4_nth (lib (globals w)) (S (uuidCount (globals w))) in
  fst (run (uploadImage single) w)
  = inr (storage_or_500 "Error uploading image" e)
  /\ images (snd (run (uploadImage single) w)) = images w
  /\ points (snd (run (uploadImage single) w))
     = upsert_point
         (mkPoint qid (image_embedding (env w) (blob_url (env w) fname))
            (mkPayload None (up_user single) fname))
         (points w)
  /\ In (Called (BlobPut fname))
        (since (trace w) (snd (run (uploadImage single) w))).
Proof.
  intros Hm Hr Hf Hq Hc HS0 HS1 HM HQ1 HMo. unfold model_ready in Hr.
  cbv zeta.
  unfold uploadImage, run, isMongoDBConnected, isAIModelReady, uuidv4,
    getImageMetadata, isQdrantConnected, checkQdrantHealth,
    generateImageEmbedding, getQdrantClient, model_ready.
  rewrite Hf.
  execute_known fail.
  all: try (cbn [andb] in Hr; discriminate Hr).
  all: repeat split; try reflexivity.
  all: since_tac; cbn [In]; auto.
Qed.

Lemma uploadMultipleImages_create_rejected many file w e :
  isMongoConnected (globals w) = true ->
  model_ready (globals w) = true ->
  many_files many = Some [file] ->
  isQdrantAvailable (globals w) = true ->
  qdrantClient (globals w) = true ->
  faults (env w) Storage (calls w Storage) = None ->
  faults (env w) Storage (S (calls w Storage)) = None ->
  faults (env w) Model (calls w Model) = None ->
  faults (env w) Qdrant (S (calls w Qdrant)) = None ->
  faults (env w) Mongo (calls w Mongo) = Some e ->
  let fname :=
    (uuidv4_nth (lib (globals w)) (uuidCount (globals w))
     ++ path_extname (lib (globals w)) (originalname file))%string in
  let qid := uuidv4_nth (lib (globals w)) (S (uuidCount (globals w))) in
  fst (run (uploadMultipleImages many) w)
  = inr (mkResponse 201
           (JUploadedMany [] 0 1 (Some [(originalname file, message e)])))
  /\ images (snd (run (uploadMultipleImages many) w)) = images w
  /\ points (snd (run (uploadMultipleImages many) w))
     = upsert_point
         (mkPoint qid (image_embedding (env w) (blob_url (env w) fname))
            (mkPayload None (many_user many) fname))
         (points w)
  /\ In (Called (BlobPut fname))
        (since (trace w) (snd (run (uploadMultipleImages many) w))).
Proof.
  intros Hm Hr Hf Hq Hc HS0 HS1 HM HQ1 HMo. unfold model_ready in Hr.
  cbv zeta.
  unfold uploadMultipleImages, run, isMongoDBConnected, isAIModelReady.
  rewrite Hf. cbn [uploadFiles].
  unfold uploadFile, uuidv4,
    getImageMetadata, isQdrantConnected, checkQdrantHealth,
    generateImageEmbedding, getQdrantClient, model_ready.
  execute_known fail.
  all: try (cbn [andb] in Hr; discriminate Hr).
  all: repeat split; try reflexivity.
  all: since_tac; cbn [In]; auto.
Qed.

(** X3.  Nothing is rolled back when the record cannot be created.  An
    upload whose file was stored and whose vector was written to the index
    (storage, model and index answering), but whose [Image.create] is
    rejected: [uploadImage] answers with a failure, [uploadMultipleImages]
    answers 201 and lists the file under [errors]; either way no record
    exists, while the blob has been put and the index holds a point under
    the new id whose payload has no [imageId]. *)
Theorem failed_create_leaves_vector (w : World) (e : JsError) (file : File) :
  isMongoConnected (globals w) = true ->
  model_ready (globals w) = true ->
  isQdrantAvailable (globals w) = true ->
  qdrantClient (globals w) = true ->
  faults (env w) Storage (calls w Storage) = None ->
  faults (env w) Storage (S (calls w Storage)) = None ->
  faults (env w) Model (calls w Model) = None ->
  faults (env w) Qdrant (S (calls w Qdrant)) = None ->
  faults (env w) Mongo (calls w Mongo) = Some e ->
  let fname :=
    (uuidv4_nth (lib (globals w)) (uuidCount (globals w))
     ++ path_extname (lib (globals w)) (originalname file))%string in
  let qid := uuidv4_nth (lib (globals w)) (S (uuidCount (globals w))) in
  (forall single, up_file single = Some file ->
     exists resp,
       fst (run (uploadImage single) w) = inr resp
       /\ success resp = false
       /\ (code resp = 500 \/ code resp = 503)
       /\ images (snd (run (uploadImage single) w)) = images w
       /\ In (Called (BlobPut fname))
             (since (trace w) (snd (run (uploadImage single) w)))
       /\ exists p,
            In p (points (snd (run (uploadImage single) w)))
            /\ point_id p = qid
            /\ imageId (payload p) = None)
  /\ (forall many, many_files many = Some [file] ->
        fst (run (uploadMultipleImages many) w)
        = inr (mkResponse 201
                 (JUploadedMany [] 0 1
                    (Some [(originalname file, message e)])))
        /\ images (snd (run (uploadMultipleImages many) w)) = images w
        /\ In (Called (BlobPut fname))
              (since (trace w) (snd (run (uploadMultipleImages many) w)))
        /\ exists p,
             In p (points (snd (run (uploadMultipleImages many) w)))
             /\ point_id p = qid
             /\ imageId (payload p) = None).
Proof.
  intros Hm Hr Hq Hc HS0 HS1 HM HQ1 HMo. cbv zeta. split.
  - intros single Hf.
    destruct (uploadImage_create_rejected single file w e Hm Hr Hf Hq Hc
                HS0 HS1 HM HQ1 HMo) as (H1 & H2 & H3 & H4).
    cbv zeta in *.
    exists (storage_or_500 "Error uploading image" e).
    split; [exact H1|].
    split; [unfold storage_or_500;
            destruct (includes (message e) "BLOB_READ_WRITE_TOKEN");
            reflexivity|].
    split; [unfold storage_or_500;
            destruct (includes (message e) "BLOB_READ_WRITE_TOKEN");
            auto|].
    split; [exact H2|]. split; [exact H4|].
    eexists. rewrite H3. split; [apply upsert_point_In|].
    split; reflexivity.
  - intros many Hf.
    destruct (uploadMultipleImages_create_rejected many file w e Hm Hr Hf Hq
                Hc HS0 HS1 HM HQ1 HMo) as (H1 & H2 & H3 & H4).
    cbv zeta in *.
    split; [exact H1|]. split; [exact H2|]. split; [exact H4|].
    eexists. rewrite H3. split; [apply upsert_point_In|].
    split; reflexivity.
Qed.

(** X3, an instance: the record store rejects every call while all else is
    up; after the single upload the store is empty and the index holds the
    point "uuid-1". *)
Lemma failed_create_leaves_vector_witness :
  images (snd (run (uploadImage single_upload) store_down_world)) = []
  /\ exists p,
       In p (points (snd (run (uploadImage single_upload) store_down_world)))
       /\ point_id p = "uuid-1"
       /\ imageId (payload p) = None.
Proof.
  destruct (failed_create_leaves_vector store_down_world _ (mkFile "a.jpg")
              eq_refl eq_refl eq_refl eq_refl eq_refl eq_refl eq_refl
              eq_refl eq_refl) as [H _].
  destruct (H single_upload eq_refl) as (resp & _ & _ & _ & H4 & _ & H6).
  split; [exact H4 | exact H6].
Defined.

(* ================================================================== *)
(** * 29. Point ids stay unique                                       *)
(* ================================================================== *)

Lemma processBatch_respects okc okm :
  (forall image, respects okc okm (processImageEmbedding image)) ->
  forall batch s f, respects okc okm (processBatch batch s f).
Proof.
  intros H batch. induction batch as [|image rest IH]; intros s f;
    cbn [processBatch].
  - constructor.
  - apply respects_bind; [apply H|]. intros []; apply IH.
Qed.

(** [respects_auto] for programs that run the loop of the pipeline. *)
Ltac respects_loop side :=
  repeat first [ apply processBatch_respects; intro
               | respects_step side ].

Lemma pass_keeps_point_ids :
  respects no_create_or_delete keeps_uuids processPendingEmbeddings.
Proof.
  respects_loop ltac:(first [exact I | intros ?g; split; reflexivity]).
Qed.

Lemma apply_update_qdrantId u r : qdrantId (apply_update u r) = qdrantId r.
Proof. destruct u; reflexivity. Qed.

Lemma update_by_id_qdrantIds i u l :
  map qdrantId (update_by_id i u l) = map qdrantId l.
Proof.
  induction l as [|r l IH]; [reflexivity|]. cbn.
  destruct (Nat.eqb (_id r) i); cbn.
  - rewrite apply_update_qdrantId. reflexivity.
  - rewrite IH. reflexivity.
Qed.

Lemma point_ids_fresh_ids w :
  point_ids_fresh w <->
  NoDup (map qdrantId (images w))
  /\ Forall (fun q => exists i,
                 i < uuidCount (globals w)
                 /\ q = uuidv4_nth (lib (globals w)) i)
       (map qdrantId (images w)).
Proof. unfold point_ids_fresh. rewrite Forall_map. reflexivity. Qed.

Lemma same_point_ids_fresh w w' :
  same_point_ids w w' -> point_ids_fresh w -> point_ids_fresh w'.
Proof.
  intros (H1 & H2 & H3) H. apply point_ids_fresh_ids.
  apply point_ids_fresh_ids in H. rewrite H1, H2, H3. exact H.
Qed.

Lemma pass_same_point_ids w :
  same_point_ids w (snd (run processPendingEmbeddings w)).
Proof.
  apply (@respects_run no_create_or_delete keeps_uuids
           (same_point_ids w)).
  - intros R c w' Hc (H1 & H2 & H3). unfold same_point_ids.
    rewrite perform_globals. split; [|auto].
    rewrite <- H1. unfold perform.
    destruct (faults (env w') (service_of c) (calls w' (service_of c)));
      [reflexivity|].
    destruct c; try reflexivity; try contradiction.
    cbn. apply update_by_id_qdrantIds.
  - intros f w' Hf (H1 & H2 & H3). unfold same_point_ids. cbn.
    destruct (Hf (globals w')) as [E1 E2]. rewrite E1, E2. auto.
  - apply pass_keeps_point_ids.
  - repeat split.
Qed.

(** A new record whose point id is a uuid drawn since. *)
Lemma point_ids_fresh_grow w w' img :
  uuid_injective (lib (globals w)) ->
  point_ids_fresh w ->
  images w' = images w ++ [img] ->
  lib (globals w') = lib (globals w) ->
  (exists i, uuidCount (globals w) <= i < uuidCount (globals w')
             /\ qdrantId img = uuidv4_nth (lib (globals w)) i) ->
  point_ids_fresh w'.
Proof.
  intros Hinj [Hnd Hall] Hi Hl (i & Hb & Hq).
  unfold point_ids_fresh. rewrite Hi, Hl, map_app. cbn [map]. split.
  - apply NoDup_app; [exact Hnd | repeat constructor; intros [] |].
    intros q Hin [<- | []].
    apply in_map_iff in Hin. destruct Hin as (r & Hr & Hin).
    destruct (proj1 (Forall_forall _ _) Hall r Hin) as (j & Hj & Hrj).
    assert (i = j) by (apply Hinj; congruence). lia.
  - apply Forall_app. split.
    + eapply Forall_impl; [|exact Hall]. cbn.
      intros r (j & Hj & Hrj). exists j. split; [lia | exact Hrj].
    + constructor; [|constructor]. exists i. split; [lia | exact Hq].
Qed.

Lemma point_ids_fresh_mono w w' :
  point_ids_fresh w ->
  images w' = images w ->
  lib (globals w') = lib (globals w) ->
  uuidCount (globals w) <= uuidCount (globals w') ->
  point_ids_fresh w'.
Proof.
  intros [Hnd Hall] Hi Hl Hc. unfold point_ids_fresh. rewrite Hi, Hl.
  split; [exact Hnd|].
  eapply Forall_impl; [|exact Hall]. cbn.
  intros r (j & Hj & Hrj). exists j. split; [lia | exact Hrj].
Qed.

Lemma uploadFiles_point_ids u ai files :
  forall uploaded errors w,
    uuid_injective (lib (globals w)) ->
    point_ids_fresh w ->
    point_ids_fresh (snd (run (uploadFiles u ai files uploaded errors) w))
    /\ uuidCount (globals w)
       <= uuidCount
            (globals (snd (run (uploadFiles u ai files uploaded errors) w)))
    /\ lib (globals (snd (run (uploadFiles u ai files uploaded errors) w)))
       = lib (globals w).
Proof.
  induction files as [|file rest IH]; intros uploaded errors w Hinj Hw.
  - cbn. auto.
  - cbn [uploadFiles]. rewrite run_bind, run_try_catch, run_bind.
    pose proof (uploadFile_cases u ai file w) as H. cbv zeta in H.
    pose proof (uploadFile_record u ai file w) as K. cbv zeta in K.
    destruct (run (uploadFile u ai file) w) as [[e|img] w1];
      cbn [fst snd] in H, K;
      destruct H as (_ & _ & _ & _ & _ & H);
      destruct K as (_ & L1 & _ & C1 & K).
    + destruct H as (I1 & _ & _).
      change (run (Ret (inl (originalname file, message e))) w1)
        with (@inr JsError (string * string + Image)
                (inl (originalname file, message e)), w1).
      cbv beta iota.
      assert (Hw1 : point_ids_fresh w1)
        by (apply (point_ids_fresh_mono w); assumption).
      assert (Hinj1 : uuid_injective (lib (globals w1)))
        by (rewrite L1; exact Hinj).
      destruct (IH uploaded (errors ++ [(originalname file, message e)]) w1
                  Hinj1 Hw1) as (F & C & L).
      split; [exact F|]. split; [lia | congruence].
    + destruct H as (I1 & _ & _ & _).
      destruct K as (_ & _ & _ & Q & _ & _ & C2).
      change (run (Ret (inr img)) w1)
        with (@inr JsError (string * string + Image) (inr img), w1).
      cbv beta iota.
      assert (Hw1 : point_ids_fresh w1).
      { apply (point_ids_fresh_grow w w1 img); try assumption.
        exists (S (uuidCount (globals w))). split; [lia | exact Q]. }
      assert (Hinj1 : uuid_injective (lib (globals w1)))
        by (rewrite L1; exact Hinj).
      destruct (IH (uploaded ++ [img]) errors w1 Hinj1 Hw1) as (F & C & L).
      split; [exact F|]. split; [lia | congruence].
Qed.

Lemma uploadMultipleImages_point_ids req w :
  uuid_injective (lib (globals w)) ->
  point_ids_fresh w ->
  point_ids_fresh (snd (run (uploadMultipleImages req) w)).
Proof.
  intros Hinj Hw.
  destruct (uploadMultipleImages_cases req w) as (H1 & H2 & _).
  cbv zeta in *.
  destruct (isMongoConnected (globals w)) eqn:Hm;
    [|destruct (H1 eq_refl) as [_ ->]; exact Hw].
  destruct (many_files req) as [[|file rest]|] eqn:Hf;
    [ destruct (H2 eq_refl (or_intror eq_refl)) as [_ ->]; exact Hw
    | | destruct (H2 eq_refl (or_introl eq_refl)) as [_ ->]; exact Hw ].
  unfold uploadMultipleImages.
  rewrite run_try_catch, run_bind.
  change (run isMongoDBConnected w)
    with (@inr JsError bool (isMongoConnected (globals w)), w).
  cbv beta iota. rewrite Hm, Hf. cbn [negb]. rewrite run_bind.
  change (run isAIModelReady w)
    with (@inr JsError bool (model_ready (globals w)), w).
  cbv beta iota. rewrite run_bind.
  destruct (uploadFiles_point_ids (many_user req) (model_ready (globals w))
              (file :: rest) [] [] w Hinj Hw) as (F & C & L).
  destruct (uploadFiles_outcomes (many_user req) (model_ready (globals w))
              (file :: rest) [] [] w) as (imgs & errs & Hrun & _).
  destruct (run (uploadFiles (many_user req) (model_ready (globals w))
                   (file :: rest) [] []) w) as [r w1].
  cbn [fst snd] in *. subst r. cbn [app fst snd].
  rewrite run_bind.
  change (run (modify bump_pendingTriggers) w1)
    with (@inr JsError unit tt,
          set_globals (bump_pendingTriggers (globals w1)) w1).
  cbv beta iota. cbn [run run_among fst snd].
  exact F.
Qed.

Lemma uploadImage_record req w :
  let w' := snd (run (uploadImage req) w) in
  lib (globals w') = lib (globals w)
  /\ uuidCount (globals w) <= uuidCount (globals w')
  /\ (images w' = images w
      \/ exists img,
           images w' = images w ++ [img]
           /\ qdrantId img
              = uuidv4_nth (lib (globals w)) (S (uuidCount (globals w)))
           /\ uuidCount (globals w') = 2 + uuidCount (globals w)
           /\ user img = up_user req).
Proof.
  cbv zeta.
  unfold uploadImage, run, isMongoDBConnected, isAIModelReady, uuidv4,
    getImageMetadata, isQdrantConnected, checkQdrantHealth,
    generateImageEmbedding, getQdrantClient, model_ready.
  execute fail.
  all: split; [reflexivity|]; split; [lia|].
  all: first [ left; reflexivity
             | right; eexists; repeat split; reflexivity ].
Qed.

Lemma uploadImage_point_ids req w :
  uuid_injective (lib (globals w)) ->
  point_ids_fresh w ->
  point_ids_fresh (snd (run (uploadImage req) w)).
Proof.
  intros Hinj Hw.
  destruct (uploadImage_record req w) as (L & C & [I|(img & I & Q & C2 & _)]).
  - apply (point_ids_fresh_mono w); assumption.
  - apply (point_ids_fresh_grow w _ img); try assumption.
    exists (S (uuidCount (globals w))). split; [lia | exact Q].
Qed.

Lemma deleteImage_no_create req :
  respects no_create_or_update keeps_uuids (deleteImage req).
Proof.
  respects_auto ltac:(first [exact I | intros ?g; split; reflexivity]).
Qed.

Lemma filter_filter (A : Type) (f g : A -> bool) (l : list A) :
  filter f (filter g l) = filter (fun a => g a && f a) l.
Proof.
  induction l as [|a l IH]; cbn; [reflexivity|].
  destruct (g a); cbn; [destruct (f a)|]; congruence.
Qed.

(** [deleteImage] only ever removes records. *)
Lemma deleteImage_shrinks req w :
  (exists keep,
      images (snd (run (deleteImage req) w)) = filter keep (images w))
  /\ uuidCount (globals (snd (run (deleteImage req) w)))
     = uuidCount (globals w)
  /\ lib (globals (snd (run (deleteImage req) w))) = lib (globals w).
Proof.
  apply (@respects_run no_create_or_update keeps_uuids
           (fun w' => (exists keep, images w' = filter keep (images w))
                      /\ uuidCount (globals w') = uuidCount (globals w)
                      /\ lib (globals w') = lib (globals w))).
  - intros R c w' Hc ((keep & H1) & H2 & H3).
    rewrite perform_globals. split; [|auto].
    unfold perform.
    destruct (faults (env w') (service_of c) (calls w' (service_of c)));
      [exists keep; exact H1|].
    destruct c; try (exists keep; exact H1); try contradiction.
    cbn. unfold delete_by_id. rewrite H1, filter_filter. eexists.
    reflexivity.
  - intros f w' Hf (H1 & H2 & H3). cbn.
    destruct (Hf (globals w')) as [E1 E2]. rewrite E1, E2. auto.
  - apply deleteImage_no_create.
  - split; [exists (fun _ => true); symmetry; apply filter_everything|].
    auto.
Qed.

Lemma NoDup_map_filter_any (A B : Type) (p : A -> B) (f : A -> bool) l :
  NoDup (map p l) -> NoDup (map p (filter f l)).
Proof.
  induction l as [|r l IH]; cbn; [auto|].
  intros H. inversion H as [|x xs Hni Hnd]; subst.
  destruct (f r); cbn; [constructor|]; auto.
  intros Hin. apply Hni. apply in_map_iff in Hin.
  destruct Hin as (r' & E & Hr'). apply filter_In in Hr'.
  apply in_map_iff. exists r'. tauto.
Qed.

Lemma deleteImage_point_ids req w :
  point_ids_fresh w -> point_ids_fresh (snd (run (deleteImage req) w)).
Proof.
  intros [Hnd Hall].
  destruct (deleteImage_shrinks req w) as ((keep & Hi) & Hc & Hl).
  unfold point_ids_fresh. rewrite Hi, Hc, Hl. split.
  - apply NoDup_map_filter_any. exact Hnd.
  - apply Forall_forall. intros r Hr. apply filter_In in Hr.
    exact (proj1 (Forall_forall _ _) Hall r (proj1 Hr)).
Qed.

(** X4.  The uuid source never repeating itself: if no two records share a
    [qdrantId] and every [qdrantId] in the store is a uuid handed out
    before, then so it is after [uploadImage], after [uploadMultipleImages],
    after a pass of the pipeline and after [deleteImage], whatever the
    request and whichever calls fail.  A new record gets a point id drawn
    for it alone, and no handler changes the point id of a record. *)
Theorem point_ids_stay_unique (w : World) :
  uuid_injective (lib (globals w)) ->
  point_ids_fresh w ->
  forall w',
    w' = snd (run processPendingEmbeddings w)
    \/ (exists req, w' = snd (run (uploadMultipleImages req) w))
    \/ (exists req, w' = snd (run (uploadImage req) w))
    \/ (exists req, w' = snd (run (deleteImage req) w)) ->
    point_ids_fresh w'
    /\ NoDup (map qdrantId (images w')).
Proof.
  intros Hinj Hw w' Hw'.
  assert (H : point_ids_fresh w').
  { destruct Hw' as [-> | [[req ->] | [[req ->] | [req ->]]]].
    - apply (same_point_ids_fresh w); [apply pass_same_point_ids | exact Hw].
    - apply uploadMultipleImages_point_ids; assumption.
    - apply uploadImage_point_ids; assumption.
    - apply deleteImage_point_ids; assumption. }
  split; [exact H | exact (proj1 H)].
Qed.

Lemma show_nat_injective n m : show_nat n = show_nat m -> n = m.
Proof.
  unfold show_nat. intros H.
  assert (Hn : forall k, Nat.to_uint k <> Decimal.Nil).
  { intros k. rewrite <- (DecimalNat.Unsigned.of_to k) at 1.
    rewrite DecimalNat.Unsigned.to_of. apply DecimalFacts.unorm_nonnil. }
  apply DecimalNat.Unsigned.to_uint_inj.
  apply (f_equal NilZero.uint_of_string) in H.
  rewrite !NilZero.usu in H by apply Hn. congruence.
Qed.

Lemma demo_lib_injective : uuid_injective demo_lib.
Proof.
  intros i j H. cbn in H. apply show_nat_injective.
  injection H as H. exact H.
Qed.

(** X4, an instance: two files uploaded into an empty store, then a third
    by [uploadImage]; the three point ids differ. *)
Lemma point_ids_stay_unique_witness :
  NoDup
    (map qdrantId
       (images
          (snd (run (uploadImage single_upload)
                  (snd (run (uploadMultipleImages two_files)
                          all_up_world))))))
  /\ length
       (images
          (snd (run (uploadImage single_upload)
                  (snd (run (uploadMultipleImages two_files)
                          all_up_world))))) = 3.
Proof.
  assert (H0 : point_ids_fresh all_up_world)
    by (split; constructor).
  destruct (point_ids_stay_unique all_up_world demo_lib_injective H0
              (snd (run (uploadMultipleImages two_files) all_up_world))
              (or_intror (or_introl (ex_intro _ two_files eq_refl))))
    as [H1 _].
  destruct (point_ids_stay_unique
              (snd (run (uploadMultipleImages two_files) all_up_world))
              demo_lib_injective H1
              (snd (run (uploadImage single_upload)
                      (snd (run (uploadMultipleImages two_files)
                              all_up_world))))
              (or_intror (or_intror (or_introl
                 (ex_intro _ single_upload eq_refl)))))
    as [_ H2].
  split; [exact H2 | vm_compute; reflexivity].
Defined.

(* ================================================================== *)
(** * 30. Search without a query                                      *)
(* ================================================================== *)






(* ================================================================== *)
(** * 31. Handlers that only read                                     *)
(* ================================================================== *)

Lemma respects_read_only {A : Type} (p : Prog A) :
  respects is_read availability_only p -> read_only p.
Proof.
  intros Hp w.
  pose (J := fun w' =>
               same_stores w w'
               /\ (exists tr, trace w' = trace w ++ tr /\ reads_only tr)
               /\ same_setup (globals w) (globals w')
               /\ clock (globals w') = clock (globals w)
               /\ uuidCount (globals w') = uuidCount (globals w)
               /\ pendingTriggers (globals w') = pendingTriggers (globals w)
               /\ settles_first (globals w') = settles_first (globals w)
               /\ lib (globals w') = lib (globals w)
               /\ (reconnectTimeout (globals w) = true ->
                   reconnectTimeout (globals w') = true)).
  assert (H : J (snd (run p w))).
  { apply (@respects_run is_read availability_only J).
    - intros R c w' Hc (Hs & (tr & Ht & Hro) & Hg).
      unfold J. rewrite perform_globals, perform_trace.
      split; [|split; [|exact Hg]].
      + destruct Hs as (S1 & S2 & S3 & S4). unfold same_stores.
        rewrite <- S1, <- S2, <- S3, <- S4. unfold perform.
        destruct (faults (env w') (service_of c) (calls w' (service_of c)));
          [repeat split|].
        destruct c; try (repeat split; reflexivity); contradiction.
      + exists (tr ++ [Called c]). rewrite Ht, app_assoc.
        split; [reflexivity|].
        apply Forall_app. split; [exact Hro|].
        constructor; [exact Hc | constructor].
    - intros f w' Hf (Hs & Ht & Hg & Hc & Hu & Hp' & Hsf & Hl & Hr).
      destruct (Hf (globals w')) as (F1 & F2 & F3 & F4 & F5 & F6 & F7).
      unfold J. cbn [globals set_globals trace].
      split; [exact Hs|]. split; [exact Ht|].
      split; [eapply same_setup_trans; eassumption|].
      repeat split; try congruence. intros Hr0. apply F7, Hr, Hr0.
    - exact Hp.
    - unfold J. split; [repeat split|].
      split; [exists []; rewrite app_nil_r; split; [reflexivity|constructor]|].
      split; [apply same_setup_refl|]. repeat split; auto. }
  destruct H as (Hs & (tr & Ht & Hro) & Hg).
  split; [exact Hs|]. split; [|exact Hg].
  unfold since. rewrite Ht, skipn_app, skipn_all, Nat.sub_diag. exact Hro.
Qed.

Ltac read_side' :=
  first [ exact I
        | intros ?g; repeat split;
          first [reflexivity | assumption | intros ?H; exact H] ].

(** X6.  The handlers that answer queries only read: [searchImages],
    [getImage], [getEmbeddingStats] and its route, [getServiceStatus] and
    the health check, run in any world with any request and whichever calls
    fail, leave records, points and collections as they are, make no call
    but queries of the record store and of the index and calls of the
    model, and assign to no variable except [isQdrantAvailable] and
    [reconnectTimeout], the timer that a failed health probe arms; a
    reconnect that is armed stays armed. *)
Theorem query_handlers_read_only :
  (forall req, read_only (searchImages req))
  /\ (forall req, read_only (getImage req))
  /\ (forall userId, read_only (getEmbeddingStats userId))
  /\ (forall u, read_only (embeddingStatsHandler u))
  /\ read_only getServiceStatus
  /\ read_only health.
Proof.
  split; [|split; [|split; [|split; [|split]]]];
    intros; apply respects_read_only; respects_auto read_side'.
Qed.

(* ================================================================== *)
(** * 32. Deletion: who may delete, and what a failure leaves         *)
(* ================================================================== *)

Lemma deleteImage_refused req w :
  let r := fst (run (deleteImage req) w) in
  let w' := snd (run (deleteImage req) w) in
  match faults (env w) Mongo (calls w Mongo) with
  | Some e =>
      r = inr (mkResponse 500
                 (JFailure "Error deleting image" (Some (message e)) None))
      /\ same_stores w w'
      /\ since (trace w) w' = [Called (ImageFindById (del_id req))]
  | None =>
      match find_by_id (del_id req) (images w) with
      | None =>
          r = inr (mkResponse 404 (JFailure "Image not found" None None))
          /\ same_stores w w'
          /\ since (trace w) w' = [Called (ImageFindById (del_id req))]
      | Some image =>
          user image <> del_user req ->
          r = inr (mkResponse 403
                     (JFailure "Not authorized to delete this image"
                        None None))
          /\ same_stores w w'
          /\ since (trace w) w' = [Called (ImageFindById (del_id req))]
      end
  end.
Proof.
  cbv zeta. unfold deleteImage, run, isQdrantConnected, getQdrantClient,
    same_stores.
  destruct (faults (env w) Mongo (calls w Mongo)) as [e|] eqn:F.
  - execute_known fail.
    repeat split; since_tac; reflexivity.
  - destruct (find_by_id (del_id req) (images w)) as [image|] eqn:Hf.
    + intros Hu. apply Nat.eqb_neq in Hu.
      execute_known fail.
      repeat split; since_tac; reflexivity.
    + execute_known fail.
      repeat split; since_tac; reflexivity.
Qed.

(** X7.  [deleteImage] deletes nothing unless the lookup finds a record of
    the requester's.  When the lookup is rejected (500, with the message of
    the error), finds nothing (404) or finds a record of another user (403,
    public or not), the lookup is the only call made: no blob and no vector
    is deleted, and records, points and collections are as they were. *)
Theorem deleteImage_requires_owner (req : DeleteRequest) (w : World) :
  (faults (env w) Mongo (calls w Mongo) <> None
   \/ forall image, find_by_id (del_id req) (images w) = Some image ->
                    user image <> del_user req) ->
  same_stores w (snd (run (deleteImage req) w))
  /\ since (trace w) (snd (run (deleteImage req) w))
     = [Called (ImageFindById (del_id req))]
  /\ exists resp,
       fst (run (deleteImage req) w) = inr resp
       /\ success resp = false
       /\ (forall e, faults (env w) Mongo (calls w Mongo) = Some e ->
           resp = mkResponse 500
                    (JFailure "Error deleting image" (Some (message e)) None))
       /\ (answers Mongo w ->
           find_by_id (del_id req) (images w) = None -> code resp = 404)
       /\ (answers Mongo w ->
           forall image, find_by_id (del_id req) (images w) = Some image ->
           code resp = 403).
Proof.
  intros H. pose proof (deleteImage_refused req w) as K. cbv zeta in K.
  unfold answers.
  destruct (faults (env w) Mongo (calls w Mongo)) as [e|] eqn:F.
  - destruct K as (Hr & Hs & Ht).
    split; [exact Hs|]. split; [exact Ht|].
    eexists. split; [exact Hr|]. split; [reflexivity|].
    split; [intros e' E; congruence|].
    split; discriminate.
  - destruct H as [H|H]; [congruence|].
    destruct (find_by_id (del_id req) (images w)) as [image|] eqn:Hf.
    + destruct (K (H image eq_refl)) as (Hr & Hs & Ht).
      split; [exact Hs|]. split; [exact Ht|].
      eexists. split; [exact Hr|]. split; [reflexivity|].
      split; [discriminate|]. split; [discriminate|].
      intros _ image' _. reflexivity.
    + destruct K as (Hr & Hs & Ht).
      split; [exact Hs|]. split; [exact Ht|].
      eexists. split; [exact Hr|]. split; [reflexivity|].
      split; [discriminate|]. split; [reflexivity|]. discriminate.
Qed.

(** X7, an instance: user 8 asks to delete record 1 of user 7. *)
Lemma deleteImage_requires_owner_witness :
  same_stores delete_world_up
    (snd (run (deleteImage (mkDelete 8 1)) delete_world_up))
  /\ exists resp,
       fst (run (deleteImage (mkDelete 8 1)) delete_world_up) = inr resp
       /\ code resp = 403.
Proof.
  assert (H : forall image,
             find_by_id 1 (images delete_world_up) = Some image ->
             user image <> 8)
    by (intros image E; injection E as <-; discriminate).
  destruct (deleteImage_requires_owner (mkDelete 8 1) delete_world_up
              (or_intror H)) as (H1 & _ & resp & H3 & _ & _ & _ & H7).
  split; [exact H1|]. exists resp. split; [exact H3|].
  exact (H7 eq_refl _ eq_refl).
Defined.

Lemma deleteImage_interrupted req w image e :
  answers Mongo w ->
  find_by_id (del_id req) (images w) = Some image ->
  user image = del_user req ->
  (faults (env w) Mongo (S (calls w Mongo)) = Some e ->
   fst (run (deleteImage req) w)
   = inr (mkResponse 500
            (JFailure "Error deleting image" (Some (message e)) None))
   /\ images (snd (run (deleteImage req) w)) = images w
   /\ collections (snd (run (deleteImage req) w)) = collections w
   /\ points (snd (run (deleteImage req) w))
      = (if vector_deleted image w
         then delete_point (qdrantId image) (points w)
         else points w)
   /\ In (Called (BlobDel (filePath image)))
         (since (trace w) (snd (run (deleteImage req) w))))
  /\ (faults (env w) Mongo (S (calls w Mongo)) = None ->
      faults (env w) Mongo (S (S (calls w Mongo))) = Some e ->
      fst (run (deleteImage req) w)
      = inr (mkResponse 500
               (JFailure "Error deleting image" (Some (message e)) None))
      /\ images (snd (run (deleteImage req) w)) = images w
      /\ collections (snd (run (deleteImage req) w))
         = pull_image (del_id req) (collections w)
      /\ points (snd (run (deleteImage req) w))
         = (if vector_deleted image w
            then delete_point (qdrantId image) (points w)
            else points w)
      /\ In (Called (BlobDel (filePath image)))
            (since (trace w) (snd (run (deleteImage req) w)))).
Proof.
  intros HM Hfind Huser. unfold answers in HM.
  pose proof (find_by_id_id _ _ _ Hfind) as Hid.
  apply Nat.eqb_eq in Huser.
  unfold vector_deleted.
  unfold deleteImage, run, isQdrantConnected, getQdrantClient.
  rewrite <- Hid in *.
  split; [intros H1 | intros H1 H2].
  - execute_known fail.
    all: cbn [andb is_none].
    all: repeat split; try reflexivity.
    all: since_tac; cbn [In]; auto.
  - execute_known fail.
    all: cbn [andb is_none].
    all: repeat split; try reflexivity.
    all: since_tac; cbn [In]; auto.
Qed.

(** X8.  A deletion that breaks off is not undone.  The owner asks to
    delete a stored record and the lookup is answered.  If the next call to
    the record store, the removal of the record from the collections, is
    rejected, or if that is answered and the deletion of the record itself
    is rejected, the answer is 500 with the message of the error and the
    record is still in the store; yet the blob deletion has been called,
    the vector is gone from the index whenever its deletion went through,
    and in the second case the collections no longer refer to the record. *)
Theorem delete_is_not_atomic (req : DeleteRequest) (w : World)
  (image : Image) (e : JsError) :
  answers Mongo w ->
  find_by_id (del_id req) (images w) = Some image ->
  user image = del_user req ->
  faults (env w) Mongo (S (calls w Mongo)) = Some e
  \/ (faults (env w) Mongo (S (calls w Mongo)) = None
      /\ faults (env w) Mongo (S (S (calls w Mongo))) = Some e) ->
  fst (run (deleteImage req) w)
  = inr (mkResponse 500
           (JFailure "Error deleting image" (Some (message e)) None))
  /\ find_by_id (del_id req) (images (snd (run (deleteImage req) w)))
     = Some image
  /\ In (Called (BlobDel (filePath image)))
        (since (trace w) (snd (run (deleteImage req) w)))
  /\ (vector_deleted image w = true ->
      forall p, In p (points (snd (run (deleteImage req) w))) ->
                point_id p <> qdrantId image)
  /\ (faults (env w) Mongo (S (calls w Mongo)) = None ->
      forall c, In c (collections (snd (run (deleteImage req) w))) ->
                ~ In (del_id req) (coll_images c)).
Proof.
  intros HM Hfind Huser Hcase.
  destruct (deleteImage_interrupted req w image e HM Hfind Huser) as [K1 K2].
  destruct Hcase as [H1 | [H1 H2]].
  - destruct (K1 H1) as (Hr & Hi & Hc & Hp & Hb).
    split; [exact Hr|]. split; [rewrite Hi; exact Hfind|].
    split; [exact Hb|]. split.
    + intros Hv p Hin. rewrite Hp, Hv in Hin.
      eapply delete_point_gone. exact Hin.
    + intros H. congruence.
  - destruct (K2 H1 H2) as (Hr & Hi & Hc & Hp & Hb).
    split; [exact Hr|]. split; [rewrite Hi; exact Hfind|].
    split; [exact Hb|]. split.
    + intros Hv p Hin. rewrite Hp, Hv in Hin.
      eapply delete_point_gone. exact Hin.
    + intros _ c Hin. rewrite Hc in Hin.
      eapply pull_image_gone. exact Hin.
Qed.

(** X8, an instance: the record store fails after the lookup; record 1 is
    still stored and its vector "q1" is gone. *)
Lemma delete_is_not_atomic_witness :
  find_by_id 1
    (images (snd (run (deleteImage delete_first) broken_delete_world)))
  = Some (embedded_record 1)
  /\ forall p,
       In p (points (snd (run (deleteImage delete_first)
                            broken_delete_world))) ->
       point_id p <> "q1".
Proof.
  destruct (delete_is_not_atomic delete_first broken_delete_world
              (embedded_record 1) (new_Error "connection closed")
              eq_refl eq_refl eq_refl (or_introl eq_refl))
    as (_ & H2 & _ & H4 & _).
  split; [exact H2 | exact (H4 eq_refl)].
Defined.

(* ================================================================== *)
(** * 33. The pipeline when everything is up                          *)
(* ================================================================== *)

Lemma processImageEmbedding_success image w :
  services_up w ->
  run (processImageEmbedding image) w
  = (inr true, snd (run (processImageEmbedding image) w))
  /\ images (snd (run (processImageEmbedding image) w))
     = update_by_id (_id image) SetCompleted
         (update_by_id (_id image) (SetProcessing (clock (globals w)))
            (images w))
  /\ points (snd (run (processImageEmbedding image) w))
     = upsert_point (embedded_point (env w) image) (points w)
  /\ env (snd (run (processImageEmbedding image) w)) = env w
  /\ clock (globals (snd (run (processImageEmbedding image) w)))
     = clock (globals w)
  /\ isProcessing (globals (snd (run (processImageEmbedding image) w)))
     = isProcessing (globals w)
  /\ services_up (snd (run (processImageEmbedding image) w)).
Proof.
  intros (Hv & Hp & Hq & Hc & HMo & HM & HQ).
  unfold services_up, embedded_point, up.
  unfold processImageEmbedding, run, isQdrantConnected, checkQdrantHealth,
    generateImageEmbedding, getQdrantClient.
  execute ltac:(first [apply HMo | apply HM | apply HQ]).
  repeat split; try reflexivity; assumption.
Qed.

Lemma processBatch_success batch :
  forall s f w,
    services_up w ->
    fst (run (processBatch batch s f) w) = inr (s + length batch, f)
    /\ images (snd (run (processBatch batch s f) w))
       = embed_all (clock (globals w)) batch (images w)
    /\ points (snd (run (processBatch batch s f) w))
       = index_all (env w) batch (points w)
    /\ env (snd (run (processBatch batch s f) w)) = env w
    /\ isProcessing (globals (snd (run (processBatch batch s f) w)))
       = isProcessing (globals w)
    /\ services_up (snd (run (processBatch batch s f) w)).
Proof.
  induction batch as [|image rest IH]; intros s f w Hw.
  - cbn. rewrite Nat.add_0_r. repeat split; try reflexivity; apply Hw.
  - cbn [processBatch]. rewrite run_bind.
    destruct (processImageEmbedding_success image w Hw)
      as (Hr & Hi & Hp & He & Hc & Hg & Hw1).
    rewrite Hr. cbv beta iota.
    destruct (IH (S s) f _ Hw1) as (Kr & Ki & Kp & Ke & Kg & Kw).
    split; [rewrite Kr; cbn [length]; f_equal; f_equal; lia|].
    split; [rewrite Ki, Hc, Hi; reflexivity|].
    split; [rewrite Kp, He, Hp; reflexivity|].
    split; [congruence|]. split; [congruence | exact Kw].
Qed.

Lemma services_up_flag b w :
  services_up w ->
  services_up (set_globals (set_isProcessing b (globals w)) w).
Proof. intros H. exact H. Qed.

Lemma pass_success w :
  isProcessing (globals w) = false ->
  model_ready (globals w) = true ->
  services_up w ->
  fst (run processPendingEmbeddings w) = inr tt
  /\ images (snd (run processPendingEmbeddings w))
     = embed_all (clock (globals w)) (selected w) (images w)
  /\ points (snd (run processPendingEmbeddings w))
     = index_all (env w) (selected w) (points w)
  /\ isProcessing (globals (snd (run processPendingEmbeddings w))) = false
  /\ services_up (snd (run processPendingEmbeddings w)).
Proof.
  intros Hp Hm Hw.
  pose proof Hw as (_ & _ & _ & _ & HMo & _).
  unfold run. rewrite pass_unfold, Hp, Hm. cbn [negb].
  rewrite run_among_try_finally.
  set (w0 := set_globals (set_isProcessing true (globals w)) w).
  change (run_among idle pass_body w0) with (run pass_body w0).
  unfold pass_body. rewrite run_try_catch, run_bind.
  change (run now w0) with (@inr JsError Millis (clock (globals w)), w0).
  cbv beta iota. rewrite run_bind, run_await.
  rewrite perform_answered by apply HMo.
  cbv beta iota.
  set (w1 := snd (effect (ImageFind (needsEmbedding (clock (globals w)))
                            NoSort (Some 10))
                    (record_call
                       (ImageFind (needsEmbedding (clock (globals w)))
                          NoSort (Some 10)) w0))).
  change (fst (effect (ImageFind (needsEmbedding (clock (globals w)))
                         NoSort (Some 10))
                 (record_call
                    (ImageFind (needsEmbedding (clock (globals w)))
                       NoSort (Some 10)) w0)))
    with (selected w).
  assert (Hw1 : services_up w1) by exact Hw.
  destruct (selected w) as [|image rest] eqn:Hsel.
  - cbn. repeat split; try reflexivity; apply Hw.
  - cbn [length Nat.eqb]. rewrite run_bind.
    destruct (processBatch_success (image :: rest) 0 0 w1 Hw1)
      as (Kr & Ki & Kp & Ke & Kg & Kw).
    destruct (run (processBatch (image :: rest) 0 0) w1) as [r w2].
    cbn [fst snd] in *. subst r. cbv beta iota.
    rewrite run_bind, run_await.
    pose proof Kw as (_ & _ & _ & _ & HMo2 & _).
    rewrite perform_answered by apply HMo2.
    cbn [run run_among modify fst snd effect record_call images points
         globals set_globals isProcessing set_isProcessing].
    split; [reflexivity|]. split; [assumption|]. split; [assumption|].
    split; [reflexivity | exact Kw].
Qed.

Lemma find_update_same i u l :
  find_by_id i (update_by_id i u l)
  = option_map (apply_update u) (find_by_id i l).
Proof.
  induction l as [|r l IH]; cbn; [reflexivity|].
  destruct (Nat.eqb (_id r) i) eqn:E; cbn.
  - rewrite apply_update_id, E. reflexivity.
  - rewrite E. exact IH.
Qed.

Lemma find_update_other i j u l :
  i <> j -> find_by_id i (update_by_id j u l) = find_by_id i l.
Proof.
  intros Hij. induction l as [|r l IH]; cbn; [reflexivity|].
  destruct (Nat.eqb_spec (_id r) j) as [E|E]; cbn.
  - rewrite apply_update_id.
    destruct (Nat.eqb_spec (_id r) i); [congruence | reflexivity].
  - destruct (Nat.eqb (_id r) i); [reflexivity | exact IH].
Qed.

Lemma find_by_id_unique l r :
  NoDup (map _id l) -> In r l -> find_by_id (_id r) l = Some r.
Proof.
  induction l as [|a l IH]; cbn; [tauto|].
  intros H. inversion H as [|x xs Hni Hnd]; subst.
  intros [<- | Hr]; [rewrite Nat.eqb_refl; reflexivity|].
  destruct (Nat.eqb_spec (_id a) (_id r)) as [E|E]; [|auto].
  exfalso. apply Hni. rewrite E. apply in_map. exact Hr.
Qed.

Lemma embed_all_ids t batch :
  forall l, map _id (embed_all t batch l) = map _id l.
Proof.
  induction batch as [|b rest IH]; intros l; cbn; [reflexivity|].
  unfold embed_all in IH. rewrite IH, !update_by_id_ids. reflexivity.
Qed.

Lemma embed_all_other t batch :
  forall l i, ~ In i (map _id batch) ->
              find_by_id i (embed_all t batch l) = find_by_id i l.
Proof.
  induction batch as [|b rest IH]; intros l i Hni; cbn; [reflexivity|].
  cbn in Hni. unfold embed_all in IH. rewrite IH by tauto.
  rewrite !find_update_other by (intros E; apply Hni; left; congruence).
  reflexivity.
Qed.

Lemma embed_all_selected t batch :
  forall l r,
    NoDup (map _id batch) -> In r batch ->
    find_by_id (_id r) l = Some r ->
    find_by_id (_id r) (embed_all t batch l) = Some (mark_embedded t r).
Proof.
  induction batch as [|b rest IH]; intros l r Hnd Hin Hf; [destruct Hin|].
  cbn [map] in Hnd. inversion Hnd as [|x xs Hni Hnd']; subst.
  change (embed_all t (b :: rest) l)
    with (embed_all t rest
            (update_by_id (_id b) SetCompleted
               (update_by_id (_id b) (SetProcessing t) l))).
  destruct Hin as [<- | Hin].
  - rewrite embed_all_other by exact Hni.
    rewrite !find_update_same, Hf. reflexivity.
  - apply IH; try assumption.
    assert (Hne : _id r <> _id b).
    { intros E. apply Hni. rewrite <- E. apply in_map. exact Hin. }
    rewrite !find_update_other by exact Hne. exact Hf.
Qed.

Lemma upsert_point_keeps_id p l q :
  In q l -> exists q', In q' (upsert_point p l) /\ point_id q' = point_id q.
Proof.
  induction l as [|a l IH]; cbn; [tauto|].
  destruct (String.eqb_spec (point_id a) (point_id p)) as [E|E].
  - intros [<- | H]; [exists p; cbn; auto | exists q; cbn; auto].
  - intros [<- | H]; [exists a; cbn; auto|].
    destruct (IH H) as (q' & H1 & H2). exists q'. cbn. auto.
Qed.

Lemma upsert_point_keeps_other p l q :
  In q l -> point_id q <> point_id p -> In q (upsert_point p l).
Proof.
  intros Hin Hne. induction l as [|a l IH]; cbn in *; [tauto|].
  destruct (String.eqb_spec (point_id a) (point_id p)) as [E|E].
  - destruct Hin as [<- | H]; [congruence | cbn; auto].
  - destruct Hin as [<- | H]; cbn; auto.
Qed.

Lemma index_all_keeps_id e batch :
  forall pts q,
    In q pts ->
    exists q', In q' (index_all e batch pts) /\ point_id q' = point_id q.
Proof.
  induction batch as [|b rest IH]; intros pts q Hin; cbn; [eauto|].
  destruct (upsert_point_keeps_id (embedded_point e b) pts q Hin)
    as (q1 & H1 & H2).
  destruct (IH _ q1 H1) as (q2 & H3 & H4).
  exists q2. split; [exact H3 | congruence].
Qed.

Lemma index_all_has e batch :
  forall pts r,
    In r batch ->
    exists p, In p (index_all e batch pts) /\ point_id p = qdrantId r.
Proof.
  induction batch as [|b rest IH]; intros pts r Hin; [destruct Hin|].
  cbn. destruct Hin as [<- | Hin]; [|apply IH; exact Hin].
  apply (index_all_keeps_id e rest _ (embedded_point e b)).
  apply upsert_point_In.
Qed.

Lemma index_all_other e batch :
  forall pts q,
    In q pts ->
    (forall r, In r batch -> qdrantId r <> point_id q) ->
    In q (index_all e batch pts).
Proof.
  induction batch as [|b rest IH]; intros pts q Hin Hne; cbn; [exact Hin|].
  apply IH.
  - apply upsert_point_keeps_other; [exact Hin|].
    intros E. apply (Hne b); [left; reflexivity|]. cbn in E. congruence.
  - intros r Hr. apply Hne. right. exact Hr.
Qed.

Lemma index_all_point e batch :
  forall pts r,
    NoDup (map qdrantId batch) -> In r batch ->
    In (embedded_point e r) (index_all e batch pts).
Proof.
  induction batch as [|b rest IH]; intros pts r Hnd Hin; [destruct Hin|].
  cbn [map] in Hnd. inversion Hnd as [|x xs Hni Hnd']; subst.
  cbn. destruct Hin as [<- | Hin]; [|apply IH; assumption].
  apply index_all_other; [apply upsert_point_In|].
  intros r Hr E. apply Hni. cbn in E. rewrite <- E. apply in_map. exact Hr.
Qed.

Lemma selected_NoDup w :
  NoDup (map _id (images w)) -> NoDup (map _id (selected w)).
Proof.
  intros H. rewrite selected_spec, <- firstn_map.
  apply NoDup_firstn, NoDup_map_filter. exact H.
Qed.

(** X9.  A pass of the pipeline with everything up: the guard clear, the
    model ready, the index flagged available with a client, and record
    store, model and index answering every call; document ids unique.
    Every record of the batch ends completed and embedded, the error
    cleared, with one attempt more and the time of the pass as the last
    attempt, and the index holds a point under its [qdrantId]: the point
    carrying the embedding of its file and its id, owner and file name as
    payload when the point ids of the batch differ.  Records outside the
    batch, and points under other ids, are as they were. *)
Theorem pass_embeds_selected (w : World) :
  isProcessing (globals w) = false ->
  model_ready (globals w) = true ->
  isQdrantAvailable (globals w) = true ->
  qdrantClient (globals w) = true ->
  up Mongo w -> up Model w -> up Qdrant w ->
  NoDup (map _id (images w)) ->
  (forall r, In r (selected w) ->
     exists r',
       find_by_id (_id r) (images (snd (run processPendingEmbeddings w)))
       = Some r'
       /\ r' = mark_embedded (clock (globals w)) r
       /\ embeddingStatus r' = completed
       /\ isEmbedded r' = true
       /\ embeddingError r' = None
       /\ embeddingAttempts r' = S (embeddingAttempts r)
       /\ lastEmbeddingAttempt r' = Some (clock (globals w))
       /\ exists p,
            In p (points (snd (run processPendingEmbeddings w)))
            /\ point_id p = qdrantId r)
  /\ (NoDup (map qdrantId (selected w)) ->
      forall r, In r (selected w) ->
        In (embedded_point (env w) r)
           (points (snd (run processPendingEmbeddings w))))
  /\ (forall i, ~ In i (map _id (selected w)) ->
        find_by_id i (images (snd (run processPendingEmbeddings w)))
        = find_by_id i (images w))
  /\ map _id (images (snd (run processPendingEmbeddings w)))
     = map _id (images w)
  /\ (forall q, In q (points w) ->
        (forall r, In r (selected w) -> qdrantId r <> point_id q) ->
        In q (points (snd (run processPendingEmbeddings w)))).
Proof.
  intros Hp Hm Hq Hc HMo HM HQ Hnd.
  assert (Hup : services_up w).
  { unfold model_ready in Hm.
    apply andb_true_iff in Hm. destruct Hm as [Hm _].
    apply andb_true_iff in Hm. destruct Hm as [Hm Hpr].
    apply andb_true_iff in Hm. destruct Hm as [Hm _].
    apply andb_true_iff in Hm. destruct Hm as [_ Hv].
    repeat split; assumption. }
  destruct (pass_success w Hp Hm Hup) as (_ & Hi & Hpts & _).
  rewrite Hi, Hpts.
  split.
  { intros r Hr.
    assert (Hin : In r (images w)).
    { rewrite selected_spec in Hr. apply In_firstn in Hr.
      apply filter_In in Hr. tauto. }
    exists (mark_embedded (clock (globals w)) r).
    split.
    { apply embed_all_selected;
        [apply selected_NoDup; exact Hnd | exact Hr |].
      apply find_by_id_unique; assumption. }
    repeat split; try reflexivity.
    apply index_all_has. exact Hr. }
  split; [intros Hnq r Hr; apply index_all_point; assumption|].
  split; [intros i Hi'; apply embed_all_other; exact Hi'|].
  split; [apply embed_all_ids|].
  intros q Hq' Hne. apply index_all_other; assumption.
Qed.

(** X9, an instance: a pass over [mixed_world].  The pending record is
    completed after one attempt and its point is in the index; the
    terminally failed record, which is not selected, is as it was. *)
Lemma pass_embeds_selected_witness :
  (exists r',
      find_by_id 1 (images (snd (run processPendingEmbeddings mixed_world)))
      = Some r'
      /\ embeddingStatus r' = completed
      /\ embeddingAttempts r' = 1)
  /\ find_by_id 2 (images (snd (run processPendingEmbeddings mixed_world)))
     = Some terminal_record
  /\ In (embedded_point (env mixed_world) pending_record)
        (points (snd (run processPendingEmbeddings mixed_world))).
Proof.
  destruct (pass_embeds_selected mixed_world eq_refl eq_refl eq_refl eq_refl
              (demo_world_up _ _ _ _ Mongo) (demo_world_up _ _ _ _ Model)
              (demo_world_up _ _ _ _ Qdrant) (proj1 mixed_world_unique))
    as (H1 & H2 & H3 & _).
  assert (Hsel : selected mixed_world = [pending_record; past_delay_record])
    by (vm_compute; reflexivity).
  split; [|split].
  - destruct (H1 pending_record) as (r' & Hf & _ & Hs & _ & _ & Ha & _).
    { rewrite Hsel. left. reflexivity. }
    exists r'. split; [exact Hf|]. split; [exact Hs | exact Ha].
  - rewrite (H3 2); [reflexivity|].
    rewrite Hsel. cbn. intros [H|[H|[]]]; discriminate.
  - apply H2.
    + rewrite Hsel. cbn. repeat constructor; cbn; intuition discriminate.
    + rewrite Hsel. left. reflexivity.
Defined.

(* ================================================================== *)
(** * 34. The pipeline when an attempt fails                          *)
(* ================================================================== *)

(** An attempt that fails while the record store answers: in the model, or
    in the write to the index. *)
Lemma processImageEmbedding_failure image w e :
  up Mongo w ->
  ((visionModel (globals w) = false \/ processor (globals w) = false)
   /\ e = new_Error "AI model not initialized")
  \/ (visionModel (globals w) = true /\ processor (globals w) = true
      /\ faults (env w) Model (calls w Model) = Some e)
  \/ (visionModel (globals w) = true /\ processor (globals w) = true
      /\ faults (env w) Model (calls w Model) = None
      /\ isQdrantAvailable (globals w) = true
      /\ qdrantClient (globals w) = true
      /\ faults (env w) Qdrant (S (calls w Qdrant)) = Some e) ->
  fst (run (processImageEmbedding image) w) = inr false
  /\ images (snd (run (processImageEmbedding image) w))
     = update_by_id (_id image) (SetFailed (message e))
         (update_by_id (_id image) (SetProcessing (clock (globals w)))
            (images w))
  /\ points (snd (run (processImageEmbedding image) w)) = points w.
Proof.
  intros HMo Hcase.
  unfold processImageEmbedding, run, isQdrantConnected, checkQdrantHealth,
    generateImageEmbedding, getQdrantClient.
  destruct Hcase as [[Hm ->] | [(Hv & Hp & HM) | (Hv & Hp & HM & Hq & Hc & HQ)]].
  - destruct Hm as [Hv | Hp].
    + execute_known ltac:(apply HMo). repeat split.
    + execute_known ltac:(apply HMo). all: repeat split.
  - execute_known ltac:(apply HMo). repeat split.
  - execute_known ltac:(apply HMo). all: repeat split.
Qed.

(** X10.  An attempt of the pipeline that fails while the record store
    answers.  If the model is not loaded, or rejects the image, or the
    index rejects the upsert, [processImageEmbedding] returns false and the
    record is left failed with the message of the error, its attempt
    counted and dated, [isEmbedded] as it was; no point has been written,
    and the other records are as they were. *)
Theorem failed_attempt_is_recorded (image r0 : Image) (w : World)
  (e : JsError) :
  up Mongo w ->
  find_by_id (_id image) (images w) = Some r0 ->
  ((visionModel (globals w) = false \/ processor (globals w) = false)
   /\ e = new_Error "AI model not initialized")
  \/ (visionModel (globals w) = true /\ processor (globals w) = true
      /\ faults (env w) Model (calls w Model) = Some e)
  \/ (visionModel (globals w) = true /\ processor (globals w) = true
      /\ faults (env w) Model (calls w Model) = None
      /\ isQdrantAvailable (globals w) = true
      /\ qdrantClient (globals w) = true
      /\ faults (env w) Qdrant (S (calls w Qdrant)) = Some e) ->
  fst (run (processImageEmbedding image) w) = inr false
  /\ (exists r1,
        find_by_id (_id image)
          (images (snd (run (processImageEmbedding image) w))) = Some r1
        /\ embeddingStatus r1 = failed
        /\ embeddingError r1 = Some (message e)
        /\ embeddingAttempts r1 = S (embeddingAttempts r0)
        /\ lastEmbeddingAttempt r1 = Some (clock (globals w))
        /\ isEmbedded r1 = isEmbedded r0)
  /\ points (snd (run (processImageEmbedding image) w)) = points w
  /\ (forall i, i <> _id image ->
        find_by_id i (images (snd (run (processImageEmbedding image) w)))
        = find_by_id i (images w)).
Proof.
  intros HMo Hf Hcase.
  destruct (processImageEmbedding_failure image w e HMo Hcase)
    as (Hr & Hi & Hp).
  split; [exact Hr|]. rewrite Hi. split; [|split; [exact Hp|]].
  - eexists. rewrite !find_update_same, Hf. cbn [option_map].
    repeat split.
  - intros i Hne. rewrite !find_update_other by exact Hne. reflexivity.
Qed.

(** X10, an instance: the index rejects every call; the attempt on the
    pending record ends failed with the message of the index. *)
Lemma failed_attempt_is_recorded_witness :
  exists r1,
    find_by_id 1
      (images (snd (run (processImageEmbedding pending_record)
                      outage_world))) = Some r1
    /\ embeddingStatus r1 = failed
    /\ embeddingError r1 = Some "ECONNREFUSED"
    /\ embeddingAttempts r1 = 1.
Proof.
  assert (HMo : up Mongo outage_world) by (intros n; reflexivity).
  destruct (failed_attempt_is_recorded pending_record pending_record
              outage_world (new_Error "ECONNREFUSED") HMo eq_refl)
    as (_ & (r1 & Hf & Hs & He & Ha & _) & _).
  { right. right. repeat split. }
  exists r1. repeat split; assumption.
Defined.

(* ================================================================== *)
(** * 35. A record left in processing                                 *)
(* ================================================================== *)

Lemma processImageEmbedding_abandoned image w e1 e2 :
  faults (env w) Mongo (calls w Mongo) = None ->
  ((visionModel (globals w) = false \/ processor (globals w) = false)
   /\ e1 = new_Error "AI model not initialized")
  \/ (visionModel (globals w) = true /\ processor (globals w) = true
      /\ faults (env w) Model (calls w Model) = Some e1) ->
  faults (env w) Mongo (S (calls w Mongo)) = Some e2 ->
  fst (run (processImageEmbedding image) w) = inl e2
  /\ images (snd (run (processImageEmbedding image) w))
     = update_by_id (_id image) (SetProcessing (clock (globals w)))
         (images w)
  /\ points (snd (run (processImageEmbedding image) w)) = points w.
Proof.
  intros HMo Hcase HMo2.
  unfold processImageEmbedding, run, isQdrantConnected, checkQdrantHealth,
    generateImageEmbedding, getQdrantClient.
  destruct Hcase as [[Hm ->] | (Hv & Hp & HM)].
  - destruct Hm as [Hv | Hp].
    + execute_known fail. repeat split.
    + execute_known fail. all: repeat split.
  - execute_known fail. repeat split.
Qed.

Lemma processing_not_selected re t r :
  embeddingStatus r = processing -> matches re (needsEmbedding t) r = false.
Proof.
  intros H. destruct (matches re (needsEmbedding t) r) eqn:E; [|reflexivity].
  apply needsEmbedding_eligible in E.
  destruct E as [E | (E & _)]; congruence.
Qed.

(** X11.  A record can be left in 'processing' for good.  When an attempt
    has marked the record processing, the embedding then fails, and the
    record store rejects the write of the failure, [processImageEmbedding]
    throws the error of the store: the loop of the pass ends there, before
    the records that follow in the batch, and the record stays
    'processing' with the attempt counted.  The selection query matches no
    record in 'processing', at any time, so no later pass picks it up. *)
Theorem abandoned_in_processing (image r0 : Image) (rest : list Image)
  (w : World) (e1 e2 : JsError) :
  find_by_id (_id image) (images w) = Some r0 ->
  faults (env w) Mongo (calls w Mongo) = None ->
  ((visionModel (globals w) = false \/ processor (globals w) = false)
   /\ e1 = new_Error "AI model not initialized")
  \/ (visionModel (globals w) = true /\ processor (globals w) = true
      /\ faults (env w) Model (calls w Model) = Some e1) ->
  faults (env w) Mongo (S (calls w Mongo)) = Some e2 ->
  fst (run (processImageEmbedding image) w) = inl e2
  /\ (forall s f,
        run (processBatch (image :: rest) s f) w
        = (inl e2, snd (run (processImageEmbedding image) w)))
  /\ exists r1,
       find_by_id (_id image)
         (images (snd (run (processImageEmbedding image) w))) = Some r1
       /\ embeddingStatus r1 = processing
       /\ embeddingAttempts r1 = S (embeddingAttempts r0)
       /\ forall t, matches (regex_i (env w)) (needsEmbedding t) r1 = false.
Proof.
  intros Hf HMo Hcase HMo2.
  destruct (processImageEmbedding_abandoned image w e1 e2 HMo Hcase HMo2)
    as (Hr & Hi & _).
  split; [exact Hr|]. split.
  - intros s f. cbn [processBatch]. rewrite run_bind.
    destruct (run (processImageEmbedding image) w) as [r w1].
    cbn [fst snd] in *. subst r. reflexivity.
  - rewrite Hi, find_update_same, Hf. cbn [option_map].
    eexists. split; [reflexivity|]. split; [reflexivity|].
    split; [reflexivity|].
    intros t. apply processing_not_selected. reflexivity.
Qed.

(** X11, an instance: the first of two pending records is left in
    'processing' and the second is not attempted. *)
Lemma abandoned_in_processing_witness :
  map state_of
    (images (snd (run (processBatch [pending_record; second_pending_record]
                         0 0) abandon_world)))
  = [(1, processing, false, 1, None); (5, pending, false, 0, None)].
Proof.
  destruct (abandoned_in_processing pending_record pending_record
              [second_pending_record] abandon_world
              (new_Error "unsupported image")
              (new_Error "connection closed") eq_refl eq_refl
              (or_intror (conj eq_refl (conj eq_refl eq_refl))) eq_refl)
    as (_ & H & _).
  rewrite (H 0 0). reflexivity.
Defined.

(* ================================================================== *)
(** * 36. What a pass leaves alone, and how much it embeds            *)
(* ================================================================== *)

Lemma respects_weaken (okc okc' : forall R, Call R -> Prop) okm {A : Type}
  (p : Prog A) :
  (forall R (c : Call R), okc R c -> okc' R c) ->
  respects okc okm p -> respects okc' okm p.
Proof.
  intros H. induction 1; constructor; auto.
Qed.

Lemma processImageEmbedding_touches image :
  respects (touches_only [_id image]) any_assignment
    (processImageEmbedding image).
Proof.
  respects_auto ltac:(first [exact I | left; reflexivity]).
Qed.

Lemma touches_only_more ids ids' R (c : Call R) :
  (forall i, In i ids -> In i ids') ->
  touches_only ids c -> touches_only ids' c.
Proof. intros H. destruct c; cbn; auto. Qed.

Lemma processBatch_touches batch s f :
  respects (touches_only (map _id batch)) any_assignment
    (processBatch batch s f).
Proof.
  revert s f. induction batch as [|image rest IH]; intros s f;
    cbn [processBatch map].
  - constructor.
  - apply respects_bind.
    + eapply respects_weaken; [|apply processImageEmbedding_touches].
      intros R c. apply touches_only_more.
      intros i [<- | []]. left. reflexivity.
    + intros b.
      assert (H : forall s' f',
                 respects (touches_only (_id image :: map _id rest))
                   any_assignment (processBatch rest s' f')).
      { intros s' f'. eapply respects_weaken; [|apply IH].
        intros R c. apply touches_only_more. intros i Hi. right. exact Hi. }
      destruct b; apply H.
Qed.

Lemma framed_same ids w w' :
  images w' = images w -> points w' = points w ->
  collections w' = collections w -> nextObjectId w' = nextObjectId w ->
  framed ids w w'.
Proof.
  intros H1 H2 H3 H4. unfold framed. rewrite H1, H2, H3, H4.
  repeat split; eauto.
Qed.

Lemma framed_refl ids w : framed ids w w.
Proof. apply framed_same; reflexivity. Qed.

Lemma framed_perform ids w R (c : Call R) w' :
  touches_only ids c -> framed ids w w' -> framed ids w (snd (perform c w')).
Proof.
  intros Hc (H1 & H2 & H3 & H4 & H5). unfold perform.
  destruct (faults (env w') (service_of c) (calls w' (service_of c)));
    [repeat split; assumption|].
  destruct c; try (repeat split; assumption); cbn in Hc; try contradiction.
  - (* findByIdAndUpdate, an id of the batch *)
    unfold framed. cbn [effect snd images points collections nextObjectId
                        set_images record_call].
    rewrite update_by_id_ids.
    split; [|repeat split; assumption].
    intros i Hi. rewrite find_update_other; [apply H1; exact Hi|].
    intros E. apply Hi. rewrite E. exact Hc.
  - (* upsert *)
    unfold framed. cbn [effect snd images points collections nextObjectId
                        set_points record_call].
    split; [exact H1|]. split; [exact H2|]. split; [|auto].
    intros q Hq. destruct (H3 q Hq) as (q1 & Hq1 & E1).
    destruct (upsert_point_keeps_id p _ q1 Hq1) as (q2 & Hq2 & E2).
    exists q2. split; [exact Hq2 | congruence].
Qed.

Lemma framed_run ids {A : Type} (p : Prog A) w w' :
  respects (touches_only ids) any_assignment p ->
  framed ids w w' -> framed ids w (snd (run p w')).
Proof.
  intros Hp Hw.
  apply (@respects_run (touches_only ids) any_assignment (framed ids w)).
  - intros R c w1 Hc H. apply framed_perform; assumption.
  - intros f w1 _ H. exact H.
  - exact Hp.
  - exact Hw.
Qed.

Lemma pass_body_framed w :
  framed (map _id (selected w)) w (snd (run pass_body w)).
Proof.
  unfold pass_body. rewrite run_try_catch, run_bind.
  change (run now w) with (@inr JsError Millis (clock (globals w)), w).
  cbv beta iota. rewrite run_bind, run_await.
  unfold perform. cbn [service_of].
  destruct (faults (env w) Mongo (calls w Mongo)).
  { cbn. apply framed_same; reflexivity. }
  cbv beta iota.
  set (w1 := record_call (ImageFind (needsEmbedding (clock (globals w)))
                            NoSort (Some 10)) w).
  change (effect (ImageFind (needsEmbedding (clock (globals w))) NoSort
                    (Some 10)) w1)
    with (selected w, w1).
  cbv beta iota.
  assert (Hrest : framed (map _id (selected w)) w
                    (snd (run
                       (if Nat.eqb (length (selected w)) 0 then
                          modify (set_isProcessing false) ;; Ret tt
                        else
                          processBatch (selected w) 0 0 ;;
                          await (ImageCountDocuments remaining) ;;
                          Ret tt) w1))).
  { apply framed_run; [|apply framed_same; reflexivity].
    destruct (Nat.eqb (length (selected w)) 0).
    - respects_auto ltac:(exact I).
    - apply respects_bind; [apply processBatch_touches|].
      intros _. respects_auto ltac:(exact I). }
  destruct (run _ w1) as [[e|[]] w2]; exact Hrest.
Qed.

Lemma pass_framed w :
  framed (map _id (selected w)) w (snd (run processPendingEmbeddings w)).
Proof.
  unfold run. rewrite pass_unfold.
  destruct (isProcessing (globals w)); [apply framed_refl|].
  destruct (negb (model_ready (globals w))); [apply framed_refl|].
  rewrite run_among_try_finally.
  pose proof (pass_body_framed
                (set_globals (set_isProcessing true (globals w)) w)) as H.
  unfold run in H.
  destruct (run_among idle pass_body _) as [r w1]. cbn [snd] in H.
  cbn [modify run_among snd]. exact H.
Qed.

Lemma embeds_app tr1 tr2 : embeds (tr1 ++ tr2) = embeds tr1 + embeds tr2.
Proof. unfold embeds. rewrite filter_app, length_app. reflexivity. Qed.

(** One attempt runs the vision model at most once. *)
Lemma processImageEmbedding_embeds image w :
  embeds (trace (snd (run (processImageEmbedding image) w)))
  <= S (embeds (trace w)).
Proof.
  unfold processImageEmbedding, run, isQdrantConnected, checkQdrantHealth,
    generateImageEmbedding, getQdrantClient.
  execute fail.
  all: rewrite ?embeds_app; cbn; lia.
Qed.

Lemma processBatch_embeds batch :
  forall s f w,
    embeds (trace (snd (run (processBatch batch s f) w)))
    <= embeds (trace w) + length batch.
Proof.
  induction batch as [|image rest IH]; intros s f w; cbn [processBatch].
  - cbn. lia.
  - rewrite run_bind.
    pose proof (processImageEmbedding_embeds image w) as H.
    destruct (run (processImageEmbedding image) w) as [[e|b] w1];
      cbn [snd length] in *; [lia|].
    destruct b.
    + specialize (IH (S s) f w1). lia.
    + specialize (IH s (S f) w1). lia.
Qed.

Lemma pass_body_embeds w :
  embeds (trace (snd (run pass_body w)))
  <= embeds (trace w) + length (selected w).
Proof.
  unfold pass_body. rewrite run_try_catch, run_bind.
  change (run now w) with (@inr JsError Millis (clock (globals w)), w).
  cbv beta iota. rewrite run_bind, run_await.
  unfold perform. cbn [service_of].
  destruct (faults (env w) Mongo (calls w Mongo)).
  { cbn -[embeds]. rewrite embeds_app. cbn. lia. }
  cbv beta iota.
  set (w1 := record_call (ImageFind (needsEmbedding (clock (globals w)))
                            NoSort (Some 10)) w).
  change (effect (ImageFind (needsEmbedding (clock (globals w))) NoSort
                    (Some 10)) w1)
    with (selected w, w1).
  cbv beta iota.
  assert (H1 : embeds (trace w1) = embeds (trace w)).
  { unfold w1. cbn -[embeds]. rewrite embeds_app. cbn. lia. }
  clearbody w1.
  destruct (Nat.eqb (length (selected w)) 0).
  { unfold run. cbn [run_among modify bind snd trace set_globals]. lia. }
  rewrite run_bind.
  pose proof (processBatch_embeds (selected w) 0 0 w1) as H2.
  destruct (run (processBatch (selected w) 0 0) w1) as [[e|r] w2];
    cbn [snd] in *; [unfold run; cbn [run_among snd]; lia|].
  rewrite run_bind, run_await.
  pose proof (perform_trace (ImageCountDocuments remaining) w2) as H3.
  destruct (perform (ImageCountDocuments remaining) w2) as [[e|n] w3];
    cbn [snd] in *; unfold run; cbn [run_among snd]; rewrite H3, embeds_app;
    change (embeds [Called (ImageCountDocuments remaining)]) with 0; lia.
Qed.

Lemma pass_embeds w :
  embeds (trace (snd (run processPendingEmbeddings w)))
  <= embeds (trace w) + length (selected w).
Proof.
  unfold run. rewrite pass_unfold.
  destruct (isProcessing (globals w)); [cbn -[embeds]; lia|].
  destruct (negb (model_ready (globals w))); [cbn -[embeds]; lia|].
  rewrite run_among_try_finally.
  pose proof (pass_body_embeds
                (set_globals (set_isProcessing true (globals w)) w)) as H.
  unfold run in H.
  destruct (run_among idle pass_body _) as [r w1]. cbn [snd] in H.
  cbn [modify run_among snd]. exact H.
Qed.

(** The calls of a run come after those made before. *)
Lemma run_trace_extends {A : Type} (p : Prog A) :
  forall w, exists tr, trace (snd (run p w)) = trace w ++ tr.
Proof.
  induction p as [a|e|R c k IH|k IH|m k IH]; intros w.
  - exists []. cbn. rewrite app_nil_r. reflexivity.
  - exists []. cbn. rewrite app_nil_r. reflexivity.
  - unfold run. cbn [run_among].
    pose proof (perform_trace c w) as H.
    destruct (perform c w) as [r w1]. cbn [snd] in H.
    destruct (IH r w1) as (tr & Ht). unfold run in Ht.
    change (idle (length (trace w)) w1) with w1.
    exists (Called c :: tr). rewrite Ht, H, <- app_assoc. reflexivity.
  - apply (IH (globals w) w).
  - destruct (IH (set_globals (m (globals w)) w)) as (tr & Ht).
    exists tr. exact Ht.
Qed.

Lemma selected_at_most_10 w : length (selected w) <= 10.
Proof. rewrite selected_spec. apply firstn_le_length. Qed.

(** X12.  What a pass of the pipeline leaves alone, whichever calls fail.
    Records whose id is not in the batch are as they were; no record and no
    point id is added or removed; the collections are untouched.  The
    vision model is run at most once per record of the batch, so at most
    ten times in a pass. *)
Theorem pass_is_framed_and_bounded (w : World) :
  (forall i, ~ In i (map _id (selected w)) ->
     find_by_id i (images (snd (run processPendingEmbeddings w)))
     = find_by_id i (images w))
  /\ map _id (images (snd (run processPendingEmbeddings w)))
     = map _id (images w)
  /\ (forall q, In q (points w) ->
        exists q',
          In q' (points (snd (run processPendingEmbeddings w)))
          /\ point_id q' = point_id q)
  /\ collections (snd (run processPendingEmbeddings w)) = collections w
  /\ embeds (since (trace w) (snd (run processPendingEmbeddings w)))
     <= length (selected w)
  /\ embeds (since (trace w) (snd (run processPendingEmbeddings w))) <= 10.
Proof.
  destruct (pass_framed w) as (H1 & H2 & H3 & H4 & _).
  split; [exact H1|]. split; [exact H2|]. split; [exact H3|].
  split; [exact H4|].
  assert (H : embeds (since (trace w) (snd (run processPendingEmbeddings w)))
              <= length (selected w)).
  { pose proof (pass_embeds w) as Hb.
    destruct (run_trace_extends processPendingEmbeddings w) as (tr & Ht).
    unfold since. rewrite Ht in *.
    rewrite skipn_app, skipn_all, Nat.sub_diag. cbn [skipn app].
    rewrite embeds_app in Hb. lia. }
  split; [exact H|]. pose proof (selected_at_most_10 w). lia.
Qed.

(* ================================================================== *)
(** * 37. The index flagged unavailable                               *)
(* ================================================================== *)

Lemma index_left_alone_trans w1 w2 w3 :
  index_left_alone w1 w2 -> index_left_alone w2 w3 ->
  index_left_alone w1 w3.
Proof.
  intros (A1 & A2 & A3) (B1 & B2 & B3). repeat split; congruence.
Qed.

Ltac off_tac :=
  repeat split; try reflexivity; try assumption; try congruence.

Lemma processImageEmbedding_off image w :
  isQdrantAvailable (globals w) = false ->
  index_left_alone w (snd (run (processImageEmbedding image) w)).
Proof.
  intros H. unfold index_left_alone.
  unfold processImageEmbedding, run, isQdrantConnected, checkQdrantHealth,
    generateImageEmbedding, getQdrantClient.
  execute fail.
  all: off_tac.
Qed.

Lemma processBatch_off batch :
  forall s f w,
    isQdrantAvailable (globals w) = false ->
    index_left_alone w (snd (run (processBatch batch s f) w)).
Proof.
  induction batch as [|image rest IH]; intros s f w H; cbn [processBatch].
  - cbn. repeat split. exact H.
  - rewrite run_bind.
    pose proof (processImageEmbedding_off image w H) as K.
    destruct (run (processImageEmbedding image) w) as [[e|b] w1];
      cbn [snd] in *; [exact K|].
    destruct b;
      (eapply index_left_alone_trans; [exact K | apply IH; apply K]).
Qed.

Lemma pass_body_off w :
  isQdrantAvailable (globals w) = false ->
  index_left_alone w (snd (run pass_body w)).
Proof.
  intros H.
  unfold pass_body. rewrite run_try_catch, run_bind.
  change (run now w) with (@inr JsError Millis (clock (globals w)), w).
  cbv beta iota. rewrite run_bind, run_await.
  unfold perform. cbn [service_of].
  destruct (faults (env w) Mongo (calls w Mongo)).
  { cbn. repeat split. exact H. }
  cbv beta iota.
  set (w1 := record_call (ImageFind (needsEmbedding (clock (globals w)))
                            NoSort (Some 10)) w).
  change (effect (ImageFind (needsEmbedding (clock (globals w))) NoSort
                    (Some 10)) w1)
    with (selected w, w1).
  cbv beta iota.
  assert (H1 : index_left_alone w w1) by (repeat split; exact H).
  clearbody w1.
  destruct (Nat.eqb (length (selected w)) 0).
  { unfold run. cbn [run_among modify bind snd]. exact H1. }
  rewrite run_bind.
  pose proof (processBatch_off (selected w) 0 0 w1 (proj1 H1)) as H2.
  pose proof (index_left_alone_trans _ _ _ H1 H2) as H3.
  destruct (run (processBatch (selected w) 0 0) w1) as [[e|r] w2];
    cbn [snd] in *; [exact H3|].
  rewrite run_bind, run_await.
  unfold perform. cbn [service_of].
  destruct (faults (env w2) Mongo (calls w2 Mongo)); exact H3.
Qed.

Lemma pass_off w :
  isQdrantAvailable (globals w) = false ->
  index_left_alone w (snd (run processPendingEmbeddings w)).
Proof.
  intros H. unfold run. rewrite pass_unfold.
  destruct (isProcessing (globals w)); [repeat split; exact H|].
  destruct (negb (model_ready (globals w))); [repeat split; exact H|].
  rewrite run_among_try_finally.
  pose proof (pass_body_off
                (set_globals (set_isProcessing true (globals w)) w) H) as K.
  unfold run in K.
  destruct (run_among idle pass_body _) as [r w1]. cbn [snd] in K.
  cbn [modify run_among snd]. exact K.
Qed.

Lemma uploadFile_off u ai file w :
  isQdrantAvailable (globals w) = false ->
  index_left_alone w (snd (run (uploadFile u ai file) w)).
Proof.
  intros H. unfold index_left_alone.
  unfold uploadFile, run, uuidv4, getImageMetadata, isQdrantConnected,
    checkQdrantHealth, generateImageEmbedding, getQdrantClient.
  execute fail.
  all: off_tac.
Qed.

Lemma uploadFiles_off u ai files :
  forall uploaded errors w,
    isQdrantAvailable (globals w) = false ->
    index_left_alone w
      (snd (run (uploadFiles u ai files uploaded errors) w)).
Proof.
  induction files as [|file rest IH]; intros uploaded errors w H.
  - cbn. repeat split. exact H.
  - cbn [uploadFiles]. rewrite run_bind, run_try_catch, run_bind.
    pose proof (uploadFile_off u ai file w H) as K.
    destruct (run (uploadFile u ai file) w) as [[e|img] w1];
      cbn [snd] in K.
    + change (run (Ret (inl (originalname file, message e))) w1)
        with (@inr JsError (string * string + Image)
                (inl (originalname file, message e)), w1).
      cbv beta iota.
      eapply index_left_alone_trans; [exact K | apply IH; apply K].
    + change (run (Ret (inr img)) w1)
        with (@inr JsError (string * string + Image) (inr img), w1).
      cbv beta iota.
      eapply index_left_alone_trans; [exact K | apply IH; apply K].
Qed.

Lemma uploadMultipleImages_off req w :
  isQdrantAvailable (globals w) = false ->
  index_left_alone w (snd (run (uploadMultipleImages req) w)).
Proof.
  intros H.
  destruct (uploadMultipleImages_cases req w) as (H1 & H2 & _).
  cbv zeta in *.
  destruct (isMongoConnected (globals w)) eqn:Hm;
    [|destruct (H1 eq_refl) as [_ ->]; repeat split; exact H].
  destruct (many_files req) as [[|file rest]|] eqn:Hf;
    [ destruct (H2 eq_refl (or_intror eq_refl)) as [_ ->];
      repeat split; exact H
    | | destruct (H2 eq_refl (or_introl eq_refl)) as [_ ->];
        repeat split; exact H ].
  unfold uploadMultipleImages.
  rewrite run_try_catch, run_bind.
  change (run isMongoDBConnected w)
    with (@inr JsError bool (isMongoConnected (globals w)), w).
  cbv beta iota. rewrite Hm, Hf. cbn [negb]. rewrite run_bind.
  change (run isAIModelReady w)
    with (@inr JsError bool (model_ready (globals w)), w).
  cbv beta iota. rewrite run_bind.
  pose proof (uploadFiles_off (many_user req) (model_ready (globals w))
                (file :: rest) [] [] w H) as K.
  destruct (uploadFiles_outcomes (many_user req) (model_ready (globals w))
              (file :: rest) [] [] w) as (imgs & errs & Hrun & _).
  destruct (run (uploadFiles (many_user req) (model_ready (globals w))
                   (file :: rest) [] []) w) as [r w1].
  cbn [fst snd] in *. subst r. cbn [app fst snd].
  rewrite run_bind.
  change (run (modify bump_pendingTriggers) w1)
    with (@inr JsError unit tt,
          set_globals (bump_pendingTriggers (globals w1)) w1).
  cbv beta iota. cbn [run run_among fst snd].
  exact K.
Qed.

Lemma handlers_off w :
  isQdrantAvailable (globals w) = false ->
  (forall req, index_left_alone w (snd (run (uploadImage req) w)))
  /\ (forall req, index_left_alone w (snd (run (deleteImage req) w)))
  /\ (forall req, index_left_alone w (snd (run (searchImages req) w)))
  /\ index_left_alone w (snd (run getServiceStatus w))
  /\ index_left_alone w (snd (run health w)).
Proof.
  intros H. unfold index_left_alone.
  split; [|split; [|split; [|split]]]; intros.
  - unfold uploadImage, run, isMongoDBConnected, isAIModelReady, uuidv4,
      getImageMetadata, isQdrantConnected, checkQdrantHealth,
      generateImageEmbedding, getQdrantClient, model_ready.
    execute fail. all: off_tac.
  - unfold deleteImage, run, isQdrantConnected, getQdrantClient.
    execute fail. all: off_tac.
  - unfold searchImages, run, isQdrantConnected, checkQdrantHealth,
      isAIModelReady, model_ready, generateTextEmbedding, getQdrantClient.
    execute fail. all: off_tac.
  - unfold getServiceStatus, getEmbeddingStats, run, isMongoDBConnected,
      isQdrantConnected, checkQdrantHealth, isAIModelReady, model_ready.
    execute fail. all: off_tac.
  - unfold health, run, isMongoDBConnected, isQdrantConnected,
      checkQdrantHealth, isAIModelReady, model_ready.
    execute fail. all: off_tac.
Qed.

(** X13.  Once [isQdrantAvailable] is false, no request and no pass of the
    pipeline brings the index back.  [uploadImage], [uploadMultipleImages],
    [deleteImage], [searchImages], [getServiceStatus], the health check and
    [processPendingEmbeddings], with any request and whichever calls fail,
    leave the flag false, make no call to the index, not even the health
    probe, and leave its points as they are. *)
Theorem index_stays_off (w : World) :
  isQdrantAvailable (globals w) = false ->
  forall w',
    w' = snd (run processPendingEmbeddings w)
    \/ (exists req, w' = snd (run (uploadMultipleImages req) w))
    \/ (exists req, w' = snd (run (uploadImage req) w))
    \/ (exists req, w' = snd (run (deleteImage req) w))
    \/ (exists req, w' = snd (run (searchImages req) w))
    \/ w' = snd (run getServiceStatus w)
    \/ w' = snd (run health w) ->
    isQdrantAvailable (globals w') = false
    /\ calls w' Qdrant = calls w Qdrant
    /\ points w' = points w.
Proof.
  intros H w' Hw'.
  destruct (handlers_off w H) as (H1 & H2 & H3 & H4 & H5).
  destruct Hw' as [-> | [[req ->] | [[req ->] | [[req ->] | [[req ->]
                  | [-> | ->]]]]]].
  - apply pass_off. exact H.
  - apply uploadMultipleImages_off. exact H.
  - apply H1.
  - apply H2.
  - apply H3.
  - exact H4.
  - exact H5.
Qed.

(** X13, an instance: the index flagged unavailable, a query and then a
    pass of the pipeline. *)
Lemma index_stays_off_witness :
  isQdrantAvailable
    (globals (snd (run (searchImages sunset_request) index_down_world)))
  = false
  /\ points (snd (run processPendingEmbeddings index_flagged_down_world))
     = [].
Proof.
  split.
  - exact (proj1 (index_stays_off index_down_world eq_refl _
                    (or_intror (or_intror (or_intror (or_intror
                       (or_introl (ex_intro _ sunset_request eq_refl)))))))).
  - exact (proj2 (proj2 (index_stays_off index_flagged_down_world eq_refl _
                           (or_introl eq_refl)))).
Defined.

(* ================================================================== *)
(** * 38. Statistics of a user                                        *)
(* ================================================================== *)

Lemma count_filter_scope u (g : Image -> bool) l :
  count (fun r => in_scope (Some u) r && g r) l
  = count g (filter (fun r => Nat.eqb (user r) u) l).
Proof.
  unfold count. induction l as [|r l IH]; [reflexivity|].
  cbn [filter in_scope] in *.
  destruct (Nat.eqb (user r) u); cbn [andb filter];
    [destruct (g r); cbn [length]|]; rewrite IH; reflexivity.
Qed.

Lemma count_scope u l :
  count (in_scope (Some u)) l
  = length (filter (fun r => Nat.eqb (user r) u) l).
Proof. reflexivity. Qed.

Lemma embeddingStatsHandler_run u w :
  up Mongo w ->
  fst (run (embeddingStatsHandler u) w)
  = inr (inr (mkStats
                (length (filter (fun r => Nat.eqb (user r) u) (images w)))
                (count isEmbedded
                   (filter (fun r => Nat.eqb (user r) u) (images w)))
                (count (has_status pending)
                   (filter (fun r => Nat.eqb (user r) u) (images w)))
                (count (has_status processing)
                   (filter (fun r => Nat.eqb (user r) u) (images w)))
                (count retryable
                   (filter (fun r => Nat.eqb (user r) u) (images w)))
                (percentage
                   (count isEmbedded
                      (filter (fun r => Nat.eqb (user r) u) (images w)))
                   (length
                      (filter (fun r => Nat.eqb (user r) u) (images w)))))).
Proof.
  intros Hup. unfold embeddingStatsHandler.
  rewrite run_try_catch, run_bind.
  pose proof (getEmbeddingStats_run (Some u) w Hup) as H.
  destruct (run (getEmbeddingStats (Some u)) w) as [r w1].
  cbn [fst] in H. subst r. cbn [fst run run_among].
  rewrite !count_filter_scope, count_scope. reflexivity.
Qed.

(** X18.  The statistics a user is shown depend on that user's records
    alone.  [GET /stats/embeddings] never throws; when the record store
    rejects a count it answers 500 with the message of the error; and in
    two worlds whose record stores answer and hold the same records of the
    user, whatever else they hold, it gives the same statistics.  The five
    counts are asked for together: all five calls are made, whichever of
    them are rejected. *)
Theorem stats_of_a_user (u : ObjectId) (w : World) :
  (exists answer, fst (run (embeddingStatsHandler u) w) = inr answer
     /\ match answer with
        | inl resp =>
            exists e n,
              faults (env w) Mongo n = Some e
              /\ resp = mkResponse 500
                          (JFailure "Error fetching embedding stats"
                             (Some (message e)) None)
        | inr _ => True
        end)
  /\ (forall w',
        up Mongo w -> up Mongo w' ->
        filter (fun r => Nat.eqb (user r) u) (images w')
        = filter (fun r => Nat.eqb (user r) u) (images w) ->
        fst (run (embeddingStatsHandler u) w')
        = fst (run (embeddingStatsHandler u) w)
        /\ exists stats,
             fst (run (embeddingStatsHandler u) w) = inr (inr stats)
             /\ stats_total stats
                = length (filter (fun r => Nat.eqb (user r) u) (images w)))
  /\ calls (snd (run (embeddingStatsHandler u) w)) Mongo = 5 + calls w Mongo
  /\ length (since (trace w) (snd (run (embeddingStatsHandler u) w))) = 5.
Proof.
  split; [|split].
  - unfold embeddingStatsHandler. rewrite run_try_catch, run_bind.
    pose proof (getEmbeddingStats_cases (Some u) w) as H. cbv zeta in H.
    destruct (run (getEmbeddingStats (Some u)) w) as [[e|st] w1];
      cbn [fst snd] in H;
      destruct H as (_ & _ & _ & _ & _ & _ & _ & _ & _ & _ & _ & _ & Ge & _).
    + destruct (Ge e eq_refl) as (n & _ & Hn).
      eexists. split; [reflexivity|]. exists e. eexists.
      split; [exact Hn | reflexivity].
    + eexists. split; [reflexivity | exact I].
  - intros w' Hw Hw' Hsame.
    rewrite (embeddingStatsHandler_run u w Hw),
      (embeddingStatsHandler_run u w' Hw'), Hsame.
    split; [reflexivity|]. eexists. split; reflexivity.
  - unfold embeddingStatsHandler. rewrite run_try_catch, run_bind.
    pose proof (getEmbeddingStats_cases (Some u) w) as H. cbv zeta in H.
    destruct (run (getEmbeddingStats (Some u)) w) as [[e|st] w1];
      cbn [fst snd] in H;
      destruct H as (_ & _ & _ & _ & _ & _ & Hc & _ & _ & _ & Ht & _);
      cbn [run run_among fst snd]; rewrite Ht;
      (split; [exact Hc | reflexivity]).
Qed.

(** X18, an instance: the statistics of user 7 are those of a store without
    the record of user 8. *)
Lemma stats_of_a_user_witness :
  fst (run (embeddingStatsHandler 7) shared_world)
  = fst (run (embeddingStatsHandler 7) search_world)
  /\ exists stats,
       fst (run (embeddingStatsHandler 7) search_world) = inr (inr stats)
       /\ stats_total stats = 2.
Proof.
  destruct (stats_of_a_user 7 search_world) as (_ & H & _).
  destruct (H shared_world (demo_world_up _ _ _ _ Mongo)
              (demo_world_up _ _ _ _ Mongo) eq_refl)
    as (H1 & stats & H2 & H3).
  split; [exact H1|]. exists stats. split; [exact H2 | exact H3].
Defined.

(* ================================================================== *)
(** * 39. Uploads that are turned away                                *)
(* ================================================================== *)

Lemma truthy_not_empty o :
  truthy o = true -> or_default o EmptyString <> EmptyString.
Proof.
  destruct o as [s|]; cbn; [|discriminate].
  intros H E. subst s. discriminate H.
Qed.

Lemma handleMulterError_400 err :
  exists msg,
    handleMulterError (Some err) = Some (bad_request msg)
    /\ msg <> EmptyString.
Proof.
  unfold handleMulterError.
  destruct (is_MulterError err).
  - destruct (code_is err "LIMIT_FILE_SIZE");
      [eexists; split; [reflexivity | discriminate]|].
    destruct (code_is err "LIMIT_FILE_COUNT");
      [eexists; split; [reflexivity | discriminate]|].
    destruct (code_is err "LIMIT_UNEXPECTED_FILE" || truthy (err_field err));
      [eexists; split; [reflexivity | discriminate]|].
    eexists. split; [reflexivity|].
    destruct (truthy (err_message err)) eqn:T;
      [apply truthy_not_empty; exact T | discriminate].
  - eexists. split; [reflexivity|].
    destruct (truthy (err_message err)) eqn:T;
      [apply truthy_not_empty; exact T | discriminate].
Qed.

(** X19.  An upload that multer turns away never reaches the controller.
    [handleMulterError] answers every error with 400 and a message that is
    not empty, and passes on only when there is no error.  [fileFilter]
    accepts a file exactly when its MIME type is one of the configured
    types, taken as they stand between the commas; with nothing configured
    those are image/jpeg, image/png, image/jpg and image/webp.  A file it
    refuses is answered 400 with the message that names those four types,
    whatever types are configured.  On the upload routes, behind the
    database check, such a request is answered without a call to any
    service and without a change of state: by 503 when the database is
    flagged disconnected, by the 400 otherwise. *)
Theorem turned_away_uploads (configured : option string) (mimetype : string) :
  handleMulterError None = None
  /\ (forall err, exists msg,
        handleMulterError (Some err) = Some (bad_request msg)
        /\ code (bad_request msg) = 400
        /\ success (bad_request msg) = false
        /\ msg <> EmptyString)
  /\ (fileFilter configured mimetype = inr true <->
      In mimetype (allowedTypes configured))
  /\ (truthy configured = false ->
      (fileFilter configured mimetype = inr true <->
       mimetype = "image/jpeg" \/ mimetype = "image/png"
       \/ mimetype = "image/jpg" \/ mimetype = "image/webp"))
  /\ (forall e, fileFilter configured mimetype = inl e ->
        handleMulterError (Some (plain_error e))
        = Some (bad_request
                  "Invalid file type. Only JPEG, PNG, JPG and WebP images are allowed."))
  /\ (forall err handler w,
        exists resp,
          run (upload_route (Some err) handler) w = (inr resp, w)
          /\ success resp = false
          /\ code resp
             = (if isMongoConnected (globals w) then 400 else 503)).
Proof.
  split; [reflexivity|].
  split.
  { intros err. destruct (handleMulterError_400 err) as (msg & H1 & H2).
    exists msg. repeat split; assumption. }
  assert (Hacc : fileFilter configured mimetype = inr true <->
                 In mimetype (allowedTypes configured)).
  { unfold fileFilter.
    destruct (existsb (String.eqb mimetype) (allowedTypes configured)) eqn:E.
    - split; [intros _|reflexivity].
      apply existsb_exists in E. destruct E as (t & Hin & Ht).
      apply String.eqb_eq in Ht. subst t. exact Hin.
    - split; [discriminate|]. intros Hin.
      assert (E' : existsb (String.eqb mimetype) (allowedTypes configured)
                   = true).
      { apply existsb_exists. exists mimetype. split; [exact Hin|].
        apply String.eqb_refl. }
      congruence. }
  split; [exact Hacc|].
  split.
  { intros Hc. rewrite Hacc. unfold allowedTypes. rewrite Hc.
    change (split_commas DEFAULT_FILE_TYPES)
      with ["image/jpeg"; "image/png"; "image/jpg"; "image/webp"].
    cbn [In]. intuition congruence. }
  split.
  { intros e He. unfold fileFilter in He.
    destruct (existsb (String.eqb mimetype) (allowedTypes configured));
      [discriminate|].
    injection He as <-. reflexivity. }
  intros err handler w.
  destruct (handleMulterError_400 err) as (msg & H1 & _).
  unfold upload_route, guarded, checkCriticalServices, isMongoDBConnected,
    run.
  rewrite H1. cbn [bind get run_among].
  destruct (isMongoConnected (globals w)); cbn;
    eexists; repeat split; reflexivity.
Qed.

(** X19, an instance: a GIF offered while nothing is configured. *)
Lemma turned_away_uploads_witness :
  exists e,
    fileFilter None "image/gif" = inl e
    /\ handleMulterError (Some (plain_error e))
       = Some (bad_request
                 "Invalid file type. Only JPEG, PNG, JPG and WebP images are allowed.").
Proof.
  eexists. split; [reflexivity|].
  destruct (turned_away_uploads None "image/gif")
    as (_ & _ & _ & _ & H & _).
  apply H. reflexivity.
Defined.

(* ================================================================== *)
(** * 40. Uploads when everything is up                               *)
(* ================================================================== *)

Lemma set_payload_keeps_other id img l p :
  In p l -> point_id p <> id -> In p (set_payload_imageId id img l).
Proof.
  intros Hin Hne. unfold set_payload_imageId. apply in_map_iff.
  exists p. split; [|exact Hin].
  destruct (String.eqb_spec (point_id p) id); [contradiction | reflexivity].
Qed.

Lemma set_payload_links id img l v u name :
  In (mkPoint id v (mkPayload None u name)) l ->
  In (mkPoint id v (mkPayload (Some img) u name))
     (set_payload_imageId id img l).
Proof.
  intros Hin. unfold set_payload_imageId. apply in_map_iff.
  exists (mkPoint id v (mkPayload None u name)). split; [|exact Hin].
  cbn. rewrite String.eqb_refl. reflexivity.
Qed.

(** One file of an upload with everything up: the record is created after
    its vector, and the payload of the point is completed with the id of
    the record. *)
Lemma uploadFile_indexed u file w :
  services_up w -> up Storage w ->
  exists img,
    fst (run (uploadFile u true file) w) = inr img
    /\ images (snd (run (uploadFile u true file) w)) = images w ++ [img]
    /\ points (snd (run (uploadFile u true file) w))
       = set_payload_imageId (qdrantId img) (_id img)
           (upsert_point
              (mkPoint (qdrantId img)
                 (image_embedding (env w) (filePath img))
                 (mkPayload None (user img) (filename img)))
              (points w))
    /\ qdrantId img
       = uuidv4_nth (lib (globals w)) (S (uuidCount (globals w)))
    /\ uuidCount (globals (snd (run (uploadFile u true file) w)))
       = 2 + uuidCount (globals w)
    /\ lib (globals (snd (run (uploadFile u true file) w)))
       = lib (globals w)
    /\ env (snd (run (uploadFile u true file) w)) = env w
    /\ embeddingStatus img = completed
    /\ services_up (snd (run (uploadFile u true file) w)).
Proof.
  intros (Hv & Hp & Hq & Hc & HMo & HM & HQ) HS.
  unfold services_up, up.
  unfold uploadFile, run, uuidv4, getImageMetadata, isQdrantConnected,
    checkQdrantHealth, generateImageEmbedding, getQdrantClient.
  execute ltac:(first [apply HMo | apply HM | apply HQ | apply HS]).
  eexists. repeat split; try reflexivity; assumption.
Qed.

Lemma uploadFiles_indexed u files :
  forall uploaded errors w (kept : list Point),
    services_up w -> up Storage w ->
    uuid_injective (lib (globals w)) ->
    (forall p, In p kept -> In p (points w) /\ not_upcoming (globals w) p) ->
    exists imgs,
      fst (run (uploadFiles u true files uploaded errors) w)
      = inr (uploaded ++ imgs, errors)
      /\ length imgs = length files
      /\ images (snd (run (uploadFiles u true files uploaded errors) w))
         = images w ++ imgs
      /\ (forall p, In p kept ->
            In p (points
                    (snd (run (uploadFiles u true files uploaded errors)
                            w))))
      /\ (forall img, In img imgs ->
            embeddingStatus img = completed
            /\ In (embedded_point (env w) img)
                  (points
                     (snd (run (uploadFiles u true files uploaded errors)
                             w)))).
Proof.
  induction files as [|file rest IH];
    intros uploaded errors w kept Hup HS Hinj Hkept.
  - exists []. cbn. rewrite !app_nil_r.
    split; [reflexivity|]. split; [reflexivity|]. split; [reflexivity|].
    split; [intros p Hp; apply Hkept; exact Hp | intros img []].
  - cbn [uploadFiles]. rewrite run_bind, run_try_catch, run_bind.
    destruct (uploadFile_indexed u file w Hup HS)
      as (img & Hr & Hi & Hpts & Hq & Hc & Hl & He & Hst & Hup1).
    destruct (run (uploadFile u true file) w) as [r w1].
    cbn [fst snd] in *. subst r.
    change (run (Ret (inr img)) w1)
      with (@inr JsError (string * string + Image) (inr img), w1).
    cbv beta iota.
    assert (Hnew : In (embedded_point (env w) img) (points w1)).
    { rewrite Hpts. unfold embedded_point.
      apply set_payload_links. apply upsert_point_In. }
    assert (Hkept1 : forall p,
               In p (embedded_point (env w) img :: kept) ->
               In p (points w1) /\ not_upcoming (globals w1) p).
    { intros p [<- | Hp].
      - split; [exact Hnew|].
        intros i Hge E. cbn [embedded_point point_id] in E.
        rewrite Hq, Hl in E. apply Hinj in E. lia.
      - destruct (Hkept p Hp) as [Hin Hsafe]. split.
        + rewrite Hpts.
          assert (Hne : point_id p <> qdrantId img).
          { rewrite Hq. apply Hsafe. lia. }
          apply set_payload_keeps_other; [|exact Hne].
          apply upsert_point_keeps_other; [exact Hin | exact Hne].
        + intros i Hge. rewrite Hl. apply Hsafe. lia. }
    assert (HS1 : up Storage w1) by (eapply up_env; eassumption).
    assert (Hinj1 : uuid_injective (lib (globals w1)))
      by (rewrite Hl; exact Hinj).
    destruct (IH (uploaded ++ [img]) errors w1
                (embedded_point (env w) img :: kept) Hup1 HS1 Hinj1 Hkept1)
      as (imgs & Kr & Klen & Ki & Kk & Kn).
    exists (img :: imgs). rewrite Kr, <- app_assoc. cbn [app length].
    split; [reflexivity|]. split; [lia|].
    split; [rewrite Ki, Hi, <- app_assoc; reflexivity|].
    split; [intros p Hp; apply Kk; right; exact Hp|].
    intros img' [<- | Hin].
    + split; [exact Hst|]. apply Kk. left. reflexivity.
    + destruct (Kn img' Hin) as [K1 K2]. rewrite He in K2. auto.
Qed.

Lemma uploadImage_indexed req file w :
  isMongoConnected (globals w) = true ->
  model_ready (globals w) = true ->
  up_file req = Some file ->
  services_up w -> up Storage w ->
  exists img,
    fst (run (uploadImage req) w) = inr (mkResponse 201 (JUploaded img))
    /\ images (snd (run (uploadImage req) w)) = images w ++ [img]
    /\ points (snd (run (uploadImage req) w))
       = set_payload_imageId (qdrantId img) (_id img)
           (upsert_point
              (mkPoint (qdrantId img)
                 (image_embedding (env w) (filePath img))
                 (mkPayload None (user img) (filename img)))
              (points w))
    /\ qdrantId img
       = uuidv4_nth (lib (globals w)) (S (uuidCount (globals w)))
    /\ embeddingStatus img = pending
    /\ isEmbedded img = false.
Proof.
  intros Hm Hr Hf (Hv & Hp & Hq & Hc & HMo & HM & HQ) HS.
  unfold model_ready in Hr.
  unfold uploadImage, run, isMongoDBConnected, isAIModelReady, uuidv4,
    getImageMetadata, isQdrantConnected, checkQdrantHealth,
    generateImageEmbedding, getQdrantClient, model_ready.
  rewrite Hf.
  execute ltac:(first [apply HMo | apply HM | apply HQ | apply HS]).
  all: try (rewrite ?Hv, ?Hp in Hr; cbn [andb] in Hr; discriminate Hr).
  all: eexists; repeat split; reflexivity.
Qed.

(** X20.  Uploads with everything up: database connected, model ready,
    index flagged available with a client, all four services answering, and
    a uuid source that does not repeat itself.  [uploadMultipleImages]
    answers 201 with a completed record for every file, and
    [uploadImage] 201 with a record that is pending and not embedded; in
    both cases the index then holds, for each new record, the point that
    a pass of the pipeline would write for it: under its [qdrantId], with
    the embedding of the stored file and the id of the record, its owner
    and file name as payload.  Points whose id is not a uuid still to come
    stay in the index. *)
Theorem uploads_index_their_records (w : World) :
  isMongoConnected (globals w) = true ->
  model_ready (globals w) = true ->
  isQdrantAvailable (globals w) = true ->
  qdrantClient (globals w) = true ->
  up Mongo w -> up Model w -> up Qdrant w -> up Storage w ->
  uuid_injective (lib (globals w)) ->
  (forall many files,
      many_files many = Some files -> files <> [] ->
      exists imgs,
        fst (run (uploadMultipleImages many) w)
        = inr (mkResponse 201
                 (JUploadedMany imgs (length files) (length files) None))
        /\ images (snd (run (uploadMultipleImages many) w))
           = images w ++ imgs
        /\ (forall img, In img imgs ->
              embeddingStatus img = completed
              /\ In (embedded_point (env w) img)
                    (points (snd (run (uploadMultipleImages many) w))))
        /\ (forall p, In p (points w) -> not_upcoming (globals w) p ->
              In p (points (snd (run (uploadMultipleImages many) w)))))
  /\ (forall single file,
        up_file single = Some file ->
        exists img,
          fst (run (uploadImage single) w)
          = inr (mkResponse 201 (JUploaded img))
          /\ images (snd (run (uploadImage single) w)) = images w ++ [img]
          /\ embeddingStatus img = pending
          /\ isEmbedded img = false
          /\ In (embedded_point (env w) img)
                (points (snd (run (uploadImage single) w)))
          /\ (forall p, In p (points w) -> not_upcoming (globals w) p ->
                In p (points (snd (run (uploadImage single) w))))).
Proof.
  intros Hm Hr Hq Hc HMo HM HQ HS Hinj.
  assert (Hup : services_up w).
  { pose proof Hr as Hr'. unfold model_ready in Hr'.
    apply andb_true_iff in Hr'. destruct Hr' as [Hr' _].
    apply andb_true_iff in Hr'. destruct Hr' as [Hr' Hpr].
    apply andb_true_iff in Hr'. destruct Hr' as [Hr' _].
    apply andb_true_iff in Hr'. destruct Hr' as [_ Hv].
    repeat split; assumption. }
  split.
  - intros many files Hf Hne.
    unfold uploadMultipleImages.
    rewrite run_try_catch, run_bind.
    change (run isMongoDBConnected w)
      with (@inr JsError bool (isMongoConnected (globals w)), w).
    cbv beta iota. rewrite Hm, Hf.
    destruct files as [|file rest]; [contradiction|].
    cbn [negb]. rewrite run_bind.
    change (run isAIModelReady w)
      with (@inr JsError bool (model_ready (globals w)), w).
    cbv beta iota. rewrite Hr, run_bind.
    destruct (uploadFiles_indexed (many_user many) (file :: rest) [] [] w
                [] Hup HS Hinj ltac:(intros p []))
      as (imgs & Kr & Klen & Ki & _ & Kn).
    assert (Kk : forall p, In p (points w) -> not_upcoming (globals w) p ->
                 In p (points
                         (snd (run (uploadFiles (many_user many) true
                                      (file :: rest) [] []) w)))).
    { intros p Hp Hsafe.
      destruct (uploadFiles_indexed (many_user many) (file :: rest) [] [] w
                  [p] Hup HS Hinj) as (imgs' & _ & _ & _ & K & _).
      - intros p' [<- | []]. split; assumption.
      - apply K. left. reflexivity. }
    destruct (run (uploadFiles (many_user many) true (file :: rest) [] []) w)
      as [r w1].
    cbn [fst snd] in *. subst r. cbn [app fst snd].
    rewrite run_bind.
    change (run (modify bump_pendingTriggers) w1)
      with (@inr JsError unit tt,
            set_globals (bump_pendingTriggers (globals w1)) w1).
    cbv beta iota. cbn [run run_among fst snd].
    exists imgs. rewrite Klen. cbn [length Nat.ltb Nat.leb].
    split; [reflexivity|]. split; [exact Ki|]. split; [exact Kn | exact Kk].
  - intros single file Hf.
    destruct (uploadImage_indexed single file w Hm Hr Hf Hup HS)
      as (img & H1 & H2 & H3 & H4 & H5 & H6).
    exists img. split; [exact H1|]. split; [exact H2|].
    split; [exact H5|]. split; [exact H6|].
    rewrite H3. split.
    + unfold embedded_point.
      apply set_payload_links. apply upsert_point_In.
    + intros p Hp Hsafe.
      assert (Hne : point_id p <> qdrantId img).
      { rewrite H4. apply Hsafe. lia. }
      apply set_payload_keeps_other; [|exact Hne].
      apply upsert_point_keeps_other; [exact Hp | exact Hne].
Qed.

(** X20, an instance: two files uploaded with everything up. *)
Lemma uploads_index_their_records_witness :
  exists imgs,
    fst (run (uploadMultipleImages two_files) all_up_world)
    = inr (mkResponse 201 (JUploadedMany imgs 2 2 None))
    /\ forall img, In img imgs ->
         In (embedded_point (env all_up_world) img)
            (points (snd (run (uploadMultipleImages two_files)
                            all_up_world))).
Proof.
  destruct (uploads_index_their_records all_up_world eq_refl eq_refl eq_refl
              eq_refl (demo_world_up _ _ _ _ Mongo)
              (demo_world_up _ _ _ _ Model) (demo_world_up _ _ _ _ Qdrant)
              (demo_world_up _ _ _ _ Storage) demo_lib_injective)
    as [H _].
  destruct (H two_files _ eq_refl ltac:(discriminate))
    as (imgs & H1 & _ & H3 & _).
  exists imgs. split; [exact H1|].
  intros img Hin. exact (proj2 (H3 img Hin)).
Defined.

(* ================================================================== *)
(** * 41. Draining the backlog                                        *)
(* ================================================================== *)

Lemma perform_env {R : Type} (c : Call R) w :
  env (snd (perform c w)) = env w.
Proof.
  unfold perform.
  destruct (faults (env w) (service_of c) (calls w (service_of c)));
    [reflexivity|].
  destruct c; reflexivity.
Qed.

Lemma pass_keeps_model :
  respects any_call keeps_model processPendingEmbeddings.
Proof.
  respects_loop ltac:(first [exact I | intros ?g; repeat split]).
Qed.

Lemma pass_same_model w :
  model_ready (globals (snd (run processPendingEmbeddings w)))
  = model_ready (globals w)
  /\ clock (globals (snd (run processPendingEmbeddings w)))
     = clock (globals w)
  /\ qdrantClient (globals (snd (run processPendingEmbeddings w)))
     = qdrantClient (globals w)
  /\ env (snd (run processPendingEmbeddings w)) = env w.
Proof.
  apply (@respects_run any_call keeps_model
           (fun w' => model_ready (globals w') = model_ready (globals w)
                      /\ clock (globals w') = clock (globals w)
                      /\ qdrantClient (globals w') = qdrantClient (globals w)
                      /\ env w' = env w)).
  - intros R c w' _ H. rewrite perform_globals, perform_env. exact H.
  - intros f w' Hf (H1 & H2 & H3 & H4). cbn.
    destruct (Hf (globals w')) as (E1 & E2 & E3).
    rewrite E1, E2, E3. auto.
  - apply pass_keeps_model.
  - auto.
Qed.

Lemma model_ready_services w :
  model_ready (globals w) = true ->
  isQdrantAvailable (globals w) = true ->
  qdrantClient (globals w) = true ->
  up Mongo w -> up Model w -> up Qdrant w ->
  services_up w.
Proof.
  intros Hm Hq Hc HMo HM HQ. unfold model_ready in Hm.
  apply andb_true_iff in Hm. destruct Hm as [Hm _].
  apply andb_true_iff in Hm. destruct Hm as [Hm Hpr].
  apply andb_true_iff in Hm. destruct Hm as [Hm _].
  apply andb_true_iff in Hm. destruct Hm as [_ Hv].
  repeat split; assumption.
Qed.

(** With unique ids an update by id is a map over the store. *)
Lemma update_by_id_map i u l :
  NoDup (map _id l) ->
  update_by_id i u l
  = map (fun r => if Nat.eqb (_id r) i then apply_update u r else r) l.
Proof.
  induction l as [|a l IH]; cbn; [reflexivity|].
  intros H. inversion H as [|x xs Hni Hnd]; subst.
  destruct (Nat.eqb_spec (_id a) i) as [E|E].
  - f_equal. rewrite <- (map_id l) at 1. apply map_ext_in.
    intros r Hr. destruct (Nat.eqb_spec (_id r) i) as [E'|]; [|reflexivity].
    exfalso. apply Hni. rewrite E, <- E'. apply in_map. exact Hr.
  - f_equal. apply IH. exact Hnd.
Qed.

Lemma in_batch_In batch r :
  in_batch batch r = true <-> In (_id r) (map _id batch).
Proof.
  unfold in_batch. rewrite existsb_exists. split.
  - intros (x & Hx & E). apply Nat.eqb_eq in E. rewrite E. exact Hx.
  - intros H. exists (_id r). split; [exact H | apply Nat.eqb_refl].
Qed.

Lemma embed_all_map t batch :
  forall l,
    NoDup (map _id batch) -> NoDup (map _id l) ->
    embed_all t batch l
    = map (fun r => if in_batch batch r then mark_embedded t r else r) l.
Proof.
  induction batch as [|b rest IH]; intros l Hb Hl.
  - cbn. symmetry. apply map_id.
  - cbn [map] in Hb. inversion Hb as [|x xs Hni Hnd]; subst.
    change (embed_all t (b :: rest) l)
      with (embed_all t rest
              (update_by_id (_id b) SetCompleted
                 (update_by_id (_id b) (SetProcessing t) l))).
    rewrite IH; [|exact Hnd | rewrite !update_by_id_ids; exact Hl].
    rewrite (update_by_id_map (_id b) (SetProcessing t) l Hl).
    rewrite update_by_id_map.
    2:{ rewrite <- (update_by_id_map (_id b) (SetProcessing t) l Hl),
          update_by_id_ids. exact Hl. }
    rewrite !map_map. apply map_ext. intros r.
    unfold in_batch. cbn [map existsb].
    destruct (Nat.eqb_spec (_id r) (_id b)) as [E|E].
    + rewrite apply_update_id, E, Nat.eqb_refl. cbn [orb].
      fold (mark_embedded t r).
      destruct (existsb (Nat.eqb (_id (mark_embedded t r))) (map _id rest))
        eqn:Ex; [|reflexivity].
      exfalso. apply Hni. apply existsb_exists in Ex.
      destruct Ex as (x & Hx & Ex). apply Nat.eqb_eq in Ex.
      unfold mark_embedded in Ex. rewrite !apply_update_id in Ex.
      rewrite <- E, Ex. exact Hx.
    + apply Nat.eqb_neq in E. rewrite ?E. cbn [orb]. rewrite ?E.
      reflexivity.
Qed.

Lemma rest_of_backlog (B : list Image) :
  forall n,
    NoDup (map _id B) ->
    filter (fun r => negb (in_batch (firstn n B) r)) B = skipn n B.
Proof.
  induction B as [|b B IH]; intros n Hnd; [destruct n; reflexivity|].
  destruct n as [|n].
  - cbn [firstn skipn]. unfold in_batch. cbn [map existsb negb].
    apply filter_everything.
  - cbn [firstn skipn filter]. unfold in_batch at 1. cbn [map existsb].
    rewrite Nat.eqb_refl. cbn [orb negb].
    cbn [map] in Hnd. inversion Hnd as [|x xs Hni Hnd']; subst.
    rewrite <- (IH n Hnd'). apply filter_ext_in. intros r Hr.
    unfold in_batch. cbn [map existsb].
    destruct (Nat.eqb_spec (_id r) (_id b)) as [E|E]; [|reflexivity].
    exfalso. apply Hni. rewrite <- E. apply in_map. exact Hr.
Qed.

Lemma marked_not_eligible re t t' r :
  matches re (needsEmbedding t') (mark_embedded t r) = false.
Proof.
  destruct (matches re (needsEmbedding t') (mark_embedded t r)) eqn:E;
    [|reflexivity].
  apply needsEmbedding_eligible in E.
  destruct E as [E | (E & _)]; discriminate E.
Qed.

Lemma filter_embed_all (m : Image -> bool) t batch l :
  (forall r, m (mark_embedded t r) = false) ->
  filter m (map (fun r => if in_batch batch r then mark_embedded t r else r) l)
  = filter (fun r => negb (in_batch batch r)) (filter m l).
Proof.
  intros Hm. induction l as [|a l IH]; [reflexivity|].
  cbn [map filter]. destruct (in_batch batch a) eqn:Ea.
  - rewrite Hm, IH. destruct (m a); [|reflexivity].
    cbn [filter]. rewrite Ea. reflexivity.
  - destruct (m a); [|exact IH].
    cbn [filter]. rewrite Ea. cbn [negb]. f_equal. exact IH.
Qed.

Lemma pass_all_clear w :
  all_clear w -> all_clear (snd (run processPendingEmbeddings w)).
Proof.
  intros (Hp & Hm & Hq & Hc & HMo & HM & HQ).
  pose proof (model_ready_services w Hm Hq Hc HMo HM HQ) as Hup.
  destruct (pass_success w Hp Hm Hup) as (_ & _ & _ & Hp' & Hup').
  destruct (pass_same_model w) as (Em & _ & _ & _).
  destruct Hup' as (_ & _ & Hq' & Hc' & HMo' & HM' & HQ').
  unfold all_clear. rewrite Em. repeat split; assumption.
Qed.

Lemma pass_backlog w :
  all_clear w -> NoDup (map _id (images w)) ->
  backlog (snd (run processPendingEmbeddings w)) = skipn 10 (backlog w).
Proof.
  intros (Hp & Hm & Hq & Hc & HMo & HM & HQ) Hnd.
  pose proof (model_ready_services w Hm Hq Hc HMo HM HQ) as Hup.
  destruct (pass_success w Hp Hm Hup) as (_ & Hi & _).
  destruct (pass_same_model w) as (_ & Ec & _ & Ee).
  unfold backlog. rewrite Hi, Ec, Ee.
  rewrite embed_all_map by (try apply selected_NoDup; exact Hnd).
  rewrite filter_embed_all by (intros r; apply marked_not_eligible).
  rewrite selected_spec. apply rest_of_backlog.
  apply NoDup_map_filter. exact Hnd.
Qed.

(** A record that is not in the backlog is not in the batch. *)
Lemma outside_backlog_not_selected w i r :
  NoDup (map _id (images w)) ->
  find_by_id i (images w) = Some r ->
  matches (regex_i (env w)) (needsEmbedding (clock (globals w))) r = false ->
  ~ In i (map _id (selected w)).
Proof.
  intros Hnd Hf Hm Hin. apply in_map_iff in Hin.
  destruct Hin as (r2 & E & Hr2).
  rewrite selected_spec in Hr2. apply In_firstn in Hr2.
  apply filter_In in Hr2. destruct Hr2 as (Hr2 & Hm2).
  pose proof (find_by_id_unique _ _ Hnd Hr2) as Hf2.
  rewrite E, Hf in Hf2. congruence.
Qed.

Lemma passes_keep_embedded k :
  forall w i t r,
    NoDup (map _id (images w)) ->
    find_by_id i (images w) = Some (mark_embedded t r) ->
    find_by_id i (images (passes k w)) = Some (mark_embedded t r).
Proof.
  induction k as [|k IH]; intros w i t r Hnd Hf; [exact Hf|].
  cbn [passes].
  destruct (pass_framed w) as (Hfr & Hids & _).
  apply IH; [rewrite Hids; exact Hnd|].
  rewrite Hfr; [exact Hf|].
  apply (outside_backlog_not_selected w i _ Hnd Hf).
  apply marked_not_eligible.
Qed.

Lemma firstn_add_In (A : Type) (x : A) a b (l : list A) :
  In x (firstn (a + b) l) ->
  In x (firstn a l) \/ In x (firstn b (skipn a l)).
Proof.
  revert l. induction a as [|a IH]; intros l H; [right; exact H|].
  destruct l as [|y l]; [destruct H|].
  cbn [Nat.add firstn skipn] in *. destruct H as [H|H]; [left; left; exact H|].
  destruct (IH l H); [left; right|right]; assumption.
Qed.

(** X22.  The pipeline drains its backlog ten records at a time.  With the
    guard clear, the model ready, the index flagged available with a client,
    record store, model and index answering every call and document ids
    unique, after [k] passes run at one reading of the clock the selection
    query matches what it matched at the start without the first [10 * k]
    records; those records are completed and embedded, each attempted once.
    So once [10 * k] reaches the length of the backlog, nothing is left for
    the pipeline to do. *)
Theorem backlog_is_drained (k : nat) (w : World) :
  all_clear w ->
  NoDup (map _id (images w)) ->
  backlog (passes k w) = skipn (10 * k) (backlog w)
  /\ (forall r, In r (firstn (10 * k) (backlog w)) ->
        find_by_id (_id r) (images (passes k w))
        = Some (mark_embedded (clock (globals w)) r))
  /\ (length (backlog w) <= 10 * k -> backlog (passes k w) = []).
Proof.
  intros Hw Hnd.
  assert (H : backlog (passes k w) = skipn (10 * k) (backlog w)
              /\ (forall r, In r (firstn (10 * k) (backlog w)) ->
                    find_by_id (_id r) (images (passes k w))
                    = Some (mark_embedded (clock (globals w)) r))).
  { revert w Hw Hnd. induction k as [|k IH]; intros w Hw Hnd.
    - split; [reflexivity | intros r []].
    - cbn [passes].
      set (w1 := snd (run processPendingEmbeddings w)).
      pose proof (pass_all_clear w Hw) as Hw1.
      pose proof (pass_backlog w Hw Hnd) as Hb.
      destruct (pass_framed w) as (_ & Hids & _).
      assert (Hnd1 : NoDup (map _id (images w1)))
        by (unfold w1; rewrite Hids; exact Hnd).
      destruct (pass_same_model w) as (_ & Ec & _ & _).
      destruct (IH w1 Hw1 Hnd1) as (IH1 & IH2).
      fold w1 in Hb, Ec. rewrite Hb, Ec in *.
      replace (10 * S k) with (10 + 10 * k) by lia.
      split; [rewrite IH1, skipn_skipn; f_equal; lia|].
      intros r Hr. apply firstn_add_In in Hr. destruct Hr as [Hr|Hr].
      + apply passes_keep_embedded; [exact Hnd1|].
        destruct Hw as (Hp & Hm & Hq & Hc & HMo & HM & HQ).
        pose proof (model_ready_services w Hm Hq Hc HMo HM HQ) as Hup.
        destruct (pass_success w Hp Hm Hup) as (_ & Hi & _).
        unfold w1. rewrite Hi.
        apply embed_all_selected;
          [apply selected_NoDup; exact Hnd | exact Hr |].
        apply find_by_id_unique; [exact Hnd|].
        apply In_firstn in Hr. apply filter_In in Hr. tauto.
      + apply IH2. exact Hr. }
  destruct H as (H1 & H2). split; [exact H1|]. split; [exact H2|].
  intros Hlen. rewrite H1. apply skipn_all2. exact Hlen.
Qed.

(** X22, an instance: twelve pending records.  One pass leaves the last
    two, the second pass leaves none. *)
Lemma backlog_is_drained_witness :
  length (backlog (passes 1 twelve_pending)) = 2
  /\ backlog (passes 2 twelve_pending) = [].
Proof.
  assert (Hw : all_clear twelve_pending).
  { repeat split; try reflexivity; apply demo_world_up. }
  assert (Hnd : NoDup (map _id (images twelve_pending))).
  { change (map _id (images twelve_pending)) with (seq 1 12).
    apply seq_NoDup. }
  split.
  - rewrite (proj1 (backlog_is_drained 1 twelve_pending Hw Hnd)).
    reflexivity.
  - apply (backlog_is_drained 2 twelve_pending Hw Hnd). vm_compute. lia.
Defined.

(* ================================================================== *)
(** * 42. What a search hands out                                     *)
(* ================================================================== *)




